(** * Event-sourced task manager: aggregate kernel, event store, repository,
      event bus and task service

    A shallow embedding of the write path of the CQRS task manager:
    - [src/types/core.ts]           ([AggregateRoot], [DomainEvent])
    - [src/domain/task-aggregate.ts] ([TaskAggregate])
    - [src/infrastructure/event-store.ts] ([PostgreSQLEventStore])
    - [src/infrastructure/task-repository.ts] ([EventSourcedTaskRepository])
    - [src/infrastructure/event-bus.ts] ([InMemoryEventBus])
    - [src/services/task-service.ts] ([TaskService])

    Conventions of the embedding.
    - A JavaScript [number] holding a version is a [Z]; a [Date] is its
      epoch value in milliseconds, a [Z]; a string is a [string] whose
      characters are read as code units.
    - An optional field ([x?: T], possibly [undefined]) is an [option].
    - A method that mutates [this] and may throw is a function from the
      state before the call to an [Outcome] and the state after it: an
      exception keeps whatever was mutated before the [throw].
    - [uuidv4()] and [new Date()] are reads of the environment; every
      operation takes the values it reads as explicit arguments.
    - The PostgreSQL table [event_store] is the list of its rows in
      insertion order, with the constraints of its [CREATE TABLE]; a
      transaction is run on a working copy which replaces the table on
      [COMMIT] and is dropped on [ROLLBACK].  Ids are compared as strings,
      which is how the [UUID] columns compare them when they are spelled
      as PostgreSQL prints them ([Uuid.canonical]).  Connection loss and
      parameters that the column types cannot read (an id that is not a
      UUID, for which the driver throws) are outside the model; what is
      stated of an id that comes from outside is stated of a canonical one.
    - An [async] call that is awaited at once is a call.  Where calls are
      in flight together, as the handlers of one event in the bus are, each
      is a promise that the event loop resumes, and the order in which it
      does is read from the state of the bus, so that what is proved of
      the bus holds for every order.  A promise that never settles is
      outside the model.
    - [Logger] calls have no effect on any state modelled here, except in
      the event bus, whose log lines are kept in its trace. *)

From Stdlib Require Import ZArith List String Ascii Bool Lia DecimalString
  Permutation.
Import ListNotations.

Local Open Scope Z_scope.
Local Open Scope string_scope.

(* ===================================================================== *)
(** * JavaScript primitives *)
(* ===================================================================== *)

Module Js.

Definition Date := Z.

(** [String.prototype.trim] removes white space and line terminators from
    both ends; among the code units below 256 these are TAB, LF, VT, FF,
    CR, SPACE and NBSP. *)
Definition isWhiteSpace (c : ascii) : bool :=
  match nat_of_ascii c with
  | 9%nat | 10%nat | 11%nat | 12%nat | 13%nat | 32%nat | 160%nat => true
  | _ => false
  end.

Fixpoint trimStart (s : string) : string :=
  match s with
  | EmptyString => EmptyString
  | String c rest => if isWhiteSpace c then trimStart rest else s
  end.

Definition reverse (s : string) : string :=
  string_of_list_ascii (rev (list_ascii_of_string s)).

Definition trimEnd (s : string) : string := reverse (trimStart (reverse s)).

Definition trim (s : string) : string := trimEnd (trimStart s).

(** [`${n}`] for an integral number. *)
Definition numberToString (n : Z) : string :=
  NilZero.string_of_int (Z.to_int n).

(** [a || b] on an optional string: [undefined] and [''] are falsy. *)
Definition orElse (a : option string) (b : string) : string :=
  match a with
  | Some s => if String.eqb s "" then b else s
  | None => b
  end.

End Js.

(* ===================================================================== *)
(** * UUIDs *)
(* ===================================================================== *)

(** The columns [event_id] and [aggregate_id] are of type [UUID]
    ([src/config/database.ts]).  PostgreSQL prints a value of that type, and
    [uuidv4()] returns one, as 32 lower-case hexadecimal digits in groups of
    8, 4, 4, 4 and 12 separated by hyphens; in that spelling two ids are the
    same value exactly when they are the same string.  A parameter the
    column type cannot read makes the driver throw. *)
Module Uuid.

Definition isHexDigit (c : ascii) : bool :=
  let n := nat_of_ascii c in
  ((48 <=? n) && (n <=? 57) || (97 <=? n) && (n <=? 102))%nat.

Definition isHyphenPosition (position : nat) : bool :=
  ((position =? 8) || (position =? 13) || (position =? 18) || (position =? 23))%nat.

Fixpoint spelledFrom (position : nat) (s : string) : bool :=
  match s with
  | EmptyString => true
  | String c rest =>
      (if isHyphenPosition position then Ascii.eqb c "-" else isHexDigit c)
      && spelledFrom (S position) rest
  end.

Definition canonical (s : string) : bool :=
  (String.length s =? 36)%nat && spelledFrom 0 s.

End Uuid.

(* ===================================================================== *)
(** * Errors ([src/middleware/error-handler.ts]) and outcomes *)
(* ===================================================================== *)

Inductive Error : Type :=
| ValidationError (message : string) (field : option string)
| NotFoundError (message : string)
| ConflictError (message : string)
| DatabaseError (message : string)   (* an error raised by the [pg] driver *)
| PlainError (message : string).     (* [new Error(message)] *)

Definition isConflictError (e : Error) : bool :=
  match e with ConflictError _ => true | _ => false end.

Definition isValidationError (e : Error) : bool :=
  match e with ValidationError _ _ => true | _ => false end.

Definition newNotFoundError (resource : string) (id : option string) : Error :=
  NotFoundError
    (resource
       ++ match id with
          | Some i => if String.eqb i "" then "" else " with id " ++ i
          | None => ""
          end
       ++ " not found").

Inductive Outcome (A : Type) : Type :=
| Returned (a : A)
| Thrown (e : Error).
Arguments Returned {A} a.
Arguments Thrown {A} e.

Definition isReturned {A} (o : Outcome A) : bool :=
  match o with Returned _ => true | Thrown _ => false end.

(** A method over a mutable state [S]. *)
Definition Method (S A : Type) : Type := S -> Outcome A * S.

Definition ret {S A} (a : A) : Method S A := fun s => (Returned a, s).

Definition throw {S A} (e : Error) : Method S A := fun s => (Thrown e, s).

Definition bind {S A B} (m : Method S A) (k : A -> Method S B) : Method S B :=
  fun s =>
    match m s with
    | (Returned a, s') => k a s'
    | (Thrown e, s') => (Thrown e, s')
    end.

Definition modify {S} (f : S -> S) : Method S unit := fun s => (Returned tt, f s).

Definition gets {S A} (f : S -> A) : Method S A := fun s => (Returned (f s), s).

Declare Scope method_scope.
Delimit Scope method_scope with method.
Notation "x <- m ;; k" := (bind m (fun x => k))
  (at level 100, m at next level, right associativity) : method_scope.
Notation "m ;; k" := (bind m (fun _ => k))
  (at level 100, right associativity) : method_scope.

(** [xs.forEach(body)] and [for (const x of xs) body]: the first exception
    leaves the loop. *)
Fixpoint forEach {S A} (body : A -> Method S unit) (xs : list A) : Method S unit :=
  match xs with
  | [] => ret tt
  | x :: rest => (body x ;; forEach body rest)%method
  end.

(* ===================================================================== *)
(** * Task types ([src/types/task.ts]) and events ([src/events/task-events.ts]) *)
(* ===================================================================== *)

Inductive TaskPriority : Type := LOW | MEDIUM | HIGH.

Inductive TaskStatus : Type := PENDING | COMPLETED | CANCELLED.

Definition TaskPriority_eqb (a b : TaskPriority) : bool :=
  match a, b with
  | LOW, LOW | MEDIUM, MEDIUM | HIGH, HIGH => true
  | _, _ => false
  end.

Definition TaskStatus_eqb (a b : TaskStatus) : bool :=
  match a, b with
  | PENDING, PENDING | COMPLETED, COMPLETED | CANCELLED, CANCELLED => true
  | _, _ => false
  end.

(** The string value of the enum member, as a template literal prints it. *)
Definition statusString (s : TaskStatus) : string :=
  match s with
  | PENDING => "pending"
  | COMPLETED => "completed"
  | CANCELLED => "cancelled"
  end.

(** [metadata: { source, timestamp: now.toISOString() }]. *)
Record Metadata : Type := {
  source : string;
  metadataTimestamp : Js.Date
}.

(** The union [TaskEvent], tagged by [eventType], with the payload of each
    kind; [OtherEvent t] is a [DomainEvent] whose [eventType] [t] is none of
    the four task kinds (its payload is [unknown]). *)
Inductive Payload : Type :=
| TaskCreated (title : string) (description : option string)
              (priority : TaskPriority) (createdBy : option string)
| TaskCompleted (completedBy completionNote : option string)
| TaskCancelled (reason cancelledBy : option string)
| TaskUpdated (title description : option string)
              (priority : option TaskPriority) (updatedBy : option string)
| OtherEvent (eventType : string).

Record DomainEvent : Type := {
  id : string;
  aggregateId : string;
  version : Z;
  timestamp : Js.Date;
  payload : Payload;
  metadata : option Metadata
}.

Definition eventType (e : DomainEvent) : string :=
  match payload e with
  | TaskCreated _ _ _ _ => "TaskCreated"
  | TaskCompleted _ _ => "TaskCompleted"
  | TaskCancelled _ _ => "TaskCancelled"
  | TaskUpdated _ _ _ _ => "TaskUpdated"
  | OtherEvent t => t
  end.

(** What one call reads from the environment: the result of [uuidv4()] and of
    [new Date()]. *)
Record Env : Type := {
  uuid : string;
  now : Js.Date
}.

(* ===================================================================== *)
(** * AggregateRoot ([src/types/core.ts]) *)
(* ===================================================================== *)

Module AggregateRoot.

Record t : Type := {
  _id : string;
  _version : Z;
  _uncommittedEvents : list DomainEvent
}.

(** [constructor(id: string, version: number = 0)]. *)
Definition new (id : string) (version : option Z) : t :=
  {| _id := id;
     _version := match version with Some v => v | None => 0 end;
     _uncommittedEvents := [] |}.

(** A concrete aggregate extends the base object and implements the
    abstract [applyEvent]. *)
Class Subclass (A : Type) : Type := {
  super : A -> t;
  withSuper : t -> A -> A;
  applyEvent : DomainEvent -> Method A unit
}.

Section Methods.
Context {A : Type} `{Subclass A}.

Definition id (this : A) : string := _id (super this).

Definition version (this : A) : Z := _version (super this).

Definition getUncommittedEvents (this : A) : list DomainEvent :=
  _uncommittedEvents (super this).

Definition markEventsAsCommitted : Method A unit :=
  modify (fun this =>
    withSuper {| _id := _id (super this);
                 _version := _version (super this);
                 _uncommittedEvents := [] |} this).

Definition push (event : DomainEvent) : Method A unit :=
  modify (fun this =>
    withSuper {| _id := _id (super this);
                 _version := _version (super this);
                 _uncommittedEvents := (_uncommittedEvents (super this) ++ [event])%list |}
              this).

Definition incrementVersion : Method A unit :=
  modify (fun this =>
    withSuper {| _id := _id (super this);
                 _version := _version (super this) + 1;
                 _uncommittedEvents := _uncommittedEvents (super this) |} this).

(** [this._uncommittedEvents.push(event); this.applyEvent(event);] *)
Definition raiseEvent (event : DomainEvent) : Method A unit :=
  (push event ;;
   applyEvent event)%method.

(** [events.forEach(event => { this.applyEvent(event); this._version++; })] *)
Definition loadFromHistory (events : list DomainEvent) : Method A unit :=
  forEach (fun event => (applyEvent event ;; incrementVersion)%method) events.

End Methods.

End AggregateRoot.

(** [TaskEntity] ([src/types/task.ts]): the state of a task for the write
    model. *)
Module TaskEntity.

Record t : Type := {
  id : string;
  title : string;
  description : option string;
  priority : TaskPriority;
  status : TaskStatus;
  createdAt : Js.Date;
  updatedAt : Js.Date;
  completedAt : option Js.Date;
  cancelledAt : option Js.Date
}.

End TaskEntity.

(* ===================================================================== *)
(** * TaskAggregate ([src/domain/task-aggregate.ts]) *)
(* ===================================================================== *)

Module TaskAggregate.

Record t : Type := {
  root : AggregateRoot.t;
  _title : string;
  _description : option string;
  _priority : TaskPriority;
  _status : TaskStatus;
  _createdAt : Js.Date;
  _updatedAt : Js.Date;
  _completedAt : option Js.Date;
  _cancelledAt : option Js.Date
}.

(** What [new TaskAggregate()] reads: [uuidv4()] when no id is given, and the
    clock once for each of [_createdAt] and [_updatedAt]. *)
Record Construction : Type := {
  freshId : string;
  createdAtInit : Js.Date;
  updatedAtInit : Js.Date
}.

(** [constructor(id?: string) { super(id || uuidv4()); }] with the field
    initialisers of the class. *)
Definition new (id : option string) (c : Construction) : t :=
  {| root := AggregateRoot.new (Js.orElse id (freshId c)) None;
     _title := "";
     _description := None;
     _priority := MEDIUM;
     _status := PENDING;
     _createdAt := createdAtInit c;
     _updatedAt := updatedAtInit c;
     _completedAt := None;
     _cancelledAt := None |}.

Definition title (this : t) := _title this.
Definition description (this : t) := _description this.
Definition priority (this : t) := _priority this.
Definition status (this : t) := _status this.
Definition createdAt (this : t) := _createdAt this.
Definition updatedAt (this : t) := _updatedAt this.
Definition completedAt (this : t) := _completedAt this.
Definition cancelledAt (this : t) := _cancelledAt this.

Definition withRoot (r : AggregateRoot.t) (this : t) : t :=
  {| root := r;
     _title := _title this;
     _description := _description this;
     _priority := _priority this;
     _status := _status this;
     _createdAt := _createdAt this;
     _updatedAt := _updatedAt this;
     _completedAt := _completedAt this;
     _cancelledAt := _cancelledAt this |}.

Definition applyTaskCreatedEvent (event : DomainEvent)
    (title : string) (description : option string) (priority : TaskPriority)
    (this : t) : t :=
  {| root := root this;
     _title := title;
     _description := description;
     _priority := priority;
     _status := PENDING;
     _createdAt := timestamp event;
     _updatedAt := timestamp event;
     _completedAt := _completedAt this;
     _cancelledAt := _cancelledAt this |}.

Definition applyTaskCompletedEvent (event : DomainEvent) (this : t) : t :=
  {| root := root this;
     _title := _title this;
     _description := _description this;
     _priority := _priority this;
     _status := COMPLETED;
     _createdAt := _createdAt this;
     _updatedAt := timestamp event;
     _completedAt := Some (timestamp event);
     _cancelledAt := _cancelledAt this |}.

Definition applyTaskCancelledEvent (event : DomainEvent) (this : t) : t :=
  {| root := root this;
     _title := _title this;
     _description := _description this;
     _priority := _priority this;
     _status := CANCELLED;
     _createdAt := _createdAt this;
     _updatedAt := timestamp event;
     _completedAt := _completedAt this;
     _cancelledAt := Some (timestamp event) |}.

(** A field of the payload that is [undefined] leaves the state alone. *)
Definition applyTaskUpdatedEvent (event : DomainEvent)
    (title description : option string) (priority : option TaskPriority)
    (this : t) : t :=
  {| root := root this;
     _title := match title with Some s => s | None => _title this end;
     _description :=
       match description with Some d => Some d | None => _description this end;
     _priority := match priority with Some p => p | None => _priority this end;
     _status := _status this;
     _createdAt := _createdAt this;
     _updatedAt := timestamp event;
     _completedAt := _completedAt this;
     _cancelledAt := _cancelledAt this |}.

(** [switch (event.eventType)]; the default case throws. *)
Definition applyEvent (event : DomainEvent) : Method t unit :=
  match payload event with
  | TaskCreated title description priority _ =>
      modify (applyTaskCreatedEvent event title description priority)
  | TaskCompleted _ _ =>
      modify (applyTaskCompletedEvent event)
  | TaskCancelled _ _ =>
      modify (applyTaskCancelledEvent event)
  | TaskUpdated title description priority _ =>
      modify (applyTaskUpdatedEvent event title description priority)
  | OtherEvent eventType =>
      throw (PlainError ("Unknown event type: " ++ eventType))
  end.

#[global] Instance subclass : AggregateRoot.Subclass t :=
  {| AggregateRoot.super := root;
     AggregateRoot.withSuper := withRoot;
     AggregateRoot.applyEvent := applyEvent |}.

(** [toEntity()]. *)
Definition toEntity (this : t) : TaskEntity.t :=
  {| TaskEntity.id := AggregateRoot.id this;
     TaskEntity.title := _title this;
     TaskEntity.description := _description this;
     TaskEntity.priority := _priority this;
     TaskEntity.status := _status this;
     TaskEntity.createdAt := _createdAt this;
     TaskEntity.updatedAt := _updatedAt this;
     TaskEntity.completedAt := _completedAt this;
     TaskEntity.cancelledAt := _cancelledAt this |}.

Definition metadataOf (src : string) (env : Env) : option Metadata :=
  Some {| source := src; metadataTimestamp := now env |}.

(** [static createNew(title, description?, priority = MEDIUM, createdBy?)].
    It reads the environment twice: for the new instance and for the
    event. *)
Definition createNew (title : string) (description : option string)
    (priority : option TaskPriority) (createdBy : option string)
    (c : Construction) (env : Env) : Outcome t :=
  if String.eqb title "" || (String.length (Js.trim title) =? 0)%nat then
    Thrown (ValidationError "Task title is required" (Some "title"))
  else if (255 <? String.length title)%nat then
    Thrown (ValidationError "Task title must be less than 255 characters"
                            (Some "title"))
  else if match description with
          | Some d => negb (String.eqb d "") && (1000 <? String.length d)%nat
          | None => false
          end then
    Thrown (ValidationError "Task description must be less than 1000 characters"
                            (Some "description"))
  else
    let task := new None c in
    let event :=
      {| id := uuid env;
         aggregateId := AggregateRoot.id task;
         version := 1;
         timestamp := now env;
         payload := TaskCreated (Js.trim title)
                                (option_map Js.trim description)
                                (match priority with Some p => p | None => MEDIUM end)
                                createdBy;
         metadata := metadataOf "TaskAggregate.createNew" env |} in
    match AggregateRoot.raiseEvent event task with
    | (Returned _, task') => Returned task'
    | (Thrown e, _) => Thrown e
    end.

(** [complete(completedBy?, completionNote?)]. *)
Definition complete (completedBy completionNote : option string) (env : Env)
  : Method t unit :=
  fun this =>
    if negb (TaskStatus_eqb (_status this) PENDING) then
      throw (ValidationError
               ("Cannot complete task in " ++ statusString (_status this) ++ " status")
               (Some "status")) this
    else
      let event :=
        {| id := uuid env;
           aggregateId := AggregateRoot.id this;
           version := AggregateRoot.version this + 1;
           timestamp := now env;
           payload := TaskCompleted completedBy completionNote;
           metadata := metadataOf "TaskAggregate.complete" env |} in
      AggregateRoot.raiseEvent event this.

(** [cancel(reason?, cancelledBy?)]. *)
Definition cancel (reason cancelledBy : option string) (env : Env)
  : Method t unit :=
  fun this =>
    if TaskStatus_eqb (_status this) COMPLETED then
      throw (ValidationError "Cannot cancel completed task" (Some "status")) this
    else if TaskStatus_eqb (_status this) CANCELLED then
      throw (ValidationError "Task is already cancelled" (Some "status")) this
    else
      let event :=
        {| id := uuid env;
           aggregateId := AggregateRoot.id this;
           version := AggregateRoot.version this + 1;
           timestamp := now env;
           payload := TaskCancelled reason cancelledBy;
           metadata := metadataOf "TaskAggregate.cancel" env |} in
      AggregateRoot.raiseEvent event this.

(** The argument [updates: { title?, description?, priority? }]. *)
Record Updates : Type := {
  newTitle : option string;
  newDescription : option string;
  newPriority : option TaskPriority
}.

Definition option_string_eqb (a b : option string) : bool :=
  match a, b with
  | Some x, Some y => String.eqb x y
  | None, None => true
  | _, _ => false
  end.

(** The three disjuncts of [hasChanges]. *)
Definition titleChanges (updates : Updates) (this : t) : bool :=
  match newTitle updates with
  | Some s => negb (String.eqb (Js.trim s) (_title this))
  | None => false
  end.

Definition descriptionChanges (updates : Updates) (this : t) : bool :=
  match newDescription updates with
  | Some d => negb (option_string_eqb (Some (Js.trim d)) (_description this))
  | None => false
  end.

Definition priorityChanges (updates : Updates) (this : t) : bool :=
  match newPriority updates with
  | Some p => negb (TaskPriority_eqb p (_priority this))
  | None => false
  end.

Definition hasChanges (updates : Updates) (this : t) : bool :=
  titleChanges updates this
  || descriptionChanges updates this
  || priorityChanges updates this.

(** [update(updates, updatedBy?)]. *)
Definition update (updates : Updates) (updatedBy : option string) (env : Env)
  : Method t unit :=
  fun this =>
    if negb (TaskStatus_eqb (_status this) PENDING) then
      throw (ValidationError
               ("Cannot update task in " ++ statusString (_status this) ++ " status")
               (Some "status")) this
    else if match newTitle updates with
            | Some s => String.eqb s "" || (String.length (Js.trim s) =? 0)%nat
            | None => false
            end then
      throw (ValidationError "Task title is required" (Some "title")) this
    else if match newTitle updates with
            | Some s => (255 <? String.length s)%nat
            | None => false
            end then
      throw (ValidationError "Task title must be less than 255 characters"
                             (Some "title")) this
    else if match newDescription updates with
            | Some d => (1000 <? String.length d)%nat
            | None => false
            end then
      throw (ValidationError "Task description must be less than 1000 characters"
                             (Some "description")) this
    else if negb (hasChanges updates this) then
      ret tt this
    else
      let event :=
        {| id := uuid env;
           aggregateId := AggregateRoot.id this;
           version := AggregateRoot.version this + 1;
           timestamp := now env;
           payload := TaskUpdated (option_map Js.trim (newTitle updates))
                                  (option_map Js.trim (newDescription updates))
                                  (newPriority updates)
                                  updatedBy;
           metadata := metadataOf "TaskAggregate.update" env |} in
      AggregateRoot.raiseEvent event this.

End TaskAggregate.

(** [try { body } catch (error) { handler(error) }]. *)
Definition tryCatch {S A} (body : Method S A) (handler : Error -> Method S A)
  : Method S A :=
  fun s =>
    match body s with
    | (Returned a, s') => (Returned a, s')
    | (Thrown e, s') => handler e s'
    end.

(** A method of one object run inside a state that holds two. *)
Definition onFst {S1 S2 A} (m : Method S1 A) : Method (S1 * S2) A :=
  fun s => let (o, s1) := m (fst s) in (o, (s1, snd s)).

Definition onSnd {S1 S2 A} (m : Method S2 A) : Method (S1 * S2) A :=
  fun s => let (o, s2) := m (snd s) in (o, (fst s, s2)).

(* ===================================================================== *)
(** * PostgreSQLEventStore ([src/infrastructure/event-store.ts]) over the
      table [event_store] ([src/config/database.ts]) *)
(* ===================================================================== *)

Module PostgreSQLEventStore.

(** A row of [event_store].  [col_payload] holds the columns [event_type]
    and [payload]; the serial [id] is the position of the row in the
    table, and [created_at] is never read. *)
Record Row : Type := {
  col_event_id : string;
  col_aggregate_id : string;
  col_version : Z;
  col_payload : Payload;
  col_metadata : option Metadata;
  col_timestamp : Js.Date
}.

Definition Table : Type := list Row.

(** [WHERE aggregate_id = $1], for a parameter and rows spelled as
    PostgreSQL prints a UUID ([Uuid.canonical]). *)
Definition ofAggregate (aggregateId : string) (row : Row) : bool :=
  String.eqb (col_aggregate_id row) aggregateId.

(** [MAX(version)] over a set of rows: [NULL] when there is none. *)
Definition sqlMax (versions : list Z) : option Z :=
  match versions with
  | [] => None
  | v :: rest => Some (fold_left Z.max rest v)
  end.

(** [SELECT COALESCE(MAX(version), 0) FROM event_store WHERE aggregate_id = $1] *)
Definition getCurrentVersion (aggregateId : string) (table : Table) : Z :=
  match sqlMax (map col_version (filter (ofAggregate aggregateId) table)) with
  | Some v => v
  | None => 0
  end.

(** [event_id UUID UNIQUE] *)
Definition eventIdTaken (row : Row) (table : Table) : bool :=
  existsb (fun r => String.eqb (col_event_id r) (col_event_id row)) table.

(** [UNIQUE(aggregate_id, version)] *)
Definition aggregateVersionTaken (row : Row) (table : Table) : bool :=
  existsb (fun r => String.eqb (col_aggregate_id r) (col_aggregate_id row)
                    && (col_version r =? col_version row)%Z) table.

(** The values [$1, ..., $7] of the [INSERT]: the fields of the event, with
    [event.aggregateId] for [aggregate_id], and the [version] argument. *)
Definition rowOf (event : DomainEvent) (version : Z) : Row :=
  {| col_event_id := id event;
     col_aggregate_id := aggregateId event;
     col_version := version;
     col_payload := payload event;
     col_metadata := metadata event;
     col_timestamp := timestamp event |}.

(** [INSERT INTO event_store (...) VALUES ($1, ..., $7)]. *)
Definition insertEvent (event : DomainEvent) (version : Z) : Method Table unit :=
  fun table =>
    let row := rowOf event version in
    if eventIdTaken row table then
      throw (DatabaseError
               "duplicate key value violates unique constraint on event_id") table
    else if aggregateVersionTaken row table then
      throw (DatabaseError
               "duplicate key value violates unique constraint on (aggregate_id, version)")
            table
    else
      (Returned tt, (table ++ [row])%list).

(** [BEGIN; body; COMMIT], with [ROLLBACK] and a rethrow in the [catch]. *)
Definition transaction {A} (body : Method Table A) : Method Table A :=
  fun table =>
    match body table with
    | (Returned a, table') => (Returned a, table')
    | (Thrown e, _) => (Thrown e, table)
    end.

(** [for (let i = ...; i < events.length; i++)
       insertEvent(client, events[i], expectedVersion + i + 1)] *)
Fixpoint insertLoop (events : list DomainEvent) (i : Z) (expectedVersion : Z)
  : Method Table unit :=
  match events with
  | [] => ret tt
  | event :: rest =>
      (insertEvent event (expectedVersion + i + 1) ;;
       insertLoop rest (i + 1) expectedVersion)%method
  end.

Definition conflictMessage (expectedVersion currentVersion : Z)
    (aggregateId : string) : string :=
  "Concurrency conflict: Expected version " ++ Js.numberToString expectedVersion
    ++ ", but current version is " ++ Js.numberToString currentVersion
    ++ " for aggregate " ++ aggregateId.

(** [saveEvents(aggregateId, events, expectedVersion)]. *)
Definition saveEvents (aggregateId : string) (events : list DomainEvent)
    (expectedVersion : Z) : Method Table unit :=
  if (List.length events =? 0)%nat then
    ret tt
  else
    transaction
      (currentVersion <- gets (getCurrentVersion aggregateId) ;;
       if negb (currentVersion =? expectedVersion)%Z then
         throw (ConflictError
                  (conflictMessage expectedVersion currentVersion aggregateId))
       else
         insertLoop events 0 expectedVersion)%method.

(** [ORDER BY version ASC]. *)
Fixpoint insertByVersion (row : Row) (sorted : list Row) : list Row :=
  match sorted with
  | [] => [row]
  | r :: rest =>
      if (col_version row <=? col_version r)%Z then row :: sorted
      else r :: insertByVersion row rest
  end.

Definition orderByVersion (rows : list Row) : list Row :=
  fold_right insertByVersion [] rows.

Definition eventOfRow (row : Row) : DomainEvent :=
  {| id := col_event_id row;
     aggregateId := col_aggregate_id row;
     version := col_version row;
     timestamp := col_timestamp row;
     payload := col_payload row;
     metadata := col_metadata row |}.

(** [getEvents(aggregateId, fromVersion = 0)]:
    [WHERE aggregate_id = $1 AND version > $2 ORDER BY version ASC]. *)
Definition getEvents (aggregateId : string) (fromVersion : option Z)
    (table : Table) : list DomainEvent :=
  let from := match fromVersion with Some v => v | None => 0 end in
  map eventOfRow
      (orderByVersion
         (filter (fun r => ofAggregate aggregateId r && (from <? col_version r)%Z)
                 table)).

(** [SELECT EXISTS(SELECT 1 FROM event_store WHERE aggregate_id = $1)] *)
Definition aggregateExists (aggregateId : string) (table : Table) : bool :=
  existsb (ofAggregate aggregateId) table.

(** The rows [insertLoop] writes, in order. *)
Fixpoint stamped (events : list DomainEvent) (i : Z) (expectedVersion : Z)
  : list Row :=
  match events with
  | [] => []
  | event :: rest =>
      rowOf event (expectedVersion + i + 1) :: stamped rest (i + 1) expectedVersion
  end.

(** [start, start + 1, ..., start + n - 1]. *)
Fixpoint upto (start : Z) (n : nat) : list Z :=
  match n with
  | O => []
  | S k => start :: upto (start + 1) k
  end.

(** The versions stored for one aggregate, in insertion order. *)
Definition versionsOf (aggregateId : string) (table : Table) : list Z :=
  map col_version (filter (ofAggregate aggregateId) table).

(** Every aggregate's stored versions are 1, 2, ..., N, inserted in that
    order. *)
Definition contiguous (table : Table) : Prop :=
  forall aggregateId,
    versionsOf aggregateId table
    = upto 1 (List.length (versionsOf aggregateId table)).

(** The table satisfies [UNIQUE(aggregate_id, version)]. *)
Definition uniqueAggregateVersion (table : Table) : Prop :=
  NoDup (map (fun r => (col_aggregate_id r, col_version r)) table).

(** An event as it is read back: the fields as stored, under the version
    the store assigned. *)
Definition withVersion (event : DomainEvent) (v : Z) : DomainEvent :=
  {| id := id event;
     aggregateId := aggregateId event;
     version := v;
     timestamp := timestamp event;
     payload := payload event;
     metadata := metadata event |}.

(** The events of a batch under the versions [insertLoop] gives them. *)
Fixpoint renumbered (events : list DomainEvent) (i : Z) (expectedVersion : Z)
  : list DomainEvent :=
  match events with
  | [] => []
  | event :: rest =>
      withVersion event (expectedVersion + i + 1)
        :: renumbered rest (i + 1) expectedVersion
  end.

(** The column [event_type] of a row. *)
Definition rowEventType (row : Row) : string := eventType (eventOfRow row).

(** [EventStoreStatistics].  [eventTypeBreakdown] is the object built by
    [reduce], one entry per event type, in the order of the query. *)
Record EventStoreStatistics : Type := {
  totalEvents : nat;
  totalAggregates : nat;
  eventTypeBreakdown : list (string * nat);
  latestEventTime : option Js.Date
}.

(** [GROUP BY event_type] with [COUNT( * )]: one row per type. *)
Definition countByEventType (table : Table) : list (string * nat) :=
  map (fun t => (t, count_occ string_dec (map rowEventType table) t))
      (nodup string_dec (map rowEventType table)).

(** [ORDER BY count DESC]; the query leaves the order of equal counts open,
    here the later type comes first. *)
Fixpoint insertByCount (entry : string * nat) (sorted : list (string * nat))
  : list (string * nat) :=
  match sorted with
  | [] => [entry]
  | e :: rest =>
      if (snd e <=? snd entry)%nat then entry :: sorted
      else e :: insertByCount entry rest
  end.

Definition orderByCountDesc (entries : list (string * nat)) : list (string * nat) :=
  fold_right insertByCount [] entries.

(** [getStatistics()]: the four queries and the object made of them. *)
Definition getStatistics (table : Table) : EventStoreStatistics :=
  {| totalEvents := List.length table;
     totalAggregates :=
       List.length (nodup string_dec (map col_aggregate_id table));
     eventTypeBreakdown := orderByCountDesc (countByEventType table);
     latestEventTime := sqlMax (map col_timestamp table) |}.

End PostgreSQLEventStore.

(* ===================================================================== *)
(** * EventSourcedTaskRepository ([src/infrastructure/task-repository.ts]) *)
(* ===================================================================== *)

Module EventSourcedTaskRepository.

Import PostgreSQLEventStore.

(** [save(task)] acts on the aggregate passed to it and on the table. *)
Definition save : Method (TaskAggregate.t * Table) unit :=
  (uncommittedEvents <- gets (fun s => AggregateRoot.getUncommittedEvents (fst s)) ;;
   if (List.length uncommittedEvents =? 0)%nat then
     ret tt
   else
     tryCatch
       (taskId <- gets (fun s => AggregateRoot.id (fst s)) ;;
        taskVersion <- gets (fun s => AggregateRoot.version (fst s)) ;;
        onSnd (saveEvents taskId uncommittedEvents
                          (taskVersion - Z.of_nat (List.length uncommittedEvents))) ;;
        onFst AggregateRoot.markEventsAsCommitted)
       (fun error => throw error))%method.

(** [getById(id)]; the new instance reads the environment. *)
Definition getById (id : string) (c : TaskAggregate.Construction)
  : Method Table TaskAggregate.t :=
  tryCatch
    (events <- gets (getEvents id None) ;;
     if (List.length events =? 0)%nat then
       throw (newNotFoundError "Task" (Some id))
     else
       let task := TaskAggregate.new (Some id) c in
       fun table =>
         match AggregateRoot.loadFromHistory events task with
         | (Returned _, task') => (Returned task', table)
         | (Thrown e, _) => (Thrown e, table)
         end)%method
    (fun error => throw error).

Definition exists_ (id : string) : Method Table bool :=
  tryCatch (gets (aggregateExists id)) (fun error => throw error).

End EventSourcedTaskRepository.

(* ===================================================================== *)
(** * InMemoryEventBus ([src/infrastructure/event-bus.ts]) *)
(* ===================================================================== *)

Definition errorMessage (e : Error) : string :=
  match e with
  | ValidationError m _ | NotFoundError m | ConflictError m
  | DatabaseError m | PlainError m => m
  end.

Module InMemoryEventBus.

Section Bus.

(** Whatever the handlers act upon (a read model, a mail queue, ...). *)
Variable W : Type.

(** The promise a call of [handle] returns, as the event loop sees it:
    resolved, rejected, or pending.  The event loop resumes a pending
    promise; the resumption acts on the world up to the next [await] of the
    handler and leaves the promise [next].  A promise that never settles has
    no value of this type. *)
Inductive Promise : Type :=
| Resolved
| Rejected (error : Error)
| Pending (act : W -> W) (next : W -> Promise).

(** [EventHandler<DomainEvent>]; [handlerName] is [constructor.name].
    [canHandle] is a method like any other: it answers or throws, and it
    may touch the world.  [handle] runs on the world up to its first [await]
    and returns its promise; a [handle] that throws before it returns one
    is taken as one that returns a rejected promise, the caller awaiting it
    inside its [try].  A handler acts on the world: one that subscribes
    handlers to the bus or publishes on it while it runs is not
    described. *)
Record EventHandler : Type := {
  handlerName : string;
  canHandle : string -> Method W bool;
  handle : DomainEvent -> W -> W * Promise
}.

(** The lines the bus writes through [Logger]. *)
Inductive LogLine : Type :=
| EventHandlerSubscribed (handler : string)
| PublishingEvents (eventCount : nat) (eventTypes : list string)
| NoHandlersFound (eventType eventId : string)
| EventHandledSuccessfully (handler eventType eventId : string)
| EventHandlerFailed (handler eventType eventId error : string).

(** The bus, the world of its handlers, its log, and the choices the event
    loop is going to make: whenever handlers are in flight, the position,
    among those in flight, of the one it resumes next. *)
Record t : Type := {
  handlers : list EventHandler;
  world : W;
  logged : list LogLine;
  eventLoop : list nat
}.

Definition new (w : W) : t :=
  {| handlers := []; world := w; logged := []; eventLoop := [] |}.

Definition withWorld (w : W) (bus : t) : t :=
  {| handlers := handlers bus; world := w; logged := logged bus;
     eventLoop := eventLoop bus |}.

Definition withEventLoop (choices : list nat) (bus : t) : t :=
  {| handlers := handlers bus; world := world bus; logged := logged bus;
     eventLoop := choices |}.

Definition logLine (line : LogLine) : Method t unit :=
  modify (fun bus =>
    {| handlers := handlers bus;
       world := world bus;
       logged := (logged bus ++ [line])%list;
       eventLoop := eventLoop bus |}).

Definition onWorld {A} (m : Method W A) : Method t A :=
  fun bus => let (o, w) := m (world bus) in (o, withWorld w bus).

Definition subscribe (handler : EventHandler) : Method t unit :=
  (modify (fun bus =>
     {| handlers := (handlers bus ++ [handler])%list;
        world := world bus;
        logged := logged bus;
        eventLoop := eventLoop bus |}) ;;
   logLine (EventHandlerSubscribed (handlerName handler)))%method.

(** [handlers.filter(handler => handler.canHandle(eventType))]: the
    predicates are called in registration order, and the first one that
    throws ends the filter with its exception. *)
Fixpoint filterHandlers (eventType : string) (registered : list EventHandler)
  : Method W (list EventHandler) :=
  match registered with
  | [] => ret []
  | handler :: rest =>
      (accepted <- canHandle handler eventType ;;
       kept <- filterHandlers eventType rest ;;
       ret (if accepted : bool then handler :: kept else kept))%method
  end.

Definition applicableHandlers (event : DomainEvent)
  : Method t (list EventHandler) :=
  (registered <- gets handlers ;;
   onWorld (filterHandlers (eventType event) registered))%method.

(** An async arrow of [applicableHandlers.map(async handler => ...)] in
    flight: the name of its handler and the promise it awaits. *)
Definition InFlight : Type := (string * Promise)%type.

(** The call of the arrow for one handler: [handler.handle(event)] runs up
    to its first [await], and the arrow awaits the promise. *)
Definition start (event : DomainEvent) (handler : EventHandler)
  : Method t InFlight :=
  fun bus =>
    let (w, promise) := handle handler event (world bus) in
    (Returned (handlerName handler, promise), withWorld w bus).

(** [applicableHandlers.map(...)]: the arrows are called one after the
    other, in the order of the array. *)
Fixpoint startAll (event : DomainEvent) (applicable : list EventHandler)
  : Method t (list InFlight) :=
  match applicable with
  | [] => ret []
  | handler :: rest =>
      (arrow <- start event handler ;;
       others <- startAll event rest ;;
       ret (arrow :: others))%method
  end.

(** One resumption of an arrow in flight.  While the promise is pending the
    handler goes on to its next [await]; once it is settled the arrow
    writes its line, in the [try] or in the [catch], and is done. *)
Definition resume (event : DomainEvent) (arrow : InFlight) (bus : t)
  : list InFlight * t :=
  match snd arrow with
  | Resolved =>
      ([], snd (logLine (EventHandledSuccessfully (fst arrow) (eventType event)
                                                   (id event)) bus))
  | Rejected error =>
      ([], snd (logLine (EventHandlerFailed (fst arrow) (eventType event)
                                             (id event) (errorMessage error)) bus))
  | Pending act next =>
      ([(fst arrow, next (world bus))], withWorld (act (world bus)) bus)
  end.

(** An arrow resumed until it is done. *)
Fixpoint finish (event : DomainEvent) (handler : string) (promise : Promise)
    (bus : t) : t :=
  match promise with
  | Resolved =>
      snd (logLine (EventHandledSuccessfully handler (eventType event) (id event))
                   bus)
  | Rejected error =>
      snd (logLine (EventHandlerFailed handler (eventType event) (id event)
                                       (errorMessage error)) bus)
  | Pending act next =>
      finish event handler (next (world bus)) (withWorld (act (world bus)) bus)
  end.

Definition finishInOrder (event : DomainEvent) (arrows : list InFlight) (bus : t)
  : t :=
  fold_left (fun bus arrow => finish event (fst arrow) (snd arrow) bus) arrows bus.

(** The element at a position of a list, with what is before and after. *)
Fixpoint pick {A} (position : nat) (l : list A) : option (list A * A * list A) :=
  match l, position with
  | [], _ => None
  | a :: rest, O => Some ([], a, rest)
  | a :: rest, S p =>
      match pick p rest with
      | Some (before, x, after) => Some (a :: before, x, after)
      | None => None
      end
  end.

(** The event loop until every arrow in flight is done.  Each choice
    resumes the arrow at that position, if there is one; choices left over
    stay for later, and when none is left the arrows still in flight are
    finished one after the other. *)
Fixpoint settle (event : DomainEvent) (choices : list nat)
    (arrows : list InFlight) (bus : t) : t :=
  match arrows, choices with
  | [], _ => withEventLoop choices bus
  | _, [] => finishInOrder event arrows (withEventLoop [] bus)
  | _, position :: later =>
      match pick position arrows with
      | None => settle event later arrows bus
      | Some (before, arrow, after) =>
          let (resumed, bus') := resume event arrow bus in
          settle event later (before ++ resumed ++ after)%list bus'
      end
  end.

(** [await Promise.allSettled(handlerPromises)]. *)
Definition allSettled (event : DomainEvent) (arrows : list InFlight)
  : Method t unit :=
  fun bus => (Returned tt, settle event (eventLoop bus) arrows bus).

Definition processEvent (event : DomainEvent) : Method t unit :=
  (applicable <- applicableHandlers event ;;
   if (List.length applicable =? 0)%nat then
     logLine (NoHandlersFound (eventType event) (id event))
   else
     (handlerPromises <- startAll event applicable ;;
      allSettled event handlerPromises))%method.

(** The deliveries a log records: the handler and the event of every line
    written after a handler settled, whether it resolved or rejected. *)
Definition deliveries (lines : list LogLine) : list (string * string) :=
  flat_map (fun line =>
              match line with
              | EventHandledSuccessfully handler _ eventId
              | EventHandlerFailed handler _ eventId _ => [(handler, eventId)]
              | _ => []
              end) lines.

Definition publish (events : list DomainEvent) : Method t unit :=
  if (List.length events =? 0)%nat then
    ret tt
  else
    (logLine (PublishingEvents (List.length events) (map eventType events)) ;;
     forEach processEvent events)%method.

End Bus.

Arguments Resolved {W}.
Arguments Rejected {W} _.
Arguments Pending {W} _ _.
Arguments handlerName {W} _.
Arguments canHandle {W} _ _ _.
Arguments handle {W} _ _ _.
Arguments handlers {W} _.
Arguments world {W} _.
Arguments logged {W} _.
Arguments eventLoop {W} _.
Arguments new {W} _.
Arguments withWorld {W} _ _.
Arguments withEventLoop {W} _ _.
Arguments logLine {W} _ _.
Arguments onWorld {W A} _ _.
Arguments subscribe {W} _ _.
Arguments filterHandlers {W} _ _ _.
Arguments applicableHandlers {W} _ _.
Arguments start {W} _ _ _.
Arguments startAll {W} _ _ _.
Arguments resume {W} _ _ _.
Arguments finish {W} _ _ _ _.
Arguments finishInOrder {W} _ _ _.
Arguments settle {W} _ _ _ _.
Arguments allSettled {W} _ _ _.
Arguments processEvent {W} _ _.
Arguments publish {W} _ _.

End InMemoryEventBus.

(* ===================================================================== *)
(** * TaskService ([src/services/task-service.ts]) *)
(* ===================================================================== *)

Module TaskService.

Import PostgreSQLEventStore.

(** The argument of [createTask]. *)
Record CreateTaskData : Type := {
  title : string;
  description : option string;
  priority : option TaskPriority;
  createdBy : option string
}.

(** The argument of [completeTask]. *)
Record CompleteTaskData : Type := {
  completedBy : option string;
  completionNote : option string
}.

(** The argument of [cancelTask]. *)
Record CancelTaskData : Type := {
  reason : option string;
  cancelledBy : option string
}.

Section Service.

Variable W : Type.

(** The service acts on the table behind its repository and on its bus. *)
Definition State : Type := (Table * InMemoryEventBus.t W)%type.

(** [createTask(data)]: [createNew], [save], [publish], then the id. *)
Definition createTask (data : CreateTaskData)
    (c : TaskAggregate.Construction) (env : Env) : Method State string :=
  tryCatch
    (fun s =>
       match TaskAggregate.createNew
               (title data) (description data)
               (Some (match priority data with Some p => p | None => MEDIUM end))
               (createdBy data) c env with
       | Thrown e => (Thrown e, s)
       | Returned task =>
           let uncommittedEvents := AggregateRoot.getUncommittedEvents task in
           match EventSourcedTaskRepository.save (task, fst s) with
           | (Thrown e, (_, table)) => (Thrown e, (table, snd s))
           | (Returned _, (task', table)) =>
               match InMemoryEventBus.publish uncommittedEvents (snd s) with
               | (Thrown e, bus) => (Thrown e, (table, bus))
               | (Returned _, bus) =>
                   (Returned (AggregateRoot.id task'), (table, bus))
               end
           end
       end)
    (fun error => throw error).

(** [completeTask(taskId, data)]: [getById], [complete], [save], [publish]. *)
Definition completeTask (taskId : string) (data : CompleteTaskData)
    (c : TaskAggregate.Construction) (env : Env) : Method State unit :=
  tryCatch
    (fun s =>
       match EventSourcedTaskRepository.getById taskId c (fst s) with
       | (Thrown e, table) => (Thrown e, (table, snd s))
       | (Returned task, table) =>
           match TaskAggregate.complete (completedBy data) (completionNote data)
                                        env task with
           | (Thrown e, _) => (Thrown e, (table, snd s))
           | (Returned _, task1) =>
               let uncommittedEvents := AggregateRoot.getUncommittedEvents task1 in
               match EventSourcedTaskRepository.save (task1, table) with
               | (Thrown e, (_, table')) => (Thrown e, (table', snd s))
               | (Returned _, (_, table')) =>
                   match InMemoryEventBus.publish uncommittedEvents (snd s) with
                   | (Thrown e, bus) => (Thrown e, (table', bus))
                   | (Returned _, bus) => (Returned tt, (table', bus))
                   end
               end
           end
       end)
    (fun error => throw error).

(** [cancelTask(taskId, data)]: [getById], [cancel], [save], [publish]. *)
Definition cancelTask (taskId : string) (data : CancelTaskData)
    (c : TaskAggregate.Construction) (env : Env) : Method State unit :=
  tryCatch
    (fun s =>
       match EventSourcedTaskRepository.getById taskId c (fst s) with
       | (Thrown e, table) => (Thrown e, (table, snd s))
       | (Returned task, table) =>
           match TaskAggregate.cancel (reason data) (cancelledBy data) env task with
           | (Thrown e, _) => (Thrown e, (table, snd s))
           | (Returned _, task1) =>
               let uncommittedEvents := AggregateRoot.getUncommittedEvents task1 in
               match EventSourcedTaskRepository.save (task1, table) with
               | (Thrown e, (_, table')) => (Thrown e, (table', snd s))
               | (Returned _, (_, table')) =>
                   match InMemoryEventBus.publish uncommittedEvents (snd s) with
                   | (Thrown e, bus) => (Thrown e, (table', bus))
                   | (Returned _, bus) => (Returned tt, (table', bus))
                   end
               end
           end
       end)
    (fun error => throw error).

(** [updateTask(taskId, updates, updatedBy)]: [getById], [update], and, when
    the buffer is not empty, [save] and [publish]. *)
Definition updateTask (taskId : string) (updates : TaskAggregate.Updates)
    (updatedBy : option string)
    (c : TaskAggregate.Construction) (env : Env) : Method State unit :=
  tryCatch
    (fun s =>
       match EventSourcedTaskRepository.getById taskId c (fst s) with
       | (Thrown e, table) => (Thrown e, (table, snd s))
       | (Returned task, table) =>
           match TaskAggregate.update updates updatedBy env task with
           | (Thrown e, _) => (Thrown e, (table, snd s))
           | (Returned _, task1) =>
               let uncommittedEvents := AggregateRoot.getUncommittedEvents task1 in
               if (0 <? List.length uncommittedEvents)%nat then
                 match EventSourcedTaskRepository.save (task1, table) with
                 | (Thrown e, (_, table')) => (Thrown e, (table', snd s))
                 | (Returned _, (_, table')) =>
                     match InMemoryEventBus.publish uncommittedEvents (snd s) with
                     | (Thrown e, bus) => (Thrown e, (table', bus))
                     | (Returned _, bus) => (Returned tt, (table', bus))
                     end
                 end
               else
                 (Returned tt, (table, snd s))
           end
       end)
    (fun error => throw error).

(** [taskExists(taskId)]. *)
Definition taskExists (taskId : string) : Method State bool :=
  tryCatch (onFst (EventSourcedTaskRepository.exists_ taskId))
           (fun error => throw error).

End Service.

Arguments createTask {W} _ _ _ _.
Arguments completeTask {W} _ _ _ _ _.
Arguments cancelTask {W} _ _ _ _ _.
Arguments updateTask {W} _ _ _ _ _ _.
Arguments taskExists {W} _ _.

End TaskService.

(* ===================================================================== *)
(** * Live mutations as data *)
(* ===================================================================== *)

(** One call of a mutation method on an existing aggregate, with what the
    call reads from the environment. *)
Inductive Mutation : Type :=
| Complete (completedBy completionNote : option string) (env : Env)
| Cancel (reason cancelledBy : option string) (env : Env)
| Update (updates : TaskAggregate.Updates) (updatedBy : option string) (env : Env).

Definition mutate (m : Mutation) : Method TaskAggregate.t unit :=
  match m with
  | Complete completedBy completionNote env =>
      TaskAggregate.complete completedBy completionNote env
  | Cancel reason cancelledBy env =>
      TaskAggregate.cancel reason cancelledBy env
  | Update updates updatedBy env =>
      TaskAggregate.update updates updatedBy env
  end.

(** The calls are made one after the other on the same object; a call that
    throws is caught by the caller, who goes on with the next one. *)
Definition mutateAll (ms : list Mutation) (task : TaskAggregate.t) : TaskAggregate.t :=
  fold_left (fun this m => snd (mutate m this)) ms task.

(** [that] replays the buffer of [this]: folding the uncommitted events of
    [this] into [that] succeeds and yields the entity of [this]. *)
Definition Replays (that this : TaskAggregate.t) : Prop :=
  exists replayed,
    AggregateRoot.loadFromHistory (AggregateRoot.getUncommittedEvents this) that
    = (Returned tt, replayed)
    /\ TaskAggregate.toEntity replayed = TaskAggregate.toEntity this.

(** A valid creation input: the title is not blank and at most 255 code
    units long, the description, when there is one, at most 1000. *)
Definition validCreation (data : TaskService.CreateTaskData) : bool :=
  negb (String.eqb (TaskService.title data) "")
  && negb (String.length (Js.trim (TaskService.title data)) =? 0)%nat
  && (String.length (TaskService.title data) <=? 255)%nat
  && match TaskService.description data with
     | Some d => (String.length d <=? 1000)%nat
     | None => true
     end.

(** The checks [update] makes on its argument before it looks for changes. *)
Definition passesValidation (updates : TaskAggregate.Updates) : bool :=
  match TaskAggregate.newTitle updates with
  | Some s =>
      negb (String.eqb s "") && negb (String.length (Js.trim s) =? 0)%nat
      && (String.length s <=? 255)%nat
  | None => true
  end
  && match TaskAggregate.newDescription updates with
     | Some d => (String.length d <=? 1000)%nat
     | None => true
     end.

(** Every supplied field equals, once trimmed, the one the aggregate holds. *)
Definition identicalToState (updates : TaskAggregate.Updates)
    (this : TaskAggregate.t) : Prop :=
  (forall s, TaskAggregate.newTitle updates = Some s ->
             Js.trim s = TaskAggregate.title this)
  /\ (forall d, TaskAggregate.newDescription updates = Some d ->
                Some (Js.trim d) = TaskAggregate.description this)
  /\ (forall p, TaskAggregate.newPriority updates = Some p ->
                p = TaskAggregate.priority this).

(** A string of [n] spaces. *)
Definition spaces (n : nat) : string :=
  string_of_list_ascii (repeat " "%char n).

(* ===================================================================== *)
(** * Sample data *)
(* ===================================================================== *)

Module Sample.

Definition construction : TaskAggregate.Construction :=
  {| TaskAggregate.freshId := "7d3c1f9e-0000-4000-8000-000000000001";
     TaskAggregate.createdAtInit := 1700000000000;
     TaskAggregate.updatedAtInit := 1700000000000 |}.

Definition reconstruction : TaskAggregate.Construction :=
  {| TaskAggregate.freshId := "7d3c1f9e-0000-4000-8000-00000000000f";
     TaskAggregate.createdAtInit := 1700000000900;
     TaskAggregate.updatedAtInit := 1700000000900 |}.

Definition env1 : Env :=
  {| uuid := "e0000000-0000-4000-8000-000000000001"; now := 1700000000001 |}.

Definition env2 : Env :=
  {| uuid := "e0000000-0000-4000-8000-000000000002"; now := 1700000000002 |}.

Definition env3 : Env :=
  {| uuid := "e0000000-0000-4000-8000-000000000003"; now := 1700000000003 |}.

(** The aggregate [TaskAggregate.createNew('A')] returns. *)
Definition created : TaskAggregate.t :=
  {| TaskAggregate.root :=
       {| AggregateRoot._id := "7d3c1f9e-0000-4000-8000-000000000001";
          AggregateRoot._version := 0;
          AggregateRoot._uncommittedEvents :=
            [ {| id := "e0000000-0000-4000-8000-000000000001";
                 aggregateId := "7d3c1f9e-0000-4000-8000-000000000001";
                 version := 1;
                 timestamp := 1700000000001;
                 payload := TaskCreated "A" None MEDIUM None;
                 metadata := Some {| source := "TaskAggregate.createNew";
                                     metadataTimestamp := 1700000000001 |} |} ] |};
     TaskAggregate._title := "A";
     TaskAggregate._description := None;
     TaskAggregate._priority := MEDIUM;
     TaskAggregate._status := PENDING;
     TaskAggregate._createdAt := 1700000000001;
     TaskAggregate._updatedAt := 1700000000001;
     TaskAggregate._completedAt := None;
     TaskAggregate._cancelledAt := None |}.

Definition data : TaskService.CreateTaskData :=
  {| TaskService.title := "A";
     TaskService.description := None;
     TaskService.priority := None;
     TaskService.createdBy := None |}.

Definition onlyTitle (s : string) : TaskAggregate.Updates :=
  {| TaskAggregate.newTitle := Some s;
     TaskAggregate.newDescription := None;
     TaskAggregate.newPriority := None |}.

(** [created] after [cancel()]: a Cancelled aggregate. *)
Definition cancelled : TaskAggregate.t :=
  snd (TaskAggregate.cancel None None env2 created).

(** The current title followed by 255 spaces: it trims to the current
    title and is 256 code units long. *)
Definition paddedTitle : string := "A" ++ spaces 255.

(** A title of 300 code units. *)
Definition longTitle : string := string_of_list_ascii (repeat "B"%char 300).

(** The current title, unchanged, together with a new priority. *)
Definition sameTitleNewPriority : TaskAggregate.Updates :=
  {| TaskAggregate.newTitle := Some "A";
     TaskAggregate.newDescription := None;
     TaskAggregate.newPriority := Some HIGH |}.

(** The creation event in the buffer of [created]. *)
Definition creationEvent : DomainEvent :=
  {| id := "e0000000-0000-4000-8000-000000000001";
     aggregateId := "7d3c1f9e-0000-4000-8000-000000000001";
     version := 1;
     timestamp := 1700000000001;
     payload := TaskCreated "A" None MEDIUM None;
     metadata := Some {| source := "TaskAggregate.createNew";
                         metadataTimestamp := 1700000000001 |} |}.

(** An event that names another aggregate. *)
Definition foreignEvent : DomainEvent :=
  {| id := "e0000000-0000-4000-8000-000000000009";
     aggregateId := "7d3c1f9e-0000-4000-8000-000000000002";
     version := 1;
     timestamp := 1700000000009;
     payload := TaskCompleted None None;
     metadata := None |}.

(** The table after the creation event was stored at version 1. *)
Definition tableWithOne : PostgreSQLEventStore.Table :=
  [PostgreSQLEventStore.rowOf creationEvent 1].

(** An event of a kind no handler below accepts. *)
Definition archivedEvent : DomainEvent :=
  {| id := "e0000000-0000-4000-8000-00000000000a";
     aggregateId := "7d3c1f9e-0000-4000-8000-000000000001";
     version := 2;
     timestamp := 1700000000010;
     payload := OtherEvent "TaskArchived";
     metadata := None |}.

(** A handler of creations and completions that notes the event and
    rejects. *)
Definition failingHandler : InMemoryEventBus.EventHandler (list string) :=
  {| InMemoryEventBus.handlerName := "FailingHandler";
     InMemoryEventBus.canHandle :=
       fun eventType => ret (String.eqb eventType "TaskCreated"
                             || String.eqb eventType "TaskCompleted");
     InMemoryEventBus.handle :=
       fun event seen =>
         ((seen ++ [("failing " ++ id event)%string])%list,
          InMemoryEventBus.Rejected (PlainError "boom")) |}.

(** A handler of creation events that notes the event. *)
Definition projection : InMemoryEventBus.EventHandler (list string) :=
  {| InMemoryEventBus.handlerName := "TaskProjection";
     InMemoryEventBus.canHandle :=
       fun eventType => ret (String.eqb eventType "TaskCreated");
     InMemoryEventBus.handle :=
       fun event seen =>
         ((seen ++ [("projection " ++ id event)%string])%list,
          InMemoryEventBus.Resolved) |}.

(** A handler of creation events that awaits once: it notes the event,
    awaits, and notes the event again when it is resumed. *)
Definition slowProjection : InMemoryEventBus.EventHandler (list string) :=
  {| InMemoryEventBus.handlerName := "SlowProjection";
     InMemoryEventBus.canHandle :=
       fun eventType => ret (String.eqb eventType "TaskCreated");
     InMemoryEventBus.handle :=
       fun event seen =>
         ((seen ++ [("slow " ++ id event)%string])%list,
          InMemoryEventBus.Pending
            (fun seen => (seen ++ [("slow again " ++ id event)%string])%list)
            (fun _ => InMemoryEventBus.Resolved)) |}.

(** A handler of creation events whose [canHandle] throws on a type that is
    none of the four task events. *)
Definition strictHandler : InMemoryEventBus.EventHandler (list string) :=
  {| InMemoryEventBus.handlerName := "StrictHandler";
     InMemoryEventBus.canHandle :=
       fun eventType =>
         if String.eqb eventType "TaskCreated" then ret true
         else if String.eqb eventType "TaskCompleted"
                 || String.eqb eventType "TaskCancelled"
                 || String.eqb eventType "TaskUpdated" then ret false
         else throw (PlainError ("Unknown event type: " ++ eventType));
     InMemoryEventBus.handle :=
       fun event seen =>
         ((seen ++ [("strict " ++ id event)%string])%list,
          InMemoryEventBus.Resolved) |}.

(** The bus after [subscribe(failingHandler); subscribe(projection)]. *)
Definition bus : InMemoryEventBus.t (list string) :=
  snd (InMemoryEventBus.subscribe projection
         (snd (InMemoryEventBus.subscribe failingHandler
                 (InMemoryEventBus.new [])))).

(** [bus] after [subscribe(strictHandler)]. *)
Definition strictBus : InMemoryEventBus.t (list string) :=
  snd (InMemoryEventBus.subscribe strictHandler bus).

(** The bus after [subscribe(slowProjection); subscribe(projection)], on an
    event loop that first lets the second handler write its line and then
    resumes the first one twice. *)
Definition slowBus : InMemoryEventBus.t (list string) :=
  InMemoryEventBus.withEventLoop [1; 0; 0]%nat
    (snd (InMemoryEventBus.subscribe projection
            (snd (InMemoryEventBus.subscribe slowProjection
                    (InMemoryEventBus.new []))))).

(** Calls made on [created]: a change of title, a second completion attempt
    after a completion, and a late cancellation. *)
Definition calls : list Mutation :=
  [ Update (onlyTitle "  B  ") None env2;
    Complete (Some "ann") None env3;
    Complete None None env3;
    Cancel None None env3 ].

(** A history whose second event is of an unknown kind. *)
Definition brokenHistory : list DomainEvent :=
  [creationEvent; archivedEvent; foreignEvent].

(** The completion of the first aggregate, as an aggregate stamps it. *)
Definition completionEvent : DomainEvent :=
  {| id := "e0000000-0000-4000-8000-000000000002";
     aggregateId := "7d3c1f9e-0000-4000-8000-000000000001";
     version := 1;
     timestamp := 1700000000002;
     payload := TaskCompleted (Some "ann") None;
     metadata := Some {| source := "TaskAggregate.complete";
                         metadataTimestamp := 1700000000002 |} |}.

(** The table after the creation and the completion were stored. *)
Definition tableWithTwo : PostgreSQLEventStore.Table :=
  [PostgreSQLEventStore.rowOf creationEvent 1;
   PostgreSQLEventStore.rowOf completionEvent 2].

(** Creation data with a title of spaces only. *)
Definition blankData : TaskService.CreateTaskData :=
  {| TaskService.title := "   ";
     TaskService.description := None;
     TaskService.priority := Some HIGH;
     TaskService.createdBy := None |}.

Definition completeData : TaskService.CompleteTaskData :=
  {| TaskService.completedBy := Some "ann"; TaskService.completionNote := None |}.

Definition cancelData : TaskService.CancelTaskData :=
  {| TaskService.reason := Some "duplicate"; TaskService.cancelledBy := None |}.

(** The aggregate [getById] returns from [tableWithOne]. *)
Definition loaded : TaskAggregate.t :=
  snd (AggregateRoot.loadFromHistory
         [creationEvent]
         (TaskAggregate.new (Some "7d3c1f9e-0000-4000-8000-000000000001")
                            reconstruction)).

(** [loaded] after [complete()]: an aggregate replayed from the creation
    event, at version 1, with a completion in its buffer. *)
Definition completedAfterReplay : TaskAggregate.t :=
  snd (TaskAggregate.complete (Some "ann") None env2 loaded).

(** [completedAfterReplay] once its events were marked as committed. *)
Definition savedAfterReplay : TaskAggregate.t :=
  snd (AggregateRoot.markEventsAsCommitted completedAfterReplay).

(** The aggregate [getById] returns from [tableWithTwo]: a Completed task. *)
Definition finished : TaskAggregate.t :=
  snd (AggregateRoot.loadFromHistory
         (PostgreSQLEventStore.getEvents
            "7d3c1f9e-0000-4000-8000-000000000001" None tableWithTwo)
         (TaskAggregate.new (Some "7d3c1f9e-0000-4000-8000-000000000001")
                            reconstruction)).

End Sample.

(* ===================================================================== *)
(** * Vocabulary of the further properties *)
(* ===================================================================== *)

(** The event is of one of the four kinds [applyEvent] handles. *)
Definition knownKind (event : DomainEvent) : bool :=
  match payload event with
  | OtherEvent _ => false
  | _ => true
  end.

(** The completion and cancellation dates agree with the status. *)
Definition datesMatchStatus (this : TaskAggregate.t) : Prop :=
  match TaskAggregate.status this with
  | PENDING =>
      TaskAggregate.completedAt this = None /\ TaskAggregate.cancelledAt this = None
  | COMPLETED =>
      TaskAggregate.completedAt this <> None /\ TaskAggregate.cancelledAt this = None
  | CANCELLED =>
      TaskAggregate.completedAt this = None /\ TaskAggregate.cancelledAt this <> None
  end.

(** The limits of [createNew] and [update], on the state. *)
Definition withinLimits (this : TaskAggregate.t) : Prop :=
  (0 < String.length (TaskAggregate.title this) <= 255)%nat
  /\ match TaskAggregate.description this with
     | Some d => (String.length d <= 1000)%nat
     | None => True
     end.

(** Every buffered event names the aggregate and is of a known kind. *)
Definition bufferIsOwn (this : TaskAggregate.t) : Prop :=
  Forall (fun event =>
            aggregateId event = AggregateRoot.id this /\ knownKind event = true)
         (AggregateRoot.getUncommittedEvents this).

Definition isNotFoundError (e : Error) : bool :=
  match e with NotFoundError _ => true | _ => false end.

(** The stored history of an aggregate holds known kinds only. *)
Definition historyIsKnown (aggregate : string) (table : PostgreSQLEventStore.Table)
  : Prop :=
  Forall (fun row =>
            knownKind (PostgreSQLEventStore.eventOfRow row) = true)
         (filter (PostgreSQLEventStore.ofAggregate aggregate) table).

(** The sum of the counts of a breakdown. *)
Definition totalCount (entries : list (string * nat)) : nat :=
  fold_right (fun entry n => (snd entry + n)%nat) 0%nat entries.

(** The shape the three use cases on an existing task share: load, mutate,
    then save and publish; [updateTask] skips the last two on an empty
    buffer. *)
Definition loadMutateSave {W} (m : Mutation) (skipWhenEmpty : bool)
    (taskId : string) (c : TaskAggregate.Construction)
  : Method (TaskService.State W) unit :=
  fun s =>
    match EventSourcedTaskRepository.getById taskId c (fst s) with
    | (Thrown e, table) => (Thrown e, (table, snd s))
    | (Returned task, table) =>
        match mutate m task with
        | (Thrown e, _) => (Thrown e, (table, snd s))
        | (Returned _, task1) =>
            let uncommittedEvents := AggregateRoot.getUncommittedEvents task1 in
            if skipWhenEmpty && negb (0 <? List.length uncommittedEvents)%nat then
              (Returned tt, (table, snd s))
            else
              match EventSourcedTaskRepository.save (task1, table) with
              | (Thrown e, (_, table')) => (Thrown e, (table', snd s))
              | (Returned _, (_, table')) =>
                  match InMemoryEventBus.publish uncommittedEvents (snd s) with
                  | (Thrown e, bus) => (Thrown e, (table', bus))
                  | (Returned _, bus) => (Returned tt, (table', bus))
                  end
              end
        end
    end.

(** One call of [saveEvents]. *)
Record SaveCall : Type := {
  callAggregate : string;
  callEvents : list DomainEvent;
  callExpected : Z
}.

(** Every event of the call carries the aggregate id the call is made for. *)
Definition ownEvents (call : SaveCall) : Prop :=
  Forall (fun event => aggregateId event = callAggregate call) (callEvents call).

(** The table after the calls were made one after the other, the caller
    going on after a call that was refused. *)
Definition saveAll (calls : list SaveCall) (table : PostgreSQLEventStore.Table)
  : PostgreSQLEventStore.Table :=
  fold_left (fun table call =>
               snd (PostgreSQLEventStore.saveEvents
                      (callAggregate call) (callEvents call) (callExpected call)
                      table))
            calls table.

(** The [canHandle] of every registered handler answers, in whatever world,
    on the type of every event of the list. *)
Definition predicatesAnswer {W} (events : list DomainEvent)
    (bus : InMemoryEventBus.t W) : Prop :=
  forall handler event w,
    In handler (InMemoryEventBus.handlers bus) ->
    In event events ->
    isReturned (fst (InMemoryEventBus.canHandle handler (eventType event) w)) = true.

(** The handlers that accept [event] in the state [bus]: what the filter of
    [processEvent] returns there. *)
Definition accepting {W} (event : DomainEvent) (bus : InMemoryEventBus.t W)
  : list (InMemoryEventBus.EventHandler W) :=
  match fst (InMemoryEventBus.applicableHandlers event bus) with
  | Returned applicable => applicable
  | Thrown _ => []
  end.


(** The deliveries of [event] to the handlers of a list. *)
Definition deliveriesTo {W} (event : DomainEvent)
    (receivers : list (InMemoryEventBus.EventHandler W)) : list (string * string) :=
  map (fun handler => (InMemoryEventBus.handlerName handler, id event)) receivers.

(** Two states of a bus that differ in their logs at most. *)
Definition sameButLog {W} (bus1 bus2 : InMemoryEventBus.t W) : Prop :=
  InMemoryEventBus.handlers bus1 = InMemoryEventBus.handlers bus2
  /\ InMemoryEventBus.world bus1 = InMemoryEventBus.world bus2
  /\ InMemoryEventBus.eventLoop bus1 = InMemoryEventBus.eventLoop bus2.

(** A method of the bus that does not read the log and only adds lines to
    it: on two states that differ in their logs at most it has the same
    outcome, leaves two such states again, and adds the same lines. *)
Definition logOblivious {W A} (m : Method (InMemoryEventBus.t W) A) : Prop :=
  forall bus1 bus2,
    sameButLog bus1 bus2 ->
    exists lines,
      fst (m bus1) = fst (m bus2)
      /\ sameButLog (snd (m bus1)) (snd (m bus2))
      /\ InMemoryEventBus.logged (snd (m bus1))
         = (InMemoryEventBus.logged bus1 ++ lines)%list
      /\ InMemoryEventBus.logged (snd (m bus2))
         = (InMemoryEventBus.logged bus2 ++ lines)%list.

(** Two methods of the bus that, on two states that differ in their logs
    at most, have the same outcome, leave two such states again, and add
    lines that record the same deliveries in the same order. *)
Definition deliversAlike {W A} (m1 m2 : Method (InMemoryEventBus.t W) A) : Prop :=
  forall bus1 bus2,
    sameButLog bus1 bus2 ->
    exists lines1 lines2,
      fst (m1 bus1) = fst (m2 bus2)
      /\ sameButLog (snd (m1 bus1)) (snd (m2 bus2))
      /\ InMemoryEventBus.logged (snd (m1 bus1))
         = (InMemoryEventBus.logged bus1 ++ lines1)%list
      /\ InMemoryEventBus.logged (snd (m2 bus2))
         = (InMemoryEventBus.logged bus2 ++ lines2)%list
      /\ InMemoryEventBus.deliveries lines1 = InMemoryEventBus.deliveries lines2.

(** Splits the conjunctions that are written out and closes what an
    assumption or a congruence closes. *)
Ltac conjs :=
  repeat match goal with |- _ /\ _ => split end;
  try assumption; try congruence.

(* ===================================================================== *)
(** * The aggregate kernel *)
(* ===================================================================== *)

Lemma TaskStatus_eqb_eq (a b : TaskStatus) : TaskStatus_eqb a b = true <-> a = b.
Proof. destruct a, b; simpl; split; congruence. Qed.

Lemma TaskPriority_eqb_eq (a b : TaskPriority) : TaskPriority_eqb a b = true <-> a = b.
Proof. destruct a, b; simpl; split; congruence. Qed.

Lemma TaskPriority_eqb_refl (a : TaskPriority) : TaskPriority_eqb a a = true.
Proof. now destruct a. Qed.

Lemma created_is_createNew :
  TaskAggregate.createNew "A" None None None Sample.construction Sample.env1
  = Returned Sample.created.
Proof. vm_compute. reflexivity. Qed.

(** C6 -- terminal-state guard.  On an aggregate whose status is Completed or
    Cancelled, [complete] throws the validation error on the field [status]
    whose message names that status, and [cancel] throws a validation error
    on the field [status]; in both cases the aggregate after the call is the
    aggregate before it, so no event was raised and the state, the version
    and the uncommitted buffer are unchanged. *)
Theorem terminal_state_guard :
  forall (this : TaskAggregate.t) (a b : option string) (env : Env),
    TaskAggregate.status this = COMPLETED \/ TaskAggregate.status this = CANCELLED ->
    TaskAggregate.complete a b env this
    = (Thrown (ValidationError
                 ("Cannot complete task in "
                    ++ statusString (TaskAggregate.status this) ++ " status")
                 (Some "status")),
       this)
    /\ exists message,
         TaskAggregate.cancel a b env this
         = (Thrown (ValidationError message (Some "status")), this).
Proof.
  intros this a b env Hstatus.
  unfold TaskAggregate.complete, TaskAggregate.cancel, TaskAggregate.status in *.
  destruct Hstatus as [H | H]; rewrite H; simpl; split;
    try reflexivity; eexists; reflexivity.
Qed.

Lemma terminal_state_guard_witness :
  TaskAggregate.complete None None Sample.env3 Sample.cancelled
  = (Thrown (ValidationError "Cannot complete task in cancelled status" (Some "status")),
     Sample.cancelled)
  /\ exists message,
       TaskAggregate.cancel None None Sample.env3 Sample.cancelled
       = (Thrown (ValidationError message (Some "status")), Sample.cancelled).
Proof.
  apply (terminal_state_guard Sample.cancelled None None Sample.env3).
  right. vm_compute. reflexivity.
Defined.

Lemma passesValidation_title updates s :
  passesValidation updates = true ->
  TaskAggregate.newTitle updates = Some s ->
  (String.eqb s "" || (String.length (Js.trim s) =? 0)%nat) = false
  /\ (255 <? String.length s)%nat = false.
Proof.
  unfold passesValidation. intros H Hs. rewrite Hs in H.
  apply andb_prop in H as [H _].
  apply andb_prop in H as [H Hlen].
  apply andb_prop in H as [Hne Hblank].
  apply negb_true_iff in Hne, Hblank. rewrite Hne, Hblank. split; [reflexivity|].
  apply Nat.ltb_ge. now apply Nat.leb_le.
Qed.

Lemma passesValidation_description updates d :
  passesValidation updates = true ->
  TaskAggregate.newDescription updates = Some d ->
  (1000 <? String.length d)%nat = false.
Proof.
  unfold passesValidation. intros H Hd. rewrite Hd in H.
  apply andb_prop in H as [_ H].
  apply Nat.ltb_ge. now apply Nat.leb_le.
Qed.

(** [update] on a Pending aggregate with an argument that passes the checks:
    what is left of its body. *)
Lemma update_after_checks this updates updatedBy env :
  TaskAggregate.status this = PENDING ->
  passesValidation updates = true ->
  TaskAggregate.update updates updatedBy env this
  = if negb (TaskAggregate.hasChanges updates this) then (Returned tt, this)
    else AggregateRoot.raiseEvent
           {| id := uuid env;
              aggregateId := AggregateRoot.id this;
              version := AggregateRoot.version this + 1;
              timestamp := now env;
              payload := TaskUpdated
                           (option_map Js.trim (TaskAggregate.newTitle updates))
                           (option_map Js.trim (TaskAggregate.newDescription updates))
                           (TaskAggregate.newPriority updates)
                           updatedBy;
              metadata := TaskAggregate.metadataOf "TaskAggregate.update" env |}
           this.
Proof.
  intros Hstatus Hvalid.
  unfold TaskAggregate.update, TaskAggregate.status in *. rewrite Hstatus. simpl.
  destruct (TaskAggregate.newTitle updates) as [s|] eqn:Ht.
  - destruct (passesValidation_title _ _ Hvalid Ht) as [H1 H2]. rewrite H1, H2.
    destruct (TaskAggregate.newDescription updates) as [d|] eqn:Hd.
    + rewrite (passesValidation_description _ _ Hvalid Hd). reflexivity.
    + reflexivity.
  - destruct (TaskAggregate.newDescription updates) as [d|] eqn:Hd.
    + rewrite (passesValidation_description _ _ Hvalid Hd). reflexivity.
    + reflexivity.
Qed.

Lemma identical_hasChanges updates this :
  identicalToState updates this -> TaskAggregate.hasChanges updates this = false.
Proof.
  intros (Ht & Hd & Hp).
  unfold TaskAggregate.hasChanges, TaskAggregate.titleChanges,
    TaskAggregate.descriptionChanges, TaskAggregate.priorityChanges.
  destruct (TaskAggregate.newTitle updates) as [s|].
  - rewrite (Ht s eq_refl). unfold TaskAggregate.title. rewrite String.eqb_refl. simpl.
    destruct (TaskAggregate.newDescription updates) as [d|].
    + specialize (Hd d eq_refl). unfold TaskAggregate.description in Hd.
      rewrite <- Hd. simpl. rewrite String.eqb_refl. simpl.
      destruct (TaskAggregate.newPriority updates) as [p|]; [|reflexivity].
      rewrite (Hp p eq_refl). unfold TaskAggregate.priority.
      now rewrite TaskPriority_eqb_refl.
    + simpl. destruct (TaskAggregate.newPriority updates) as [p|]; [|reflexivity].
      rewrite (Hp p eq_refl). unfold TaskAggregate.priority.
      now rewrite TaskPriority_eqb_refl.
  - simpl. destruct (TaskAggregate.newDescription updates) as [d|].
    + specialize (Hd d eq_refl). unfold TaskAggregate.description in Hd.
      rewrite <- Hd. simpl. rewrite String.eqb_refl. simpl.
      destruct (TaskAggregate.newPriority updates) as [p|]; [|reflexivity].
      rewrite (Hp p eq_refl). unfold TaskAggregate.priority.
      now rewrite TaskPriority_eqb_refl.
    + simpl. destruct (TaskAggregate.newPriority updates) as [p|]; [|reflexivity].
      rewrite (Hp p eq_refl). unfold TaskAggregate.priority.
      now rewrite TaskPriority_eqb_refl.
Qed.

(** C7, as amended -- no-op update.  On a Pending aggregate, [update] with an
    argument that passes the field checks (a supplied title is not blank and
    at most 255 code units long before trimming, a supplied description at
    most 1000) and whose supplied fields all equal the current state once
    trimmed returns normally and leaves the aggregate as it was: no event is
    raised, and the version and every domain field are unchanged. *)
Theorem noop_update :
  forall (this : TaskAggregate.t) (updates : TaskAggregate.Updates)
         (updatedBy : option string) (env : Env),
    TaskAggregate.status this = PENDING ->
    passesValidation updates = true ->
    identicalToState updates this ->
    TaskAggregate.update updates updatedBy env this = (Returned tt, this).
Proof.
  intros this updates updatedBy env Hstatus Hvalid Hsame.
  rewrite update_after_checks by assumption.
  now rewrite identical_hasChanges.
Qed.

Lemma noop_update_witness :
  TaskAggregate.update (Sample.onlyTitle "  A ") None Sample.env2 Sample.created
  = (Returned tt, Sample.created).
Proof.
  apply noop_update.
  - reflexivity.
  - vm_compute. reflexivity.
  - repeat split; intros x Hx; inversion Hx; subst; vm_compute; reflexivity.
Defined.

(** C7, as stated, fails: the supplied title is the current title followed by
    255 spaces, so it is identical to the current state after trimming, and
    [update] throws the validation error on the length of the title. *)
Lemma noop_update_counterexample :
  TaskAggregate.status Sample.created = PENDING
  /\ identicalToState (Sample.onlyTitle Sample.paddedTitle) Sample.created
  /\ TaskAggregate.update (Sample.onlyTitle Sample.paddedTitle) None Sample.env2
                          Sample.created
     = (Thrown (ValidationError "Task title must be less than 255 characters"
                                (Some "title")),
        Sample.created).
Proof.
  split; [reflexivity|]. split.
  - repeat split; intros x Hx; inversion Hx; subst; vm_compute; reflexivity.
  - vm_compute. reflexivity.
Qed.

(** C8, as amended -- an update that changes something.  On a Pending
    aggregate, [update] with an argument that passes the field checks and of
    which at least one supplied field differs from the current state once
    trimmed returns normally after raising exactly one event, of type
    [TaskUpdated]; its payload carries every supplied field, trimmed, whether
    or not that field differs from the current state, and leaves unset every
    field that was not supplied; after the call a supplied field holds the
    supplied value and a field that was not supplied holds what it held. *)
Theorem update_raises_one_event :
  forall (this : TaskAggregate.t) (updates : TaskAggregate.Updates)
         (updatedBy : option string) (env : Env),
    TaskAggregate.status this = PENDING ->
    passesValidation updates = true ->
    TaskAggregate.hasChanges updates this = true ->
    exists (this' : TaskAggregate.t) (event : DomainEvent),
      TaskAggregate.update updates updatedBy env this = (Returned tt, this')
      /\ AggregateRoot.getUncommittedEvents this'
         = (AggregateRoot.getUncommittedEvents this ++ [event])%list
      /\ eventType event = "TaskUpdated"
      /\ aggregateId event = AggregateRoot.id this
      /\ payload event
         = TaskUpdated (option_map Js.trim (TaskAggregate.newTitle updates))
                       (option_map Js.trim (TaskAggregate.newDescription updates))
                       (TaskAggregate.newPriority updates)
                       updatedBy
      /\ TaskAggregate.title this'
         = match TaskAggregate.newTitle updates with
           | Some s => Js.trim s
           | None => TaskAggregate.title this
           end
      /\ TaskAggregate.description this'
         = match TaskAggregate.newDescription updates with
           | Some d => Some (Js.trim d)
           | None => TaskAggregate.description this
           end
      /\ TaskAggregate.priority this'
         = match TaskAggregate.newPriority updates with
           | Some p => p
           | None => TaskAggregate.priority this
           end
      /\ TaskAggregate.status this' = PENDING.
Proof.
  intros this updates updatedBy env Hstatus Hvalid Hchanges.
  rewrite update_after_checks by assumption. rewrite Hchanges. simpl.
  do 2 eexists. split; [reflexivity|].
  unfold TaskAggregate.title, TaskAggregate.description, TaskAggregate.priority,
    TaskAggregate.status in *.
  simpl. repeat split; try assumption.
  - now destruct (TaskAggregate.newTitle updates).
  - now destruct (TaskAggregate.newDescription updates).
Qed.

Lemma update_raises_one_event_witness :
  exists (this' : TaskAggregate.t) (event : DomainEvent),
    TaskAggregate.update Sample.sameTitleNewPriority None Sample.env2 Sample.created
    = (Returned tt, this')
    /\ AggregateRoot.getUncommittedEvents this'
       = (AggregateRoot.getUncommittedEvents Sample.created ++ [event])%list
    /\ eventType event = "TaskUpdated"
    /\ aggregateId event = AggregateRoot.id Sample.created
    /\ payload event = TaskUpdated (Some "A") None (Some HIGH) None
    /\ TaskAggregate.title this' = "A"
    /\ TaskAggregate.description this' = None
    /\ TaskAggregate.priority this' = HIGH
    /\ TaskAggregate.status this' = PENDING.
Proof.
  apply (update_raises_one_event Sample.created Sample.sameTitleNewPriority
                                 None Sample.env2).
  - reflexivity.
  - vm_compute. reflexivity.
  - vm_compute. reflexivity.
Defined.

(** C8, as stated, fails twice over.  With the current title supplied again
    next to a new priority, the title did not change and the one event
    raised carries it all the same.  With a supplied title of 300 code units,
    the title differs from the current one and [update] throws the validation
    error instead of raising an event. *)
Lemma update_raises_one_event_counterexample :
  (TaskAggregate.status Sample.created = PENDING
   /\ TaskAggregate.titleChanges Sample.sameTitleNewPriority Sample.created = false
   /\ map payload
          (AggregateRoot.getUncommittedEvents
             (snd (TaskAggregate.update Sample.sameTitleNewPriority None
                                        Sample.env2 Sample.created)))
      = [TaskCreated "A" None MEDIUM None;
         TaskUpdated (Some "A") None (Some HIGH) None])
  /\ (TaskAggregate.titleChanges (Sample.onlyTitle Sample.longTitle) Sample.created
      = true
      /\ TaskAggregate.update (Sample.onlyTitle Sample.longTitle) None Sample.env2
                              Sample.created
         = (Thrown (ValidationError "Task title must be less than 255 characters"
                                    (Some "title")),
            Sample.created)).
Proof. vm_compute. repeat split; reflexivity. Qed.

(* --------------------------------------------------------------------- *)
(** ** Version and replay *)
(* --------------------------------------------------------------------- *)

Section Kernel.

Implicit Types (this : TaskAggregate.t) (event : DomainEvent).

(** [applyEvent] throws on the unknown kinds only, whatever the state. *)
Lemma applyEvent_outcome event this :
  fst (TaskAggregate.applyEvent event this)
  = match payload event with
    | OtherEvent eventType => Thrown (PlainError ("Unknown event type: " ++ eventType))
    | _ => Returned tt
    end.
Proof. unfold TaskAggregate.applyEvent. now destruct (payload event). Qed.

(** [applyEvent] writes domain fields only. *)
Lemma applyEvent_root event this :
  TaskAggregate.root (snd (TaskAggregate.applyEvent event this))
  = TaskAggregate.root this.
Proof. unfold TaskAggregate.applyEvent. now destruct (payload event). Qed.

(** What [applyEvent] writes depends on the event and on the domain fields
    only. *)
Lemma applyEvent_entity event this that :
  TaskAggregate.toEntity this = TaskAggregate.toEntity that ->
  TaskAggregate.toEntity (snd (TaskAggregate.applyEvent event this))
  = TaskAggregate.toEntity (snd (TaskAggregate.applyEvent event that)).
Proof.
  unfold TaskAggregate.toEntity, AggregateRoot.id. simpl. intros H.
  injection H as Hid Ht Hd Hp Hs Hc Hu Hco Hca.
  unfold TaskAggregate.applyEvent.
  destruct (payload event) as [? ? ? ?|? ?|? ?|newTitle newDescription newPriority ?|?];
    simpl; try congruence.
  destruct newTitle, newDescription, newPriority; congruence.
Qed.

(** The live path: [raiseEvent] appends to the buffer and leaves the
    version where it was. *)
Lemma raiseEvent_version event this :
  AggregateRoot.version (snd (AggregateRoot.raiseEvent event this))
  = AggregateRoot.version this.
Proof.
  unfold AggregateRoot.raiseEvent, AggregateRoot.push, AggregateRoot.version,
    bind, modify. simpl.
  unfold TaskAggregate.applyEvent. now destruct (payload event).
Qed.

Lemma raiseEvent_buffer event this :
  AggregateRoot.getUncommittedEvents (snd (AggregateRoot.raiseEvent event this))
  = (AggregateRoot.getUncommittedEvents this ++ [event])%list.
Proof.
  unfold AggregateRoot.raiseEvent, AggregateRoot.push,
    AggregateRoot.getUncommittedEvents, bind, modify. simpl.
  unfold TaskAggregate.applyEvent. now destruct (payload event).
Qed.

Lemma raiseEvent_id event this :
  AggregateRoot.id (snd (AggregateRoot.raiseEvent event this))
  = AggregateRoot.id this.
Proof.
  unfold AggregateRoot.raiseEvent, AggregateRoot.push, AggregateRoot.id,
    bind, modify. simpl.
  unfold TaskAggregate.applyEvent. now destruct (payload event).
Qed.

(** A mutation method leaves the version where it was, whether it raises
    an event, returns without one, or throws. *)
Lemma mutate_version (m : Mutation) this :
  AggregateRoot.version (snd (mutate m this)) = AggregateRoot.version this.
Proof.
  destruct m as [a b env | a b env | updates by_ env]; simpl.
  - unfold TaskAggregate.complete.
    destruct (negb _); [reflexivity | apply raiseEvent_version].
  - unfold TaskAggregate.cancel.
    destruct (TaskStatus_eqb _ COMPLETED); [reflexivity|].
    destruct (TaskStatus_eqb _ CANCELLED); [reflexivity|].
    apply raiseEvent_version.
  - unfold TaskAggregate.update.
    repeat match goal with
           | |- context [if ?c then _ else _] => destruct c; try reflexivity
           end.
Qed.

Lemma mutateAll_version (ms : list Mutation) this :
  AggregateRoot.version (mutateAll ms this) = AggregateRoot.version this.
Proof.
  revert this. induction ms as [|m ms IH]; intros this; [reflexivity|].
  unfold mutateAll in *. simpl. rewrite IH. apply mutate_version.
Qed.

(** The replay path: [loadFromHistory] advances the version by one for
    each event it folds. *)
Lemma loadFromHistory_version (events : list DomainEvent) this this' :
  AggregateRoot.loadFromHistory events this = (Returned tt, this') ->
  AggregateRoot.version this'
  = AggregateRoot.version this + Z.of_nat (List.length events).
Proof.
  revert this. induction events as [|event events IH]; intros this H.
  - inversion H. simpl. lia.
  - unfold AggregateRoot.loadFromHistory in *. cbn [forEach] in H.
    unfold bind at 1 in H. unfold bind at 1 in H.
    destruct (AggregateRoot.applyEvent event this) as [[[]|e] this1] eqn:Happly;
      [|discriminate].
    cbn [AggregateRoot.incrementVersion modify] in H.
    apply IH in H. rewrite H.
    pose proof (applyEvent_root event this) as Hroot.
    change (AggregateRoot.applyEvent event this)
      with (TaskAggregate.applyEvent event this) in Happly.
    rewrite Happly in Hroot. simpl in Hroot.
    unfold AggregateRoot.version. simpl. rewrite Hroot.
    cbn [List.length]. lia.
Qed.

End Kernel.

Section Replay.

Implicit Types (this that : TaskAggregate.t) (event : DomainEvent).

Lemma forEach_app {S A} (body : A -> Method S unit) (xs ys : list A) (s : S) :
  forEach body (xs ++ ys)%list s
  = bind (forEach body xs) (fun _ => forEach body ys) s.
Proof.
  revert s. induction xs as [|x xs IH]; intros s; simpl.
  - reflexivity.
  - unfold bind in *. destruct (body x s) as [[u|e] s1]; [apply IH | reflexivity].
Qed.

Lemma raiseEvent_replays that this event :
  fst (TaskAggregate.applyEvent event this) = Returned tt ->
  Replays that this ->
  Replays that (snd (AggregateRoot.raiseEvent event this)).
Proof.
  intros Hknown (replayed & Hload & Hentity).
  unfold Replays. rewrite raiseEvent_buffer.
  unfold AggregateRoot.loadFromHistory in *.
  rewrite forEach_app. unfold bind at 1. rewrite Hload.
  cbn [forEach]. unfold bind at 1. unfold bind at 1.
  change (AggregateRoot.applyEvent event replayed)
    with (TaskAggregate.applyEvent event replayed).
  pose proof (applyEvent_outcome event replayed) as Hout.
  rewrite applyEvent_outcome in Hknown.
  destruct (TaskAggregate.applyEvent event replayed) as [o next] eqn:Happly.
  cbn [fst] in Hout. rewrite Hknown in Hout. subst o.
  cbn [AggregateRoot.incrementVersion modify ret bind].
  eexists. split; [reflexivity|].
  transitivity (TaskAggregate.toEntity next).
  { unfold TaskAggregate.toEntity, AggregateRoot.id. reflexivity. }
  replace next with (snd (TaskAggregate.applyEvent event replayed))
    by now rewrite Happly.
  apply applyEvent_entity. rewrite Hentity.
  unfold TaskAggregate.toEntity, AggregateRoot.id. reflexivity.
Qed.

(** A mutation method either leaves the aggregate as it was or raises one
    event of a kind [applyEvent] knows. *)
Lemma mutate_step (m : Mutation) this :
  snd (mutate m this) = this
  \/ exists event,
       fst (TaskAggregate.applyEvent event this) = Returned tt
       /\ snd (mutate m this) = snd (AggregateRoot.raiseEvent event this).
Proof.
  destruct m as [a b env | a b env | updates by_ env]; simpl.
  - unfold TaskAggregate.complete.
    destruct (negb _); [now left|]. right. eexists. split; [|reflexivity].
    reflexivity.
  - unfold TaskAggregate.cancel.
    destruct (TaskStatus_eqb _ COMPLETED); [now left|].
    destruct (TaskStatus_eqb _ CANCELLED); [now left|].
    right. eexists. split; [|reflexivity]. reflexivity.
  - unfold TaskAggregate.update.
    destruct (negb (TaskStatus_eqb _ PENDING)); [now left|].
    destruct (match TaskAggregate.newTitle updates with
              | Some s => _ | None => false end); [now left|].
    destruct (match TaskAggregate.newTitle updates with
              | Some s => _ | None => false end); [now left|].
    destruct (match TaskAggregate.newDescription updates with
              | Some s => _ | None => false end); [now left|].
    destruct (negb (TaskAggregate.hasChanges updates this)); [now left|].
    right. eexists. split; [|reflexivity]. reflexivity.
Qed.

Lemma mutateAll_replays that (ms : list Mutation) this :
  Replays that this -> Replays that (mutateAll ms this).
Proof.
  revert this. induction ms as [|m ms IH]; intros this H; [exact H|].
  unfold mutateAll in *. simpl. apply IH.
  destruct (mutate_step m this) as [Hsame | (event & Hknown & Hraise)].
  - now rewrite Hsame.
  - rewrite Hraise. now apply raiseEvent_replays.
Qed.

Lemma mutateAll_id (ms : list Mutation) this :
  AggregateRoot.id (mutateAll ms this) = AggregateRoot.id this.
Proof.
  revert this. induction ms as [|m ms IH]; intros this; [reflexivity|].
  unfold mutateAll in *. simpl. rewrite IH.
  destruct (mutate_step m this) as [Hsame | (event & _ & Hraise)].
  - now rewrite Hsame.
  - rewrite Hraise. apply raiseEvent_id.
Qed.

Lemma createNew_replays title description priority createdBy c env task c' :
  TaskAggregate.createNew title description priority createdBy c env
  = Returned task ->
  TaskAggregate.freshId c <> "" ->
  AggregateRoot.id task = TaskAggregate.freshId c
  /\ Replays (TaskAggregate.new (Some (TaskAggregate.freshId c)) c') task.
Proof.
  unfold TaskAggregate.createNew. intros H Hid.
  destruct (_ || _); [discriminate|].
  destruct (_ <? _)%nat; [discriminate|].
  destruct (match description with Some d => _ | None => false end);
    [discriminate|].
  simpl in H. injection H as <-. split; [reflexivity|].
  unfold Replays. simpl. eexists. split; [reflexivity|].
  unfold TaskAggregate.toEntity, AggregateRoot.id. simpl.
  apply String.eqb_neq in Hid. rewrite Hid. reflexivity.
Qed.

(** The domain fields survive replay: an aggregate made by [createNew] and
    then mutated live has an uncommitted buffer which, folded into a fresh
    aggregate of the same id, succeeds and yields the same entity; the
    version of the replayed aggregate is the number of events, that of the
    live one is still 0. *)
Lemma replay_reproduces_entity title description priority createdBy c env task
    (ms : list Mutation) c' :
  TaskAggregate.createNew title description priority createdBy c env
  = Returned task ->
  TaskAggregate.freshId c <> "" ->
  let live := mutateAll ms task in
  exists replayed,
    AggregateRoot.loadFromHistory (AggregateRoot.getUncommittedEvents live)
      (TaskAggregate.new (Some (AggregateRoot.id live)) c')
    = (Returned tt, replayed)
    /\ TaskAggregate.toEntity replayed = TaskAggregate.toEntity live
    /\ AggregateRoot.version replayed
       = Z.of_nat (List.length (AggregateRoot.getUncommittedEvents live))
    /\ AggregateRoot.version live = 0.
Proof.
  intros Hcreate Hid live.
  destruct (createNew_replays _ _ _ _ _ _ _ c' Hcreate Hid) as [Htask Hreplays].
  apply (mutateAll_replays _ ms) in Hreplays.
  destruct Hreplays as (replayed & Hload & Hentity).
  subst live. rewrite mutateAll_id, Htask.
  exists replayed. repeat split; try assumption.
  - apply loadFromHistory_version in Hload. rewrite Hload. reflexivity.
  - rewrite mutateAll_version.
    unfold TaskAggregate.createNew in Hcreate.
    destruct (_ || _); [discriminate|].
    destruct (_ <? _)%nat; [discriminate|].
    destruct (match description with Some d => _ | None => false end);
      [discriminate|].
    simpl in Hcreate. injection Hcreate as <-. reflexivity.
Qed.

End Replay.

(** C2 -- the version of an aggregate is meant to count the events applied to
    it.  Evaluated at [TaskAggregate.createNew('A')]: the creation event has
    been raised and applied (it is the one event of the buffer, and the
    title it carries is in the state), and the version is still 0. *)
Theorem version_lags_behind_raised_events :
  TaskAggregate.createNew "A" None None None Sample.construction Sample.env1
  = Returned Sample.created
  /\ map payload (AggregateRoot.getUncommittedEvents Sample.created)
     = [TaskCreated "A" None MEDIUM None]
  /\ TaskAggregate.title Sample.created = "A"
  /\ AggregateRoot.version Sample.created = 0.
Proof. vm_compute. repeat split; reflexivity. Qed.

(** C3 -- replay is meant to reproduce the live aggregate, version
    included.  Evaluated at [TaskAggregate.createNew('A')]: folding its event
    history into a fresh aggregate of the same id yields the same entity with
    version 1, where the live aggregate has version 0. *)
Theorem replay_version_differs_from_live :
  exists replayed,
    AggregateRoot.loadFromHistory
      (AggregateRoot.getUncommittedEvents Sample.created)
      (TaskAggregate.new (Some (AggregateRoot.id Sample.created)) Sample.reconstruction)
    = (Returned tt, replayed)
    /\ TaskAggregate.toEntity replayed = TaskAggregate.toEntity Sample.created
    /\ AggregateRoot.version replayed = 1
    /\ AggregateRoot.version Sample.created = 0.
Proof. eexists. vm_compute. repeat split; reflexivity. Qed.

(* ===================================================================== *)
(** * The event store *)
(* ===================================================================== *)

Section Store.

Import PostgreSQLEventStore.

Implicit Types (table : Table) (events : list DomainEvent).

(** An accepted insert appends the row, and the two unique constraints held
    for it. *)
Lemma insertEvent_returned event version table table' :
  insertEvent event version table = (Returned tt, table') ->
  table' = (table ++ [rowOf event version])%list
  /\ eventIdTaken (rowOf event version) table = false
  /\ aggregateVersionTaken (rowOf event version) table = false.
Proof.
  unfold insertEvent, throw.
  destruct (eventIdTaken _ table); [discriminate|].
  destruct (aggregateVersionTaken _ table); [discriminate|].
  intros H. injection H as <-. auto.
Qed.

(** A refused insert is a database error and writes nothing. *)
Lemma insertEvent_thrown event version table e table' :
  insertEvent event version table = (Thrown e, table') ->
  isConflictError e = false /\ table' = table.
Proof.
  unfold insertEvent, throw.
  destruct (eventIdTaken _ table); [intros H; injection H as <- <-; auto|].
  destruct (aggregateVersionTaken _ table); [intros H; injection H as <- <-; auto|].
  discriminate.
Qed.

Lemma insertLoop_thrown events i expectedVersion table e table' :
  insertLoop events i expectedVersion table = (Thrown e, table') ->
  isConflictError e = false.
Proof.
  revert i table. induction events as [|event events IH]; intros i table H.
  - discriminate.
  - cbn [insertLoop] in H. unfold bind in H.
    destruct (insertEvent event (expectedVersion + i + 1) table)
      as [[[]|e1] table1] eqn:Hinsert.
    + eapply IH, H.
    + injection H as <- <-. now apply insertEvent_thrown in Hinsert.
Qed.

Lemma insertLoop_returned events i expectedVersion table table' :
  insertLoop events i expectedVersion table = (Returned tt, table') ->
  table' = (table ++ stamped events i expectedVersion)%list.
Proof.
  revert i table. induction events as [|event events IH]; intros i table H.
  - injection H as <-. simpl. now rewrite app_nil_r.
  - cbn [insertLoop] in H. unfold bind in H.
    destruct (insertEvent event (expectedVersion + i + 1) table)
      as [[[]|e1] table1] eqn:Hinsert; [|discriminate].
    apply insertEvent_returned in Hinsert as (-> & _ & _).
    apply IH in H. rewrite H. cbn [stamped]. now rewrite <- app_assoc.
Qed.

Lemma length_zero_iff_nil {A} (l : list A) :
  (List.length l =? 0)%nat = true <-> l = [].
Proof. destruct l; simpl; split; congruence. Qed.

(** [saveEvents] on a batch that is not empty: the transaction. *)
Lemma saveEvents_nonempty aggregateId events expectedVersion table :
  events <> [] ->
  saveEvents aggregateId events expectedVersion table
  = if (getCurrentVersion aggregateId table =? expectedVersion)%Z then
      match insertLoop events 0 expectedVersion table with
      | (Returned u, table') => (Returned u, table')
      | (Thrown e, _) => (Thrown e, table)
      end
    else
      (Thrown (ConflictError
                 (conflictMessage expectedVersion
                                  (getCurrentVersion aggregateId table) aggregateId)),
       table).
Proof.
  intros Hne. unfold saveEvents.
  destruct (List.length events =? 0)%nat eqn:Hlen.
  - apply length_zero_iff_nil in Hlen. contradiction.
  - unfold transaction, bind, gets, throw.
    destruct (getCurrentVersion aggregateId table =? expectedVersion)%Z; reflexivity.
Qed.

(** C4 -- when [saveEvents] signals a concurrency conflict.  The outcome is
    a [ConflictError] exactly when the batch is not empty and the version
    stored for the aggregate differs from the expected one; an empty batch
    returns normally and writes nothing; and when the conflict is signalled
    its message gives the expected and the stored version, and the table is
    the table before the call: no event of the batch is stored. *)
Theorem saveEvents_conflict_iff :
  forall (aggregateId : string) (events : list DomainEvent) (expectedVersion : Z)
         (table : Table),
    let current := getCurrentVersion aggregateId table in
    let result := saveEvents aggregateId events expectedVersion table in
    ((exists message, fst result = Thrown (ConflictError message))
     <-> (events <> [] /\ current <> expectedVersion))
    /\ (events = [] -> result = (Returned tt, table))
    /\ ((exists message, fst result = Thrown (ConflictError message)) ->
        result
        = (Thrown (ConflictError
                     ("Concurrency conflict: Expected version "
                        ++ Js.numberToString expectedVersion
                        ++ ", but current version is "
                        ++ Js.numberToString current
                        ++ " for aggregate " ++ aggregateId)),
           table)).
Proof.
  intros aggregateId events expectedVersion table current result.
  assert (Hempty : events = [] -> result = (Returned tt, table)).
  { intros ->. reflexivity. }
  assert (Hconflict :
            (exists message, fst result = Thrown (ConflictError message)) ->
            events <> [] /\ current <> expectedVersion
            /\ result
               = (Thrown (ConflictError
                            (conflictMessage expectedVersion current aggregateId)),
                  table)).
  { intros [message H].
    destruct events as [|event events].
    - rewrite Hempty in H by reflexivity. discriminate.
    - subst result. rewrite saveEvents_nonempty in * by discriminate.
      fold current in H |- *.
      destruct (current =? expectedVersion)%Z eqn:Heq.
      + destruct (insertLoop (event :: events) 0 expectedVersion table)
          as [[u|e] table1] eqn:Hloop; [discriminate|].
        apply insertLoop_thrown in Hloop. simpl in H. injection H as ->.
        discriminate.
      + apply Z.eqb_neq in Heq. repeat split; [discriminate | assumption]. }
  split; [split|split].
  - intros H. now apply Hconflict in H.
  - intros [Hne Hdiff]. subst result. rewrite saveEvents_nonempty by assumption.
    fold current. apply Z.eqb_neq in Hdiff. rewrite Hdiff. eexists. reflexivity.
  - exact Hempty.
  - intros H. now apply Hconflict in H.
Qed.

Lemma saveEvents_conflict_iff_witness :
  saveEvents "7d3c1f9e-0000-4000-8000-000000000001" [Sample.foreignEvent] 0
             Sample.tableWithOne
  = (Thrown (ConflictError
               ("Concurrency conflict: Expected version " ++ Js.numberToString 0
                  ++ ", but current version is "
                  ++ Js.numberToString
                       (getCurrentVersion "7d3c1f9e-0000-4000-8000-000000000001"
                                          Sample.tableWithOne)
                  ++ " for aggregate " ++ "7d3c1f9e-0000-4000-8000-000000000001")),
     Sample.tableWithOne).
Proof.
  apply (saveEvents_conflict_iff "7d3c1f9e-0000-4000-8000-000000000001"
                                 [Sample.foreignEvent] 0 Sample.tableWithOne).
  apply (saveEvents_conflict_iff "7d3c1f9e-0000-4000-8000-000000000001"
                                 [Sample.foreignEvent] 0 Sample.tableWithOne).
  split; [discriminate|]. vm_compute. discriminate.
Defined.

(** The same conflict, evaluated: the stored version is 1, the expected
    one 0. *)
Example saveEvents_stale_version :
  saveEvents "7d3c1f9e-0000-4000-8000-000000000001" [Sample.foreignEvent] 0
             Sample.tableWithOne
  = (Thrown (ConflictError
               "Concurrency conflict: Expected version 0, but current version is 1 for aggregate 7d3c1f9e-0000-4000-8000-000000000001"),
     Sample.tableWithOne).
Proof. vm_compute. reflexivity. Qed.

End Store.

Section StoredVersions.

Import PostgreSQLEventStore.

Implicit Types (table : Table) (events : list DomainEvent).

Lemma upto_length start n : List.length (upto start n) = n.
Proof. revert start. induction n; intros; simpl; auto. Qed.

Lemma upto_app start n k :
  (upto start n ++ upto (start + Z.of_nat n) k)%list = upto start (n + k).
Proof.
  revert start. induction n as [|n IH]; intros start.
  - simpl. now rewrite Z.add_0_r.
  - cbn [upto Nat.add app]. f_equal. rewrite <- IH. do 2 f_equal. lia.
Qed.

Lemma fold_max_upto k a : fold_left Z.max (upto a k) (a - 1) = a + Z.of_nat k - 1.
Proof.
  revert a. induction k as [|k IH]; intros a.
  - simpl. lia.
  - cbn [upto fold_left]. replace (Z.max (a - 1) a) with (a + 1 - 1) by lia.
    rewrite IH. lia.
Qed.

(** On a table whose versions are contiguous, the stored version of an
    aggregate is the number of its rows. *)
Lemma getCurrentVersion_contiguous aggregateId table :
  contiguous table ->
  getCurrentVersion aggregateId table
  = Z.of_nat (List.length (versionsOf aggregateId table)).
Proof.
  intros H. unfold getCurrentVersion. fold (versionsOf aggregateId table).
  rewrite (H aggregateId) at 1.
  destruct (List.length (versionsOf aggregateId table)) as [|k]; [reflexivity|].
  cbn [upto sqlMax]. change 1 with (1 + 1 - 1) at 2. rewrite fold_max_upto. lia.
Qed.

(** The versions the loop stamps do not read [event.version]. *)
Lemma stamped_versions events i expectedVersion :
  map col_version (stamped events i expectedVersion)
  = upto (expectedVersion + i + 1) (List.length events).
Proof.
  revert i. induction events as [|event events IH]; intros i; [reflexivity|].
  cbn [stamped map List.length upto col_version rowOf]. f_equal.
  rewrite IH. f_equal. lia.
Qed.

Lemma stamped_filter other aggregate events i expectedVersion :
  Forall (fun event => aggregateId event = aggregate) events ->
  filter (ofAggregate other) (stamped events i expectedVersion)
  = if String.eqb aggregate other then stamped events i expectedVersion
    else [].
Proof.
  intros H. revert i. induction H as [|event events Hevent _ IH]; intros i.
  - now destruct (String.eqb aggregate other).
  - cbn [stamped filter]. unfold ofAggregate at 1. cbn [col_aggregate_id rowOf].
    rewrite Hevent, IH. now destruct (String.eqb aggregate other).
Qed.

Lemma versionsOf_app aggregateId table rows :
  versionsOf aggregateId (table ++ rows)%list
  = (versionsOf aggregateId table ++ versionsOf aggregateId rows)%list.
Proof. unfold versionsOf. now rewrite filter_app, map_app. Qed.

(** Appending the rows of a batch stamped from the stored version on keeps
    the versions contiguous, provided every event of the batch belongs to
    the aggregate whose version was checked. *)
Lemma contiguous_stamped aggregate events table :
  contiguous table ->
  Forall (fun event => aggregateId event = aggregate) events ->
  contiguous (table ++ stamped events 0 (getCurrentVersion aggregate table))%list.
Proof.
  intros Hc Hall other. rewrite versionsOf_app.
  unfold versionsOf at 2 4. rewrite (stamped_filter other aggregate) by assumption.
  destruct (String.eqb aggregate other) eqn:Heq.
  - apply String.eqb_eq in Heq. subst other.
    rewrite stamped_versions, getCurrentVersion_contiguous by assumption.
    rewrite length_app, upto_length, (Hc aggregate) at 1.
    rewrite Z.add_0_r, Z.add_comm. apply upto_app.
  - simpl. rewrite app_nil_r. apply Hc.
Qed.

Lemma aggregateVersionTaken_false row table :
  aggregateVersionTaken row table = false ->
  ~ In (col_aggregate_id row, col_version row)
       (map (fun r => (col_aggregate_id r, col_version r)) table).
Proof.
  intros Hfree Hin. apply in_map_iff in Hin as (r & Hr & Hin).
  injection Hr as Hid Hversion.
  assert (aggregateVersionTaken row table = true); [|congruence].
  apply existsb_exists. exists r. split; [assumption|].
  rewrite Hid, Hversion, String.eqb_refl, Z.eqb_refl. reflexivity.
Qed.

(** The constraint [UNIQUE(aggregate_id, version)] survives every accepted
    batch: [insertEvent] refuses a pair that is taken. *)
Lemma insertLoop_unique events i expectedVersion table table' :
  uniqueAggregateVersion table ->
  insertLoop events i expectedVersion table = (Returned tt, table') ->
  uniqueAggregateVersion table'.
Proof.
  revert i table. induction events as [|event events IH]; intros i table Hu H.
  - now injection H as <-.
  - cbn [insertLoop] in H. unfold bind in H.
    destruct (insertEvent event (expectedVersion + i + 1) table)
      as [[[]|e1] table1] eqn:Hinsert; [|discriminate].
    apply insertEvent_returned in Hinsert as (-> & _ & Hfree).
    refine (IH _ _ _ H). clear IH H.
    unfold uniqueAggregateVersion in *. rewrite map_app.
    apply NoDup_app; [assumption | repeat constructor; intros [] |].
    intros pair Hin [<-|[]]. simpl in Hin.
    now apply aggregateVersionTaken_false in Hfree.
Qed.

Lemma orderByVersion_upto rows start :
  map col_version rows = upto start (List.length rows) ->
  orderByVersion rows = rows.
Proof.
  revert start. induction rows as [|row rows IH]; intros start H; [reflexivity|].
  unfold orderByVersion in *. cbn [fold_right].
  cbn [map List.length upto] in H. injection H as Hrow Hrows.
  rewrite (IH _ Hrows).
  destruct rows as [|next rows]; [reflexivity|].
  cbn [insertByVersion]. cbn [map List.length upto] in Hrows.
  injection Hrows as Hnext _.
  destruct (Z.leb_spec (col_version row) (col_version next)); [reflexivity | lia].
Qed.

Lemma upto_lower_bound start n v : In v (upto start n) -> start <= v.
Proof.
  revert start. induction n as [|n IH]; intros start; simpl; [tauto|].
  intros [<-|H]; [lia|]. apply IH in H. lia.
Qed.

(** Reading back the history of an aggregate from a contiguous table gives
    the versions 1, ..., N in this order. *)
Lemma getEvents_contiguous aggregateId table :
  contiguous table ->
  map version (getEvents aggregateId None table)
  = upto 1 (List.length (versionsOf aggregateId table)).
Proof.
  intros Hc. unfold getEvents.
  assert (Hfilter :
            filter (fun r => ofAggregate aggregateId r && (0 <? col_version r)%Z) table
            = filter (ofAggregate aggregateId) table).
  { apply filter_ext_in_iff. intros r Hin.
    destruct (ofAggregate aggregateId r) eqn:Hr; [|reflexivity]. simpl.
    apply Z.ltb_lt.
    assert (In (col_version r) (versionsOf aggregateId table)) as Hv.
    { unfold versionsOf. apply in_map. apply filter_In. auto. }
    rewrite (Hc aggregateId) in Hv. apply upto_lower_bound in Hv. lia. }
  rewrite Hfilter.
  pose proof (Hc aggregateId) as Hversions. unfold versionsOf in Hversions |- *.
  rewrite length_map in Hversions |- *.
  rewrite (orderByVersion_upto _ 1 Hversions).
  rewrite map_map. simpl. exact Hversions.
Qed.

End StoredVersions.

Section Sequencing.

Import PostgreSQLEventStore.

Implicit Types (table : Table) (events : list DomainEvent).

(** Every accepted batch, whatever it holds: the expected version was the
    stored one, and the rows appended are the events in input order, the
    i-th under [expectedVersion + i + 1]. *)
Lemma saveEvents_returned aggregate events expectedVersion table table' :
  events <> [] ->
  saveEvents aggregate events expectedVersion table = (Returned tt, table') ->
  getCurrentVersion aggregate table = expectedVersion
  /\ insertLoop events 0 expectedVersion table = (Returned tt, table')
  /\ table' = (table ++ stamped events 0 expectedVersion)%list
  /\ map col_version (stamped events 0 expectedVersion)
     = upto (expectedVersion + 1) (List.length events).
Proof.
  intros Hne H. rewrite saveEvents_nonempty in H by assumption.
  destruct (getCurrentVersion aggregate table =? expectedVersion)%Z eqn:Heq;
    [|discriminate].
  apply Z.eqb_eq in Heq.
  destruct (insertLoop events 0 expectedVersion table) as [[[]|e] table1] eqn:Hloop;
    [|discriminate].
  injection H as <-. repeat split; try assumption.
  - now apply insertLoop_returned in Hloop.
  - rewrite stamped_versions. f_equal. lia.
Qed.

(** A failed [saveEvents] leaves the table as it was. *)
Lemma saveEvents_thrown aggregate events expectedVersion table e table' :
  saveEvents aggregate events expectedVersion table = (Thrown e, table') ->
  events <> [] /\ table' = table.
Proof.
  intros H. destruct events as [|event events]; [discriminate|].
  split; [discriminate|].
  rewrite saveEvents_nonempty in H by discriminate.
  destruct (_ =? _)%Z.
  - destruct (insertLoop _ _ _ _) as [[u|e1] table1]; [discriminate|].
    now injection H as _ <-.
  - now injection H as _ <-.
Qed.

(** An accepted batch of events that all carry the aggregate id of the
    call keeps the versions of every aggregate contiguous and the pairs of
    aggregate id and version distinct. *)
Lemma saveEvents_keeps_contiguous aggregate events expectedVersion table table' :
  contiguous table ->
  uniqueAggregateVersion table ->
  Forall (fun event => aggregateId event = aggregate) events ->
  events <> [] ->
  saveEvents aggregate events expectedVersion table = (Returned tt, table') ->
  contiguous table'
  /\ uniqueAggregateVersion table'
  /\ map version (getEvents aggregate None table')
     = upto 1 (List.length (versionsOf aggregate table) + List.length events).
Proof.
  intros Hc Hu Hall Hne Hsave.
  destruct (saveEvents_returned _ _ _ _ _ Hne Hsave)
    as (Hcurrent & Hloop & Htable & Hversions).
  assert (Hc' : contiguous table').
  { rewrite Htable, <- Hcurrent. now apply contiguous_stamped. }
  repeat split; try assumption.
  - eapply insertLoop_unique; eassumption.
  - rewrite getEvents_contiguous by assumption. f_equal.
    rewrite Htable, versionsOf_app, length_app. f_equal.
    unfold versionsOf at 1.
    rewrite (stamped_filter aggregate aggregate) by assumption.
    rewrite String.eqb_refl, length_map.
    rewrite <- (length_map col_version), stamped_versions. apply upto_length.
Qed.

(** Calls of [saveEvents] with events of the aggregate of the call, made on
    a table with contiguous versions, leave such a table, whichever of them
    are accepted. *)
Lemma saveAll_contiguous (calls : list SaveCall) table :
  Forall ownEvents calls ->
  contiguous table ->
  uniqueAggregateVersion table ->
  contiguous (saveAll calls table) /\ uniqueAggregateVersion (saveAll calls table).
Proof.
  unfold saveAll. intros Hown. revert table.
  induction Hown as [|call calls Hcall Hcalls IH]; intros table Hc Hu;
    cbn [fold_left]; [now split|].
  destruct (saveEvents (callAggregate call) (callEvents call) (callExpected call) table)
    as [[[]|e] table'] eqn:Hsave; cbn [snd].
  - destruct (callEvents call) as [|event events] eqn:Hevents.
    + injection Hsave as <-. now apply IH.
    + destruct (saveEvents_keeps_contiguous _ _ _ _ _ Hc Hu
                  ltac:(unfold ownEvents in Hcall; rewrite Hevents in Hcall;
                        exact Hcall)
                  ltac:(discriminate) Hsave) as (Hc' & Hu' & _).
      now apply IH.
  - apply saveEvents_thrown in Hsave as [_ ->]. now apply IH.
Qed.

(** C10, as amended -- the sequence numbers the store assigns.  For every
    batch that is not empty and that [saveEvents] accepts, whatever the
    table and whatever the events, the rows stored are the events in input
    order, the i-th (from 0) under the version [expectedVersion + i + 1],
    which the store computes without reading the [version] field of the
    event.  Consequently, when every event of a batch carries the aggregate
    id the call was made for, a table in which every aggregate's versions
    are 1, ..., N and which satisfies [UNIQUE(aggregate_id, version)] is
    again such a table after the call, and the history read back for the
    aggregate has the versions 1, ..., N; and after any sequence of such
    calls on the empty table, accepted or refused, every aggregate's stored
    history has the versions 1, ..., N and the pairs of aggregate id and
    version are distinct. *)
Theorem stored_versions_contiguous :
  (forall (aggregate : string) (events : list DomainEvent) (expectedVersion : Z)
          (table table' : Table),
      events <> [] ->
      saveEvents aggregate events expectedVersion table = (Returned tt, table') ->
      (table' = (table ++ stamped events 0 expectedVersion)%list
       /\ map col_version (stamped events 0 expectedVersion)
          = upto (expectedVersion + 1) (List.length events))
      /\ (Forall (fun event => aggregateId event = aggregate) events ->
          contiguous table ->
          uniqueAggregateVersion table ->
          contiguous table'
          /\ uniqueAggregateVersion table'
          /\ map version (getEvents aggregate None table')
             = upto 1 (List.length (versionsOf aggregate table)
                       + List.length events)))
  /\ (forall calls : list SaveCall,
         Forall ownEvents calls ->
         contiguous (saveAll calls [])
         /\ uniqueAggregateVersion (saveAll calls [])
         /\ forall aggregate,
              map version (getEvents aggregate None (saveAll calls []))
              = upto 1 (List.length (versionsOf aggregate (saveAll calls [])))).
Proof.
  split.
  - intros aggregate events expectedVersion table table' Hne Hsave. split.
    + destruct (saveEvents_returned _ _ _ _ _ Hne Hsave)
        as (_ & _ & Htable & Hversions).
      now split.
    + intros Hall Hc Hu. now apply saveEvents_keeps_contiguous with expectedVersion.
  - intros calls Hown.
    destruct (saveAll_contiguous calls [] Hown) as [Hc Hu].
    + intros other. reflexivity.
    + constructor.
    + repeat split; try assumption.
      intros aggregate. now apply getEvents_contiguous.
Qed.

Lemma stored_versions_contiguous_witness :
  Sample.tableWithOne = ([] ++ stamped [Sample.creationEvent] 0 0)%list
  /\ map col_version (stamped [Sample.creationEvent] 0 0) = upto (0 + 1) 1
  /\ contiguous Sample.tableWithOne
  /\ uniqueAggregateVersion Sample.tableWithOne
  /\ map version
         (getEvents "7d3c1f9e-0000-4000-8000-000000000001" None Sample.tableWithOne)
     = upto 1 (0 + 1).
Proof.
  assert (Hsave : saveEvents "7d3c1f9e-0000-4000-8000-000000000001"
                             [Sample.creationEvent] 0 []
                  = (Returned tt, Sample.tableWithOne))
    by (vm_compute; reflexivity).
  destruct (proj1 stored_versions_contiguous
              "7d3c1f9e-0000-4000-8000-000000000001" [Sample.creationEvent] 0 []
              Sample.tableWithOne ltac:(discriminate) Hsave)
    as [[Hrows Hversions] Hconsequence].
  destruct Hconsequence as (Hc & Hu & Hread).
  - repeat constructor.
  - intros other. reflexivity.
  - constructor.
  - repeat split; assumption.
Defined.

(** C10, as stated, fails on its consequence: a batch whose event names
    another aggregate is accepted against the version of the aggregate the
    call was made for, and the other aggregate's history then starts at 2. *)
Lemma stored_versions_contiguous_counterexample :
  saveEvents "7d3c1f9e-0000-4000-8000-000000000001" [Sample.creationEvent] 0 []
  = (Returned tt, Sample.tableWithOne)
  /\ saveEvents "7d3c1f9e-0000-4000-8000-000000000001" [Sample.foreignEvent] 1
                Sample.tableWithOne
     = (Returned tt, (Sample.tableWithOne ++ [rowOf Sample.foreignEvent 2])%list)
  /\ map version
         (getEvents "7d3c1f9e-0000-4000-8000-000000000002" None
                    (Sample.tableWithOne ++ [rowOf Sample.foreignEvent 2])%list)
     = [2].
Proof. vm_compute. repeat split; reflexivity. Qed.

End Sequencing.

(* ===================================================================== *)
(** * The repository *)
(* ===================================================================== *)

Section Repository.

Import PostgreSQLEventStore.

Implicit Types (task : TaskAggregate.t) (table : Table).

(** [save] on an aggregate with a buffer that is not empty: one call of
    [saveEvents], then the buffer is cleared if that call returned. *)
Lemma save_nonempty task table :
  AggregateRoot.getUncommittedEvents task <> [] ->
  EventSourcedTaskRepository.save (task, table)
  = match saveEvents (AggregateRoot.id task)
                     (AggregateRoot.getUncommittedEvents task)
                     (AggregateRoot.version task
                      - Z.of_nat (List.length (AggregateRoot.getUncommittedEvents task)))
                     table with
    | (Returned _, table') =>
        (Returned tt, (snd (AggregateRoot.markEventsAsCommitted task), table'))
    | (Thrown e, table') => (Thrown e, (task, table'))
    end.
Proof.
  intros Hne. unfold EventSourcedTaskRepository.save.
  unfold bind at 1. unfold gets at 1. cbn [fst].
  destruct (List.length (AggregateRoot.getUncommittedEvents task) =? 0)%nat eqn:Hlen.
  - apply length_zero_iff_nil in Hlen. contradiction.
  - unfold tryCatch, bind, gets, onSnd, onFst, throw. cbn [fst snd].
    destruct (saveEvents _ _ _ table) as [[u|e] table']; reflexivity.
Qed.

Lemma save_empty task table :
  AggregateRoot.getUncommittedEvents task = [] ->
  EventSourcedTaskRepository.save (task, table) = (Returned tt, (task, table)).
Proof.
  intros He. unfold EventSourcedTaskRepository.save, bind, gets. cbn [fst].
  rewrite He. reflexivity.
Qed.

(** C5 -- a conflict at [save].  When the call of [saveEvents] that [save]
    makes for the buffer of the aggregate throws a [ConflictError], [save]
    throws that same error, and the aggregate, its buffer included, and the
    table are what they were before the call; [save] made that one call and
    no other.  And whenever the buffer after [save] is not the buffer before
    it, [saveEvents] had returned normally, [save] returns normally, and the
    buffer is empty. *)
Theorem save_conflict_leaves_aggregate :
  forall (task : TaskAggregate.t) (table : Table),
    let events := AggregateRoot.getUncommittedEvents task in
    let expectedVersion :=
      AggregateRoot.version task - Z.of_nat (List.length events) in
    (forall message,
        fst (saveEvents (AggregateRoot.id task) events expectedVersion table)
        = Thrown (ConflictError message) ->
        EventSourcedTaskRepository.save (task, table)
        = (Thrown (ConflictError message), (task, table)))
    /\ (forall outcome task' table',
           EventSourcedTaskRepository.save (task, table)
           = (outcome, (task', table')) ->
           AggregateRoot.getUncommittedEvents task' <> events ->
           saveEvents (AggregateRoot.id task) events expectedVersion table
           = (Returned tt, table')
           /\ outcome = Returned tt
           /\ AggregateRoot.getUncommittedEvents task' = []).
Proof.
  intros task table events expectedVersion. split.
  - intros message H.
    destruct (saveEvents (AggregateRoot.id task) events expectedVersion table)
      as [o table'] eqn:Hsave.
    simpl in H. subst o.
    destruct (saveEvents_thrown _ _ _ _ _ _ Hsave) as [Hne ->].
    rewrite save_nonempty by assumption.
    fold events. fold expectedVersion. now rewrite Hsave.
  - intros outcome task' table' Hsave Hchanged.
    destruct events as [|event rest] eqn:Hevents.
    + rewrite save_empty in Hsave by assumption.
      injection Hsave as _ <- _. contradiction.
    + rewrite save_nonempty in Hsave by (fold events; rewrite Hevents; discriminate).
      fold events in Hsave. rewrite Hevents in Hsave. fold expectedVersion in Hsave.
      destruct (saveEvents (AggregateRoot.id task) (event :: rest) expectedVersion table)
        as [[[]|e] table1].
      * injection Hsave as <- <- <-. auto.
      * injection Hsave as _ <- _. fold events in Hchanged.
        rewrite Hevents in Hchanged. contradiction.
Qed.

Lemma save_conflict_leaves_aggregate_witness :
  EventSourcedTaskRepository.save (Sample.created, [])
  = (Thrown (ConflictError
               "Concurrency conflict: Expected version -1, but current version is 0 for aggregate 7d3c1f9e-0000-4000-8000-000000000001"),
     (Sample.created, [])).
Proof.
  apply (proj1 (save_conflict_leaves_aggregate Sample.created [])).
  vm_compute. reflexivity.
Defined.

End Repository.

(* ===================================================================== *)
(** * The event bus *)
(* ===================================================================== *)

Section Bus.

Import InMemoryEventBus.

Variable W : Type.

Implicit Types (bus : InMemoryEventBus.t W) (event : DomainEvent)
  (handler : EventHandler W) (arrows : list (InFlight W)).

Lemma deliveries_app (l1 l2 : list LogLine) :
  deliveries (l1 ++ l2) = (deliveries l1 ++ deliveries l2)%list.
Proof. unfold deliveries. apply flat_map_app. Qed.

Lemma pick_split {A} (position : nat) (l before after : list A) (x : A) :
  pick position l = Some (before, x, after) -> l = (before ++ x :: after)%list.
Proof.
  revert position before. induction l as [|a l IH]; intros position before H.
  - destruct position; discriminate.
  - destruct position as [|p]; simpl in H.
    + now injection H as <- <- <-.
    + destruct (pick p l) as [[[b y] c]|] eqn:Hp; [|discriminate].
      injection H as <- <- <-. simpl. f_equal. now apply IH with p.
Qed.

Lemma sameButLog_refl bus : sameButLog bus bus.
Proof. repeat split. Qed.

Lemma sameButLog_sym bus1 bus2 : sameButLog bus1 bus2 -> sameButLog bus2 bus1.
Proof. intros (H1 & H2 & H3). repeat split; congruence. Qed.

Lemma sameButLog_trans bus1 bus2 bus3 :
  sameButLog bus1 bus2 -> sameButLog bus2 bus3 -> sameButLog bus1 bus3.
Proof. intros (H1 & H2 & H3) (H4 & H5 & H6). repeat split; congruence. Qed.

(** ** Methods that do not read the log *)

Lemma logOblivious_ret {A} (a : A) : logOblivious (W := W) (ret a).
Proof.
  intros bus1 bus2 H. exists []. cbn. now rewrite !app_nil_r.
Qed.

Lemma logOblivious_bind {A B} (m : Method (InMemoryEventBus.t W) A)
    (k : A -> Method (InMemoryEventBus.t W) B) :
  logOblivious m -> (forall a, logOblivious (k a)) -> logOblivious (bind m k).
Proof.
  intros Hm Hk bus1 bus2 H.
  destruct (Hm bus1 bus2 H) as (lines1 & Ho & Hs & Hl1 & Hl2).
  unfold bind.
  destruct (m bus1) as [[a1|e1] s1], (m bus2) as [[a2|e2] s2];
    cbn [fst snd] in *; try discriminate.
  - injection Ho as <-.
    destruct (Hk a1 s1 s2 Hs) as (lines2 & Ho2 & Hs2 & Hl3 & Hl4).
    exists (lines1 ++ lines2)%list. rewrite Hl3, Hl4, Hl1, Hl2, !app_assoc.
    conjs.
  - exists lines1. conjs.
Qed.

Lemma logOblivious_logLine (line : LogLine) : logOblivious (W := W) (logLine line).
Proof.
  intros bus1 bus2 (H1 & H2 & H3). exists [line]. cbn. repeat split; assumption.
Qed.

Lemma logOblivious_onWorld {A} (m : Method W A) : logOblivious (onWorld m).
Proof.
  intros bus1 bus2 (H1 & H2 & H3). exists []. unfold onWorld. rewrite H2.
  destruct (m (world bus2)) as [o w]. cbn. rewrite !app_nil_r.
  repeat split; assumption.
Qed.

Lemma logOblivious_applicableHandlers event :
  logOblivious (W := W) (applicableHandlers event).
Proof.
  intros bus1 bus2 H. unfold applicableHandlers, bind, gets.
  destruct H as (H1 & H2 & H3). rewrite H1.
  apply (logOblivious_onWorld _ bus1 bus2). repeat split; assumption.
Qed.

Lemma logOblivious_start event handler : logOblivious (start event handler).
Proof.
  intros bus1 bus2 (H1 & H2 & H3). exists []. unfold start. rewrite H2.
  destruct (handle handler event (world bus2)) as [w promise]. cbn.
  rewrite !app_nil_r. repeat split; assumption.
Qed.

Lemma logOblivious_startAll event (applicable : list (EventHandler W)) :
  logOblivious (startAll event applicable).
Proof.
  induction applicable as [|handler rest IH]; cbn [startAll].
  - apply logOblivious_ret.
  - apply logOblivious_bind; [apply logOblivious_start|]. intros arrow.
    apply logOblivious_bind; [exact IH|]. intros others. apply logOblivious_ret.
Qed.

(** A step of the bus that cannot throw, as a method. *)
Lemma logOblivious_step (f g : InMemoryEventBus.t W -> InMemoryEventBus.t W) :
  logOblivious (fun bus => (Returned tt, f bus)) ->
  logOblivious (fun bus => (Returned tt, g bus)) ->
  logOblivious (fun bus => (Returned tt, g (f bus))).
Proof.
  intros Hf Hg bus1 bus2 H.
  destruct (Hf bus1 bus2 H) as (lines1 & _ & Hs & Hl1 & Hl2). cbn [fst snd] in *.
  destruct (Hg _ _ Hs) as (lines2 & _ & Hs2 & Hl3 & Hl4). cbn [fst snd] in *.
  exists (lines1 ++ lines2)%list. rewrite Hl3, Hl4, Hl1, Hl2, !app_assoc.
  conjs.
Qed.

Lemma logOblivious_withEventLoop (choices : list nat) :
  logOblivious (W := W) (fun bus => (Returned tt, withEventLoop choices bus)).
Proof.
  intros bus1 bus2 (H1 & H2 & H3). exists []. cbn. rewrite !app_nil_r.
  repeat split; assumption.
Qed.

Lemma logOblivious_line (line : LogLine) :
  logOblivious (W := W) (fun bus => (Returned tt, snd (logLine line bus))).
Proof.
  intros bus1 bus2 (H1 & H2 & H3). exists [line]. cbn. repeat split; assumption.
Qed.

Lemma logOblivious_finish event (name : string) (promise : Promise W) :
  logOblivious (fun bus => (Returned tt, finish event name promise bus)).
Proof.
  induction promise as [|error|act next IH]; cbn [finish].
  - apply logOblivious_line.
  - apply logOblivious_line.
  - intros bus1 bus2 H.
    assert (Hw : world bus1 = world bus2) by apply H.
    cbn [fst snd]. rewrite Hw.
    destruct (IH (world bus2) (withWorld (act (world bus2)) bus1)
                 (withWorld (act (world bus2)) bus2))
      as (lines & Ho & Hs & Hl1 & Hl2).
    { destruct H as (H1 & H2 & H3). repeat split; cbn; congruence. }
    exists lines. cbn [fst snd] in *. conjs.
Qed.

Lemma logOblivious_finishInOrder event arrows :
  logOblivious (fun bus => (Returned tt, finishInOrder event arrows bus)).
Proof.
  unfold finishInOrder. induction arrows as [|arrow arrows IH]; cbn [fold_left].
  - apply (logOblivious_ret tt).
  - apply (logOblivious_step
             (fun bus => finish event (fst arrow) (snd arrow) bus)
             (fun bus => fold_left
                           (fun bus arrow => finish event (fst arrow) (snd arrow) bus)
                           arrows bus)).
    + apply logOblivious_finish.
    + exact IH.
Qed.

Lemma logOblivious_resume event (arrow : InFlight W) bus1 bus2 :
  sameButLog bus1 bus2 ->
  exists lines,
    fst (resume event arrow bus1) = fst (resume event arrow bus2)
    /\ sameButLog (snd (resume event arrow bus1)) (snd (resume event arrow bus2))
    /\ logged (snd (resume event arrow bus1)) = (logged bus1 ++ lines)%list
    /\ logged (snd (resume event arrow bus2)) = (logged bus2 ++ lines)%list.
Proof.
  intros (H1 & H2 & H3). unfold resume.
  destruct (snd arrow) as [|error|act next]; cbn.
  - eexists [_]. repeat split; assumption || reflexivity.
  - eexists [_]. repeat split; assumption || reflexivity.
  - exists []. rewrite !app_nil_r, H2. repeat split; assumption || reflexivity.
Qed.

Lemma logOblivious_settle event (choices : list nat) arrows :
  logOblivious (fun bus => (Returned tt, settle event choices arrows bus)).
Proof.
  revert arrows. induction choices as [|position later IH]; intros arrows.
  - destruct arrows as [|arrow arrows]; cbn [settle].
    + apply logOblivious_withEventLoop.
    + apply (logOblivious_step (withEventLoop [])
                               (finishInOrder event (arrow :: arrows))).
      * apply logOblivious_withEventLoop.
      * apply logOblivious_finishInOrder.
  - destruct arrows as [|arrow arrows]; cbn [settle].
    + apply logOblivious_withEventLoop.
    + destruct (pick position (arrow :: arrows)) as [[[before chosen] after]|].
      * intros bus1 bus2 H.
        destruct (logOblivious_resume event chosen bus1 bus2 H)
          as (lines1 & Hr & Hs & Hl1 & Hl2).
        destruct (resume event chosen bus1) as [resumed1 s1],
                 (resume event chosen bus2) as [resumed2 s2].
        cbn [fst snd] in *. subst resumed2.
        destruct (IH (before ++ resumed1 ++ after)%list s1 s2 Hs)
          as (lines2 & _ & Hs2 & Hl3 & Hl4).
        cbn [fst snd] in *.
        exists (lines1 ++ lines2)%list. rewrite Hl3, Hl4, Hl1, Hl2, <- !app_assoc.
        conjs.
      * apply IH.
Qed.

Lemma logOblivious_allSettled event arrows : logOblivious (allSettled event arrows).
Proof.
  intros bus1 bus2 H. unfold allSettled.
  assert (Hloop : eventLoop bus1 = eventLoop bus2) by apply H.
  rewrite Hloop. apply (logOblivious_settle event (eventLoop bus2) arrows _ _ H).
Qed.

Lemma logOblivious_processEvent event : logOblivious (W := W) (processEvent event).
Proof.
  unfold processEvent.
  apply logOblivious_bind; [apply logOblivious_applicableHandlers|].
  intros applicable. destruct (List.length applicable =? 0)%nat.
  - apply logOblivious_logLine.
  - apply logOblivious_bind; [apply logOblivious_startAll|].
    intros handlerPromises. apply logOblivious_allSettled.
Qed.

Lemma logOblivious_forEach (events : list DomainEvent) :
  logOblivious (W := W) (forEach processEvent events).
Proof.
  induction events as [|event events IH]; cbn [forEach].
  - apply logOblivious_ret.
  - apply logOblivious_bind; [apply logOblivious_processEvent|]. intros _. exact IH.
Qed.



(** ** What the arrows deliver *)

(** An arrow that is resumed until it is done writes one line, under the
    name of its handler. *)
Lemma finish_spec event (name : string) (promise : Promise W) bus :
  exists line,
    handlers (finish event name promise bus) = handlers bus
    /\ logged (finish event name promise bus) = (logged bus ++ [line])%list
    /\ deliveries [line] = [(name, id event)].
Proof.
  revert bus. induction promise as [|error|act next IH]; intros bus; cbn [finish].
  - eexists. cbn. repeat split.
  - eexists. cbn. repeat split.
  - destruct (IH (world bus) (withWorld (act (world bus)) bus))
      as (line & Hh & Hl & Hd).
    exists line. rewrite Hh, Hl. repeat split. exact Hd.
Qed.

Lemma finishInOrder_spec event arrows bus :
  exists lines,
    handlers (finishInOrder event arrows bus) = handlers bus
    /\ logged (finishInOrder event arrows bus) = (logged bus ++ lines)%list
    /\ deliveries lines = map (fun arrow => (fst arrow, id event)) arrows.
Proof.
  unfold finishInOrder. revert bus.
  induction arrows as [|arrow arrows IH]; intros bus; cbn [fold_left map].
  - exists []. now rewrite app_nil_r.
  - destruct (finish_spec event (fst arrow) (snd arrow) bus) as (line & Hh & Hl & Hd).
    destruct (IH (finish event (fst arrow) (snd arrow) bus)) as (lines & Hh2 & Hl2 & Hd2).
    exists (line :: lines). rewrite Hh2, Hl2, Hh, Hl, <- app_assoc.
    repeat split. change (line :: lines) with ([line] ++ lines)%list.
    rewrite deliveries_app, Hd, Hd2. reflexivity.
Qed.

(** One resumption: either the arrow is still in flight and nothing was
    written, or it is done and has written its line. *)
Lemma resume_spec event (arrow : InFlight W) bus :
  exists lines,
    handlers (snd (resume event arrow bus)) = handlers bus
    /\ logged (snd (resume event arrow bus)) = (logged bus ++ lines)%list
    /\ (deliveries lines
          ++ map (fun a => (fst a, id event)) (fst (resume event arrow bus)))%list
       = [(fst arrow, id event)].
Proof.
  unfold resume. destruct (snd arrow) as [|error|act next]; cbn.
  - eexists [_]. repeat split.
  - eexists [_]. repeat split.
  - exists []. rewrite app_nil_r. repeat split.
Qed.

(** Whatever the event loop chooses, every arrow in flight writes its line,
    once. *)
Lemma settle_spec event (choices : list nat) arrows bus :
  exists lines,
    handlers (settle event choices arrows bus) = handlers bus
    /\ logged (settle event choices arrows bus) = (logged bus ++ lines)%list
    /\ Permutation (deliveries lines)
                   (map (fun arrow => (fst arrow, id event)) arrows).
Proof.
  revert arrows bus. induction choices as [|position later IH]; intros arrows bus.
  - destruct arrows as [|arrow arrows]; cbn [settle].
    + exists []. cbn. rewrite app_nil_r. repeat split. constructor.
    + destruct (finishInOrder_spec event (arrow :: arrows) (withEventLoop [] bus))
        as (lines & Hh & Hl & Hd).
      exists lines. rewrite Hh, Hl, Hd. repeat split. apply Permutation_refl.
  - destruct arrows as [|arrow arrows]; cbn [settle].
    + exists []. cbn. rewrite app_nil_r. repeat split. constructor.
    + destruct (pick position (arrow :: arrows)) as [[[before chosen] after]|] eqn:Hpick.
      * apply pick_split in Hpick. rewrite Hpick.
        destruct (resume_spec event chosen bus) as (lines1 & Hh1 & Hl1 & Hd1).
        destruct (resume event chosen bus) as [resumed bus1]. cbn [fst snd] in *.
        destruct (IH (before ++ resumed ++ after)%list bus1)
          as (lines2 & Hh2 & Hl2 & Hd2).
        exists (lines1 ++ lines2)%list.
        rewrite Hh2, Hl2, Hh1, Hl1, <- app_assoc. repeat split.
        rewrite deliveries_app.
        rewrite !map_app in Hd2. rewrite map_app. cbn [map].
        change ((fst chosen, id event)
                  :: map (fun arrow => (fst arrow, id event)) after)
          with ([(fst chosen, id event)]
                  ++ map (fun arrow => (fst arrow, id event)) after)%list.
        rewrite <- Hd1, <- app_assoc.
        eapply Permutation_trans; [apply Permutation_app_head, Hd2|].
        rewrite !app_assoc. apply Permutation_app_tail, Permutation_app_tail.
        apply Permutation_app_comm.
      * apply IH.
Qed.

Lemma startAll_spec event (applicable : list (EventHandler W)) bus :
  exists arrows bus',
    startAll event applicable bus = (Returned arrows, bus')
    /\ handlers bus' = handlers bus
    /\ logged bus' = logged bus
    /\ map (fun arrow => (fst arrow, id event)) arrows
       = deliveriesTo event applicable.
Proof.
  revert bus. induction applicable as [|handler rest IH]; intros bus;
    cbn [startAll].
  - exists [], bus. repeat split.
  - unfold bind at 1. unfold start at 1.
    destruct (handle handler event (world bus)) as [w promise].
    destruct (IH (withWorld w bus)) as (arrows & bus' & Hrun & Hh & Hl & Hm).
    unfold bind. rewrite Hrun. eexists _, bus'. split; [reflexivity|].
    rewrite Hh, Hl. repeat split. cbn [map fst deliveriesTo]. f_equal. exact Hm.
Qed.

Lemma filterHandlers_answers (type : string) (registered : list (EventHandler W))
    (w : W) :
  (forall handler w', In handler registered ->
                      isReturned (fst (canHandle handler type w')) = true) ->
  exists kept w', filterHandlers type registered w = (Returned kept, w').
Proof.
  revert w. induction registered as [|handler rest IH]; intros w H;
    cbn [filterHandlers].
  - exists [], w. reflexivity.
  - unfold bind at 1.
    pose proof (H handler w (or_introl eq_refl)) as Hanswer.
    destruct (canHandle handler type w) as [[accepted|e] w1]; [|discriminate].
    destruct (IH w1) as (kept & w2 & Hrest).
    { intros h w' Hin. apply H. now right. }
    unfold bind. rewrite Hrest. eexists _, w2. reflexivity.
Qed.

Lemma applicableHandlers_unfold event bus :
  applicableHandlers event bus
  = let (o, w) := filterHandlers (eventType event) (handlers bus) (world bus) in
    (o, withWorld w bus).
Proof. reflexivity. Qed.

Lemma processEvent_unfold event bus :
  processEvent event bus
  = match applicableHandlers event bus with
    | (Returned applicable, bus1) =>
        if (List.length applicable =? 0)%nat then
          logLine (NoHandlersFound (eventType event) (id event)) bus1
        else
          match startAll event applicable bus1 with
          | (Returned arrows, bus2) => allSettled event arrows bus2
          | (Thrown e, bus2) => (Thrown e, bus2)
          end
    | (Thrown e, bus1) => (Thrown e, bus1)
    end.
Proof.
  unfold processEvent. unfold bind at 1.
  destruct (applicableHandlers event bus) as [[applicable|e] bus1]; [|reflexivity].
  destruct (List.length applicable =? 0)%nat; reflexivity.
Qed.

(** One event, when the predicates answer: the call returns, and every
    handler that accepts the event has its line in the log, once. *)
Lemma processEvent_spec event bus :
  (forall handler w, In handler (handlers bus) ->
                     isReturned (fst (canHandle handler (eventType event) w)) = true) ->
  exists bus' lines,
    processEvent event bus = (Returned tt, bus')
    /\ handlers bus' = handlers bus
    /\ logged bus' = (logged bus ++ lines)%list
    /\ Permutation (deliveries lines) (deliveriesTo event (accepting event bus)).
Proof.
  intros Hanswer. unfold accepting.
  rewrite processEvent_unfold, applicableHandlers_unfold.
  destruct (filterHandlers_answers (eventType event) (handlers bus) (world bus) Hanswer)
    as (kept & w' & ->).
  cbn [fst snd].
  destruct (List.length kept =? 0)%nat eqn:Hlen.
  - apply length_zero_iff_nil in Hlen. subst kept.
    eexists _, [_]. cbn. repeat split. constructor.
  - destruct (startAll_spec event kept (withWorld w' bus))
      as (arrows & bus1 & Hstart & Hh1 & Hl1 & Hm).
    rewrite Hstart. unfold allSettled.
    destruct (settle_spec event (eventLoop bus1) arrows bus1) as (lines & Hh & Hl & Hd).
    eexists _, lines. split; [reflexivity|].
    rewrite Hh, Hl, Hh1, Hl1. repeat split. now rewrite <- Hm.
Qed.

(** When every [canHandle] is a predicate of the event type alone, the
    handlers that accept an event are those the predicate holds of, in
    registration order. *)
Lemma filterHandlers_predicate (type : string) (registered : list (EventHandler W))
    (accepts : EventHandler W -> bool) (w : W) :
  (forall handler w', In handler registered ->
                      canHandle handler type w' = (Returned (accepts handler), w')) ->
  filterHandlers type registered w = (Returned (filter accepts registered), w).
Proof.
  induction registered as [|handler rest IH]; intros H; [reflexivity|].
  cbn [filterHandlers filter]. unfold bind, ret.
  rewrite (H handler w (or_introl eq_refl)).
  rewrite IH by (intros h w' Hin; apply H; now right).
  now destruct (accepts handler).
Qed.

Lemma accepting_filter event bus (accepts : EventHandler W -> bool) :
  (forall handler w, In handler (handlers bus) ->
                     canHandle handler (eventType event) w
                     = (Returned (accepts handler), w)) ->
  accepting event bus = filter accepts (handlers bus).
Proof.
  intros H. unfold accepting. rewrite applicableHandlers_unfold.
  now rewrite (filterHandlers_predicate _ _ accepts).
Qed.

Lemma publish_nonempty event (events : list DomainEvent) bus :
  publish (event :: events) bus
  = forEach processEvent (event :: events)
      (snd (logLine (PublishingEvents (List.length (event :: events))
                                      (map eventType (event :: events))) bus)).
Proof. reflexivity. Qed.


(** [publish] is the loop over the events, but for lines that record no
    delivery. *)
Lemma deliversAlike_publish (events : list DomainEvent) :
  deliversAlike (W := W) (publish events) (forEach processEvent events).
Proof.
  intros bus1 bus2 H. destruct events as [|event events].
  - exists [], []. cbn. rewrite !app_nil_r. conjs.
  - rewrite publish_nonempty.
    set (line := PublishingEvents _ _).
    destruct (logOblivious_forEach (event :: events) (snd (logLine line bus1)) bus2)
      as (lines & Ho & Hs & Hl1 & Hl2).
    { destruct H as (H1 & H2 & H3). repeat split; assumption. }
    exists (line :: lines), lines. rewrite Hl1, Hl2. cbn [logLine modify snd logged].
    rewrite <- app_assoc. conjs; reflexivity.
Qed.

Lemma deliversAlike_sym {A} (m1 m2 : Method (InMemoryEventBus.t W) A) :
  deliversAlike m1 m2 -> deliversAlike m2 m1.
Proof.
  intros H bus1 bus2 Hs.
  destruct (H bus2 bus1 (sameButLog_sym _ _ Hs)) as (l1 & l2 & Ho & Hs' & Hl1 & Hl2 & Hd).
  exists l2, l1. conjs. now apply sameButLog_sym.
Qed.

Lemma deliversAlike_trans {A} (m1 m2 m3 : Method (InMemoryEventBus.t W) A) :
  deliversAlike m1 m2 -> deliversAlike m2 m3 -> deliversAlike m1 m3.
Proof.
  intros H12 H23 bus1 bus3 Hs.
  destruct (H12 bus1 bus1 (sameButLog_refl _))
    as (l1 & l2 & Ho & Hs' & Hl1 & Hl2 & Hd).
  destruct (H23 bus1 bus3 Hs) as (l3 & l4 & Ho' & Hs'' & Hl3 & Hl4 & Hd').
  exists l1, l4. conjs.
  - eapply sameButLog_trans; eassumption.
  - rewrite Hd, <- Hd'. rewrite Hl2 in Hl3. now apply app_inv_head in Hl3 as ->.
Qed.

Lemma deliversAlike_bind {A B} (m1 m2 : Method (InMemoryEventBus.t W) A)
    (k1 k2 : A -> Method (InMemoryEventBus.t W) B) :
  deliversAlike m1 m2 -> (forall a, deliversAlike (k1 a) (k2 a)) ->
  deliversAlike (bind m1 k1) (bind m2 k2).
Proof.
  intros Hm Hk bus1 bus2 H.
  destruct (Hm bus1 bus2 H) as (l1 & l2 & Ho & Hs & Hl1 & Hl2 & Hd).
  unfold bind.
  destruct (m1 bus1) as [[a1|e1] s1], (m2 bus2) as [[a2|e2] s2];
    cbn [fst snd] in *; try discriminate.
  - injection Ho as <-.
    destruct (Hk a1 s1 s2 Hs) as (l3 & l4 & Ho2 & Hs2 & Hl3 & Hl4 & Hd2).
    exists (l1 ++ l3)%list, (l2 ++ l4)%list.
    rewrite Hl3, Hl4, Hl1, Hl2, <- !app_assoc, !deliveries_app. conjs.
  - exists l1, l2. conjs.
Qed.


End Bus.



(** Three events on a bus of two handlers: the first handler rejects on the
    two events it accepts, the second still receives the creation event, the
    third event has no handler, and [publish] returns. *)
Example publish_sample :
  let result :=
    InMemoryEventBus.publish
      [Sample.creationEvent; Sample.foreignEvent; Sample.archivedEvent] Sample.bus in
  fst result = Returned tt
  /\ InMemoryEventBus.world (snd result)
     = ["failing e0000000-0000-4000-8000-000000000001";
        "projection e0000000-0000-4000-8000-000000000001";
        "failing e0000000-0000-4000-8000-000000000009"]
  /\ InMemoryEventBus.deliveries (InMemoryEventBus.logged (snd result))
     = [("FailingHandler", "e0000000-0000-4000-8000-000000000001");
        ("TaskProjection", "e0000000-0000-4000-8000-000000000001");
        ("FailingHandler", "e0000000-0000-4000-8000-000000000009")]
  /\ In (InMemoryEventBus.NoHandlersFound
           "TaskArchived" "e0000000-0000-4000-8000-00000000000a")
        (InMemoryEventBus.logged (snd result)).
Proof. vm_compute. repeat split; try reflexivity. tauto. Qed.

(** A handler that awaits, registered before one that does not: both are
    called in registration order, the second writes its line while the
    first is still pending, and the first goes on after the second has
    acted. *)
Example publish_interleaved :
  let result := InMemoryEventBus.publish [Sample.creationEvent] Sample.slowBus in
  fst result = Returned tt
  /\ InMemoryEventBus.world (snd result)
     = ["slow e0000000-0000-4000-8000-000000000001";
        "projection e0000000-0000-4000-8000-000000000001";
        "slow again e0000000-0000-4000-8000-000000000001"]
  /\ InMemoryEventBus.deliveries (InMemoryEventBus.logged (snd result))
     = [("TaskProjection", "e0000000-0000-4000-8000-000000000001");
        ("SlowProjection", "e0000000-0000-4000-8000-000000000001")].
Proof. vm_compute. repeat split; reflexivity. Qed.

(* ===================================================================== *)
(** * The service *)
(* ===================================================================== *)

Section Service.

Import PostgreSQLEventStore.

Variable W : Type.

(** What [createNew] returns on a valid input: an aggregate under the fresh
    id, at version 0, with the creation event as its whole buffer and the
    trimmed fields as its state. *)
Lemma createNew_valid (data : TaskService.CreateTaskData)
    (c : TaskAggregate.Construction) (env : Env) :
  validCreation data = true ->
  exists task event,
    TaskAggregate.createNew
      (TaskService.title data) (TaskService.description data)
      (Some (match TaskService.priority data with Some p => p | None => MEDIUM end))
      (TaskService.createdBy data) c env
    = Returned task
    /\ AggregateRoot.id task = TaskAggregate.freshId c
    /\ AggregateRoot.version task = 0
    /\ AggregateRoot.getUncommittedEvents task = [event]
    /\ TaskAggregate.title task = Js.trim (TaskService.title data)
    /\ TaskAggregate.description task
       = option_map Js.trim (TaskService.description data)
    /\ TaskAggregate.priority task
       = match TaskService.priority data with Some p => p | None => MEDIUM end.
Proof.
  unfold validCreation, TaskAggregate.createNew. intros H.
  apply andb_prop in H as [H Hd]. apply andb_prop in H as [H Hlen].
  apply andb_prop in H as [Hne Hblank].
  apply negb_true_iff in Hne, Hblank. rewrite Hne, Hblank. cbn [orb].
  apply Nat.leb_le in Hlen. apply Nat.ltb_ge in Hlen. rewrite Hlen.
  assert (Hdesc : match TaskService.description data with
                  | Some d => negb (String.eqb d "") && (1000 <? String.length d)%nat
                  | None => false
                  end = false).
  { destruct (TaskService.description data) as [d|]; [|reflexivity].
    apply Nat.leb_le in Hd. apply Nat.ltb_ge in Hd. rewrite Hd.
    apply andb_false_r. }
  rewrite Hdesc. do 2 eexists. split; [reflexivity|]. repeat split.
Qed.

Lemma getCurrentVersion_unknown aggregate table :
  aggregateExists aggregate table = false ->
  getCurrentVersion aggregate table = 0.
Proof.
  unfold aggregateExists, getCurrentVersion. intros H.
  replace (filter (ofAggregate aggregate) table) with (@nil Row); [reflexivity|].
  induction table as [|row table IH]; [reflexivity|].
  simpl in H |- *. apply orb_false_elim in H as [Hrow Hrest].
  rewrite Hrow. now apply IH.
Qed.

(** Every creation conflicts: for every valid input and every table that
    holds no event of the fresh id, the [save] inside [createTask] expects
    the version -1 where the store has 0, [createTask] throws the conflict,
    nothing is stored and nothing is published. *)
Lemma createTask_conflicts (data : TaskService.CreateTaskData)
    (c : TaskAggregate.Construction) (env : Env)
    (table : Table) (bus : InMemoryEventBus.t W) :
  validCreation data = true ->
  aggregateExists (TaskAggregate.freshId c) table = false ->
  TaskService.createTask data c env (table, bus)
  = (Thrown (ConflictError
               (conflictMessage (-1) 0 (TaskAggregate.freshId c))),
     (table, bus)).
Proof.
  intros Hvalid Hfresh.
  destruct (createNew_valid data c env Hvalid)
    as (task & event & Hcreate & Hid & Hversion & Hbuffer & _).
  unfold TaskService.createTask, tryCatch, throw. rewrite Hcreate. cbn [fst snd].
  rewrite save_nonempty by (rewrite Hbuffer; discriminate).
  rewrite Hbuffer, Hid, Hversion. cbn [List.length Z.of_nat].
  rewrite saveEvents_nonempty by discriminate.
  rewrite getCurrentVersion_unknown by assumption. reflexivity.
Qed.

End Service.

(** C1 -- create, then load.  Evaluated at [createTask({ title: 'A' })] on an
    empty store: [createNew] returns the aggregate at version 0 with one
    uncommitted event, [save] asks the store for the expected version -1, the
    store has 0, and [createTask] throws the concurrency conflict; the table
    is still empty, so loading the id throws not-found. *)
Theorem createTask_first_save_conflicts :
  TaskService.createTask Sample.data Sample.construction Sample.env1
                         ([], InMemoryEventBus.new tt)
  = (Thrown (ConflictError
               "Concurrency conflict: Expected version -1, but current version is 0 for aggregate 7d3c1f9e-0000-4000-8000-000000000001"),
     ([], InMemoryEventBus.new tt))
  /\ fst (EventSourcedTaskRepository.getById
            "7d3c1f9e-0000-4000-8000-000000000001" Sample.reconstruction [])
     = Thrown (NotFoundError
                 "Task with id 7d3c1f9e-0000-4000-8000-000000000001 not found").
Proof. vm_compute. split; reflexivity. Qed.

(** Had the creation event been stored, at version 1, loading the id would
    return the aggregate at version 1 with the created fields. *)
Example getById_after_a_stored_creation :
  exists task,
    EventSourcedTaskRepository.getById
      "7d3c1f9e-0000-4000-8000-000000000001" Sample.reconstruction Sample.tableWithOne
    = (Returned task, Sample.tableWithOne)
    /\ AggregateRoot.version task = 1
    /\ TaskAggregate.toEntity task = TaskAggregate.toEntity Sample.created.
Proof. eexists. vm_compute. repeat split; reflexivity. Qed.

(* ===================================================================== *)
(** * Further properties of the aggregate kernel *)
(* ===================================================================== *)

Section Lifecycle.

Implicit Types (this : TaskAggregate.t) (event : DomainEvent).

(** X1 -- [complete] from Pending.  On a Pending aggregate [complete] returns
    normally after raising exactly one event, of kind TaskCompleted, that
    names the aggregate and carries the two arguments; the status is then
    Completed, the completion date and the update date are the date of the
    call, and the title, description, priority, creation date and
    cancellation date are what they were. *)
Theorem complete_from_pending :
  forall (this : TaskAggregate.t) (completedBy completionNote : option string)
         (env : Env),
    TaskAggregate.status this = PENDING ->
    exists (this' : TaskAggregate.t) (event : DomainEvent),
      TaskAggregate.complete completedBy completionNote env this
      = (Returned tt, this')
      /\ AggregateRoot.getUncommittedEvents this'
         = (AggregateRoot.getUncommittedEvents this ++ [event])%list
      /\ payload event = TaskCompleted completedBy completionNote
      /\ aggregateId event = AggregateRoot.id this
      /\ timestamp event = now env
      /\ TaskAggregate.status this' = COMPLETED
      /\ TaskAggregate.completedAt this' = Some (now env)
      /\ TaskAggregate.updatedAt this' = now env
      /\ TaskAggregate.title this' = TaskAggregate.title this
      /\ TaskAggregate.description this' = TaskAggregate.description this
      /\ TaskAggregate.priority this' = TaskAggregate.priority this
      /\ TaskAggregate.createdAt this' = TaskAggregate.createdAt this
      /\ TaskAggregate.cancelledAt this' = TaskAggregate.cancelledAt this.
Proof.
  intros this completedBy completionNote env Hstatus.
  unfold TaskAggregate.complete, TaskAggregate.status in *. rewrite Hstatus.
  cbn [TaskStatus_eqb negb]. do 2 eexists. split; [reflexivity|].
  repeat split.
Qed.

Lemma complete_from_pending_witness :
  exists (this' : TaskAggregate.t) (event : DomainEvent),
    TaskAggregate.complete (Some "ann") None Sample.env2 Sample.created
    = (Returned tt, this')
    /\ AggregateRoot.getUncommittedEvents this'
       = (AggregateRoot.getUncommittedEvents Sample.created ++ [event])%list
    /\ payload event = TaskCompleted (Some "ann") None
    /\ aggregateId event = AggregateRoot.id Sample.created
    /\ timestamp event = now Sample.env2
    /\ TaskAggregate.status this' = COMPLETED
    /\ TaskAggregate.completedAt this' = Some (now Sample.env2)
    /\ TaskAggregate.updatedAt this' = now Sample.env2
    /\ TaskAggregate.title this' = TaskAggregate.title Sample.created
    /\ TaskAggregate.description this' = TaskAggregate.description Sample.created
    /\ TaskAggregate.priority this' = TaskAggregate.priority Sample.created
    /\ TaskAggregate.createdAt this' = TaskAggregate.createdAt Sample.created
    /\ TaskAggregate.cancelledAt this' = TaskAggregate.cancelledAt Sample.created.
Proof.
  apply (complete_from_pending Sample.created (Some "ann") None Sample.env2).
  reflexivity.
Defined.

(** X2 -- [cancel] from Pending.  On a Pending aggregate [cancel] returns
    normally after raising exactly one event, of kind TaskCancelled, that
    names the aggregate and carries the two arguments; the status is then
    Cancelled, the cancellation date and the update date are the date of the
    call, and the title, description, priority, creation date and completion
    date are what they were. *)
Theorem cancel_from_pending :
  forall (this : TaskAggregate.t) (reason cancelledBy : option string) (env : Env),
    TaskAggregate.status this = PENDING ->
    exists (this' : TaskAggregate.t) (event : DomainEvent),
      TaskAggregate.cancel reason cancelledBy env this = (Returned tt, this')
      /\ AggregateRoot.getUncommittedEvents this'
         = (AggregateRoot.getUncommittedEvents this ++ [event])%list
      /\ payload event = TaskCancelled reason cancelledBy
      /\ aggregateId event = AggregateRoot.id this
      /\ timestamp event = now env
      /\ TaskAggregate.status this' = CANCELLED
      /\ TaskAggregate.cancelledAt this' = Some (now env)
      /\ TaskAggregate.updatedAt this' = now env
      /\ TaskAggregate.title this' = TaskAggregate.title this
      /\ TaskAggregate.description this' = TaskAggregate.description this
      /\ TaskAggregate.priority this' = TaskAggregate.priority this
      /\ TaskAggregate.createdAt this' = TaskAggregate.createdAt this
      /\ TaskAggregate.completedAt this' = TaskAggregate.completedAt this.
Proof.
  intros this reason cancelledBy env Hstatus.
  unfold TaskAggregate.cancel, TaskAggregate.status in *. rewrite Hstatus.
  cbn [TaskStatus_eqb]. do 2 eexists. split; [reflexivity|].
  repeat split.
Qed.

Lemma cancel_from_pending_witness :
  exists (this' : TaskAggregate.t) (event : DomainEvent),
    TaskAggregate.cancel (Some "duplicate") None Sample.env2 Sample.created
    = (Returned tt, this')
    /\ AggregateRoot.getUncommittedEvents this'
       = (AggregateRoot.getUncommittedEvents Sample.created ++ [event])%list
    /\ payload event = TaskCancelled (Some "duplicate") None
    /\ aggregateId event = AggregateRoot.id Sample.created
    /\ timestamp event = now Sample.env2
    /\ TaskAggregate.status this' = CANCELLED
    /\ TaskAggregate.cancelledAt this' = Some (now Sample.env2)
    /\ TaskAggregate.updatedAt this' = now Sample.env2
    /\ TaskAggregate.title this' = TaskAggregate.title Sample.created
    /\ TaskAggregate.description this' = TaskAggregate.description Sample.created
    /\ TaskAggregate.priority this' = TaskAggregate.priority Sample.created
    /\ TaskAggregate.createdAt this' = TaskAggregate.createdAt Sample.created
    /\ TaskAggregate.completedAt this' = TaskAggregate.completedAt Sample.created.
Proof.
  apply (cancel_from_pending Sample.created (Some "duplicate") None Sample.env2).
  reflexivity.
Defined.

(** A mutation method called on an aggregate that is not Pending throws and
    leaves the aggregate as it was. *)
Lemma mutate_not_pending (m : Mutation) this :
  TaskAggregate.status this <> PENDING ->
  exists e, mutate m this = (Thrown e, this) /\ isValidationError e = true.
Proof.
  unfold TaskAggregate.status. intros Hstatus.
  destruct m as [a b env | a b env | updates by_ env]; simpl;
    unfold TaskAggregate.complete, TaskAggregate.cancel, TaskAggregate.update;
    destruct (TaskAggregate._status this); try contradiction;
    simpl; eexists; split; reflexivity.
Qed.

(** X3 -- the terminal states absorb.  Whatever sequence of [complete],
    [cancel] and [update] calls is made on an aggregate that is Completed or
    Cancelled, every call throws and the aggregate stays exactly as it was:
    state, version and buffer. *)
Theorem terminal_state_absorbs :
  forall (this : TaskAggregate.t) (ms : list Mutation),
    TaskAggregate.status this = COMPLETED \/ TaskAggregate.status this = CANCELLED ->
    mutateAll ms this = this
    /\ Forall (fun m => exists e, mutate m this = (Thrown e, this)
                                  /\ isValidationError e = true) ms.
Proof.
  intros this ms Hstatus.
  assert (Hnot : TaskAggregate.status this <> PENDING).
  { destruct Hstatus as [H|H]; rewrite H; discriminate. }
  split.
  - induction ms as [|m ms IH]; [reflexivity|].
    unfold mutateAll in *. cbn [fold_left].
    destruct (mutate_not_pending m this Hnot) as (e & Hm & _).
    rewrite Hm. exact IH.
  - apply Forall_forall. intros m _. now apply mutate_not_pending.
Qed.

Lemma terminal_state_absorbs_witness :
  mutateAll Sample.calls Sample.cancelled = Sample.cancelled
  /\ Forall (fun m => exists e, mutate m Sample.cancelled = (Thrown e, Sample.cancelled)
                                /\ isValidationError e = true) Sample.calls.
Proof.
  apply (terminal_state_absorbs Sample.cancelled Sample.calls).
  right. vm_compute. reflexivity.
Defined.

End Lifecycle.

Section LiveInvariants.

Implicit Types (this : TaskAggregate.t) (event : DomainEvent).

Lemma length_string_of_list_ascii (l : list ascii) :
  String.length (string_of_list_ascii l) = List.length l.
Proof. induction l as [|c l IH]; simpl; congruence. Qed.

Lemma length_list_ascii_of_string (s : string) :
  List.length (list_ascii_of_string s) = String.length s.
Proof. induction s as [|c s IH]; simpl; congruence. Qed.

Lemma reverse_length (s : string) : String.length (Js.reverse s) = String.length s.
Proof.
  unfold Js.reverse.
  now rewrite length_string_of_list_ascii, length_rev, length_list_ascii_of_string.
Qed.

Lemma trimStart_length (s : string) :
  (String.length (Js.trimStart s) <= String.length s)%nat.
Proof.
  induction s as [|c s IH]; simpl; [lia|].
  destruct (Js.isWhiteSpace c); simpl; lia.
Qed.

(** Trimming never lengthens. *)
Lemma trim_length (s : string) :
  (String.length (Js.trim s) <= String.length s)%nat.
Proof.
  unfold Js.trim, Js.trimEnd. rewrite reverse_length.
  etransitivity; [apply trimStart_length|]. rewrite reverse_length.
  apply trimStart_length.
Qed.

(** What [createNew] checked and made when it returns. *)
Lemma createNew_returned title description priority createdBy c env task :
  TaskAggregate.createNew title description priority createdBy c env
  = Returned task ->
  (String.length (Js.trim title) <> 0)%nat
  /\ (String.length title <= 255)%nat
  /\ (forall d, description = Some d -> (String.length d <= 1000)%nat)
  /\ task
     = snd (AggregateRoot.raiseEvent
              {| id := uuid env;
                 aggregateId := TaskAggregate.freshId c;
                 version := 1;
                 timestamp := now env;
                 payload := TaskCreated
                              (Js.trim title) (option_map Js.trim description)
                              (match priority with Some p => p | None => MEDIUM end)
                              createdBy;
                 metadata := TaskAggregate.metadataOf "TaskAggregate.createNew" env |}
              (TaskAggregate.new None c)).
Proof.
  unfold TaskAggregate.createNew. intros H.
  destruct (String.eqb title "" || (String.length (Js.trim title) =? 0)%nat)
    eqn:Hblank; [discriminate|].
  destruct (255 <? String.length title)%nat eqn:Hlen; [discriminate|].
  destruct (match description with
            | Some d => negb (String.eqb d "") && (1000 <? String.length d)%nat
            | None => false
            end) eqn:Hdesc; [discriminate|].
  apply orb_false_elim in Hblank as [_ Hblank].
  apply Nat.eqb_neq in Hblank. apply Nat.ltb_ge in Hlen.
  repeat split; try assumption.
  - intros d ->. apply andb_false_iff in Hdesc as [Hd|Hd].
    + apply negb_false_iff, String.eqb_eq in Hd. subst d. simpl. lia.
    + now apply Nat.ltb_ge in Hd.
  - simpl in H. now injection H as <-.
Qed.

(** What one mutation does: nothing, or it raises one event of a known kind
    that names the aggregate; an update that raises passed the checks. *)
Lemma mutate_cases (m : Mutation) this :
  snd (mutate m this) = this
  \/ exists event,
       snd (mutate m this) = snd (AggregateRoot.raiseEvent event this)
       /\ aggregateId event = AggregateRoot.id this
       /\ TaskAggregate.status this = PENDING
       /\ match m with
          | Complete a b _ => payload event = TaskCompleted a b
          | Cancel a b _ => payload event = TaskCancelled a b
          | Update updates by_ _ =>
              passesValidation updates = true
              /\ payload event
                 = TaskUpdated (option_map Js.trim (TaskAggregate.newTitle updates))
                               (option_map Js.trim (TaskAggregate.newDescription updates))
                               (TaskAggregate.newPriority updates) by_
          end.
Proof.
  unfold TaskAggregate.status.
  destruct m as [a b env | a b env | updates by_ env]; simpl.
  - unfold TaskAggregate.complete.
    destruct (TaskAggregate._status this) eqn:Hs; cbn [TaskStatus_eqb negb];
      try (now left).
    right. eexists. split; [reflexivity|]. repeat split.
  - unfold TaskAggregate.cancel.
    destruct (TaskAggregate._status this) eqn:Hs; cbn [TaskStatus_eqb negb];
      try (now left).
    right. eexists. split; [reflexivity|]. repeat split.
  - unfold TaskAggregate.update.
    destruct (TaskAggregate._status this) eqn:Hs; cbn [TaskStatus_eqb negb];
      try (now left).
    destruct (match TaskAggregate.newTitle updates with
              | Some s => String.eqb s "" || (String.length (Js.trim s) =? 0)%nat
              | None => false end) eqn:C1; [now left|].
    destruct (match TaskAggregate.newTitle updates with
              | Some s => (255 <? String.length s)%nat
              | None => false end) eqn:C2; [now left|].
    destruct (match TaskAggregate.newDescription updates with
              | Some d => (1000 <? String.length d)%nat
              | None => false end) eqn:C3; [now left|].
    destruct (negb (TaskAggregate.hasChanges updates this)); [now left|].
    right. eexists. split; [reflexivity|]. repeat split.
    unfold passesValidation.
    destruct (TaskAggregate.newTitle updates) as [s|];
      destruct (TaskAggregate.newDescription updates) as [d|];
      repeat match goal with
             | H : (_ || _) = false |- _ => apply orb_false_elim in H as [? ?]
             | H : (_ <? _)%nat = false |- _ => apply Nat.ltb_ge, Nat.leb_le in H
             end;
      repeat match goal with H : _ = _ |- _ => rewrite H end; reflexivity.
Qed.

(** A property of aggregates that every mutation keeps holds after any
    sequence of mutations. *)
Lemma mutateAll_invariant (P : TaskAggregate.t -> Prop) :
  (forall m this, P this -> P (snd (mutate m this))) ->
  forall ms this, P this -> P (mutateAll ms this).
Proof.
  intros Hstep ms. induction ms as [|m ms IH]; intros this H; [exact H|].
  unfold mutateAll in *. cbn [fold_left]. apply IH. now apply Hstep.
Qed.

(** X4 -- status and dates.  On an aggregate made by [createNew] and then put
    through any sequence of [complete], [cancel] and [update] calls, the
    completion date is set exactly when the status is Completed and the
    cancellation date exactly when it is Cancelled: a task is never both
    completed and cancelled. *)
Theorem live_dates_match_status :
  forall (title : string) (description : option string)
         (priority : option TaskPriority) (createdBy : option string)
         (c : TaskAggregate.Construction) (env : Env)
         (task : TaskAggregate.t) (ms : list Mutation),
    TaskAggregate.createNew title description priority createdBy c env
    = Returned task ->
    datesMatchStatus (mutateAll ms task).
Proof.
  intros title description priority createdBy c env task ms Hcreate.
  apply mutateAll_invariant.
  - clear. intros m this H.
    destruct (mutate_cases m this) as [->|(event & -> & _ & Hs & Hkind)];
      [exact H|].
    unfold datesMatchStatus, TaskAggregate.status, TaskAggregate.completedAt,
      TaskAggregate.cancelledAt in *.
    rewrite Hs in H. destruct H as [Hc Hx].
    unfold AggregateRoot.raiseEvent, AggregateRoot.push, bind, modify. cbn [fst snd].
    cbn [AggregateRoot.applyEvent TaskAggregate.subclass].
    unfold TaskAggregate.applyEvent.
    destruct m as [a b env | a b env | updates by_ env].
    + rewrite Hkind. simpl. split; [discriminate | assumption].
    + rewrite Hkind. simpl. split; [assumption | discriminate].
    + destruct Hkind as [_ ->]. simpl. rewrite Hs. now split.
  - apply createNew_returned in Hcreate as (_ & _ & _ & ->).
    unfold datesMatchStatus. simpl. now split.
Qed.

Lemma live_dates_match_status_witness :
  datesMatchStatus (mutateAll Sample.calls Sample.created).
Proof.
  apply (live_dates_match_status "A" None None None Sample.construction Sample.env1).
  exact created_is_createNew.
Defined.

(** X5 -- the limits hold on the state.  On an aggregate made by [createNew]
    and then put through any sequence of [complete], [cancel] and [update]
    calls, the title is never empty and never longer than 255 code units,
    and the description, when there is one, never longer than 1000. *)
Theorem live_fields_within_limits :
  forall (title : string) (description : option string)
         (priority : option TaskPriority) (createdBy : option string)
         (c : TaskAggregate.Construction) (env : Env)
         (task : TaskAggregate.t) (ms : list Mutation),
    TaskAggregate.createNew title description priority createdBy c env
    = Returned task ->
    withinLimits (mutateAll ms task).
Proof.
  intros title description priority createdBy c env task ms Hcreate.
  apply mutateAll_invariant.
  - clear. intros m this H.
    destruct (mutate_cases m this) as [->|(event & -> & _ & Hs & Hkind)];
      [exact H|].
    unfold withinLimits, TaskAggregate.title, TaskAggregate.description in *.
    destruct H as [Ht Hd].
    unfold AggregateRoot.raiseEvent, AggregateRoot.push, bind, modify. cbn [fst snd].
    cbn [AggregateRoot.applyEvent TaskAggregate.subclass].
    unfold TaskAggregate.applyEvent.
    destruct m as [a b env | a b env | updates by_ env].
    + rewrite Hkind. simpl. now split.
    + rewrite Hkind. simpl. now split.
    + destruct Hkind as [Hvalid ->]. simpl. split.
      * destruct (TaskAggregate.newTitle updates) as [s|] eqn:Hs'; [|exact Ht].
        destruct (passesValidation_title _ _ Hvalid Hs') as [Hblank Hlen].
        apply orb_false_elim in Hblank as [_ Hblank].
        apply Nat.eqb_neq in Hblank. apply Nat.ltb_ge in Hlen.
        pose proof (trim_length s). simpl. lia.
      * destruct (TaskAggregate.newDescription updates) as [d|] eqn:Hd'; [|exact Hd].
        pose proof (passesValidation_description _ _ Hvalid Hd') as Hlen.
        apply Nat.ltb_ge in Hlen. pose proof (trim_length d). simpl. lia.
  - apply createNew_returned in Hcreate as (Hblank & Hlen & Hdesc & ->).
    unfold withinLimits. simpl. split.
    + pose proof (trim_length title). lia.
    + destruct description as [d|]; [|exact I]. simpl.
      pose proof (trim_length d). specialize (Hdesc d eq_refl). lia.
Qed.

Lemma live_fields_within_limits_witness :
  withinLimits (mutateAll Sample.calls Sample.created).
Proof.
  apply (live_fields_within_limits "A" None None None Sample.construction Sample.env1).
  exact created_is_createNew.
Defined.

(** X6 -- the buffer is the aggregate's own.  On an aggregate made by
    [createNew] and then put through any sequence of [complete], [cancel]
    and [update] calls, every uncommitted event names the aggregate itself
    and is of one of the four kinds [applyEvent] handles. *)
Theorem live_buffer_is_own :
  forall (title : string) (description : option string)
         (priority : option TaskPriority) (createdBy : option string)
         (c : TaskAggregate.Construction) (env : Env)
         (task : TaskAggregate.t) (ms : list Mutation),
    TaskAggregate.createNew title description priority createdBy c env
    = Returned task ->
    bufferIsOwn (mutateAll ms task).
Proof.
  intros title description priority createdBy c env task ms Hcreate.
  apply mutateAll_invariant.
  - clear. intros m this H.
    destruct (mutate_cases m this) as [->|(event & -> & Hid & _ & Hkind)];
      [exact H|].
    unfold bufferIsOwn in *. rewrite raiseEvent_buffer, raiseEvent_id.
    apply Forall_app. split; [exact H|].
    constructor; [|constructor]. split; [exact Hid|].
    unfold knownKind.
    destruct m as [a b env | a b env | updates by_ env];
      [rewrite Hkind | rewrite Hkind | destruct Hkind as [_ ->]]; reflexivity.
  - apply createNew_returned in Hcreate as (_ & _ & _ & ->).
    unfold bufferIsOwn. simpl. repeat constructor.
Qed.

Lemma live_buffer_is_own_witness :
  bufferIsOwn (mutateAll Sample.calls Sample.created).
Proof.
  apply (live_buffer_is_own "A" None None None Sample.construction Sample.env1).
  exact created_is_createNew.
Defined.

End LiveInvariants.

Section History.

Implicit Types (this : TaskAggregate.t) (event : DomainEvent)
  (events : list DomainEvent).

Lemma applyEvent_known event this :
  knownKind event = true ->
  exists this',
    TaskAggregate.applyEvent event this = (Returned tt, this')
    /\ TaskAggregate.root this' = TaskAggregate.root this.
Proof.
  unfold knownKind, TaskAggregate.applyEvent.
  destruct (payload event); try discriminate; intros _;
    eexists; split; reflexivity.
Qed.

Lemma loadFromHistory_known events this :
  Forall (fun event => knownKind event = true) events ->
  exists this',
    AggregateRoot.loadFromHistory events this = (Returned tt, this')
    /\ AggregateRoot.version this'
       = AggregateRoot.version this + Z.of_nat (List.length events)
    /\ AggregateRoot.getUncommittedEvents this'
       = AggregateRoot.getUncommittedEvents this
    /\ AggregateRoot.id this' = AggregateRoot.id this.
Proof.
  intros Hall. revert this.
  induction Hall as [|event events Hevent _ IH]; intros this.
  - exists this. repeat split. simpl. lia.
  - destruct (applyEvent_known event this Hevent) as (this1 & Happly & Hroot).
    destruct (IH (snd (AggregateRoot.incrementVersion this1)))
      as (this' & Hload & Hversion & Hbuffer & Hid).
    exists this'. unfold AggregateRoot.loadFromHistory in *. cbn [forEach].
    unfold bind at 1. unfold bind at 1.
    change (AggregateRoot.applyEvent event this)
      with (TaskAggregate.applyEvent event this).
    rewrite Happly. cbn [AggregateRoot.incrementVersion modify] in *. cbn [snd] in *.
    split; [exact Hload|].
    unfold AggregateRoot.version, AggregateRoot.getUncommittedEvents,
      AggregateRoot.id in *.
    cbn [AggregateRoot.super TaskAggregate.subclass] in *.
    simpl in Hversion, Hbuffer, Hid. rewrite Hroot in Hversion, Hbuffer, Hid.
    rewrite Hversion, Hbuffer, Hid.
    repeat split. cbn [List.length]. lia.
Qed.

(** X7 -- replay of a well-formed history.  Folding a history that holds only
    events of the four task kinds into any aggregate returns normally and
    advances the version by the number of events; the id and the
    uncommitted buffer are untouched. *)
Theorem loadFromHistory_known_kinds :
  forall (events : list DomainEvent) (this : TaskAggregate.t),
    Forall (fun event => knownKind event = true) events ->
    exists this',
      AggregateRoot.loadFromHistory events this = (Returned tt, this')
      /\ AggregateRoot.version this'
         = AggregateRoot.version this + Z.of_nat (List.length events)
      /\ AggregateRoot.getUncommittedEvents this'
         = AggregateRoot.getUncommittedEvents this
      /\ AggregateRoot.id this' = AggregateRoot.id this.
Proof. intros events this. apply loadFromHistory_known. Qed.

Lemma loadFromHistory_known_kinds_witness :
  exists this',
    AggregateRoot.loadFromHistory [Sample.creationEvent; Sample.foreignEvent]
                                  (TaskAggregate.new None Sample.reconstruction)
    = (Returned tt, this')
    /\ AggregateRoot.version this'
       = AggregateRoot.version (TaskAggregate.new None Sample.reconstruction)
         + Z.of_nat 2
    /\ AggregateRoot.getUncommittedEvents this'
       = AggregateRoot.getUncommittedEvents
           (TaskAggregate.new None Sample.reconstruction)
    /\ AggregateRoot.id this'
       = AggregateRoot.id (TaskAggregate.new None Sample.reconstruction).
Proof.
  apply (loadFromHistory_known_kinds [Sample.creationEvent; Sample.foreignEvent]).
  repeat constructor.
Defined.

(** X8 -- replay stops at the first unknown kind.  When a history holds an
    event of an unknown kind after events of known kinds, [loadFromHistory]
    throws the error that names that kind; the aggregate is left as the
    events before it made it, with the version advanced by their number, and
    no later event is applied. *)
Theorem loadFromHistory_unknown_kind :
  forall (before after : list DomainEvent) (unknown : DomainEvent)
         (eventType : string) (this : TaskAggregate.t),
    Forall (fun event => knownKind event = true) before ->
    payload unknown = OtherEvent eventType ->
    exists this',
      AggregateRoot.loadFromHistory before this = (Returned tt, this')
      /\ AggregateRoot.loadFromHistory (before ++ unknown :: after)%list this
         = (Thrown (PlainError ("Unknown event type: " ++ eventType)), this')
      /\ AggregateRoot.version this'
         = AggregateRoot.version this + Z.of_nat (List.length before).
Proof.
  intros before after unknown eventType this Hknown Hunknown.
  destruct (loadFromHistory_known before this Hknown)
    as (this' & Hload & Hversion & _ & _).
  exists this'. repeat split; try assumption.
  unfold AggregateRoot.loadFromHistory in *.
  rewrite forEach_app. unfold bind at 1. rewrite Hload.
  cbn [forEach]. unfold bind at 1. unfold bind at 1.
  change (AggregateRoot.applyEvent unknown this')
    with (TaskAggregate.applyEvent unknown this').
  unfold TaskAggregate.applyEvent. rewrite Hunknown. reflexivity.
Qed.

Lemma loadFromHistory_unknown_kind_witness :
  exists this',
    AggregateRoot.loadFromHistory [Sample.creationEvent]
                                  (TaskAggregate.new None Sample.reconstruction)
    = (Returned tt, this')
    /\ AggregateRoot.loadFromHistory
         ([Sample.creationEvent] ++ Sample.archivedEvent :: [Sample.foreignEvent])%list
         (TaskAggregate.new None Sample.reconstruction)
       = (Thrown (PlainError ("Unknown event type: " ++ "TaskArchived")), this')
    /\ AggregateRoot.version this'
       = AggregateRoot.version (TaskAggregate.new None Sample.reconstruction)
         + Z.of_nat 1.
Proof.
  apply (loadFromHistory_unknown_kind
           [Sample.creationEvent] [Sample.foreignEvent] Sample.archivedEvent).
  - repeat constructor.
  - reflexivity.
Defined.

End History.

(* ===================================================================== *)
(** * Further properties of the event store *)
(* ===================================================================== *)

Section Appends.

Import PostgreSQLEventStore.

Implicit Types (table : Table) (events : list DomainEvent).

(** A call that returns appended the stamped rows, also when the batch is
    empty. *)
Lemma saveEvents_appends aggregate events expectedVersion table table' :
  saveEvents aggregate events expectedVersion table = (Returned tt, table') ->
  table' = (table ++ stamped events 0 expectedVersion)%list.
Proof.
  destruct events as [|event events].
  - intros H. injection H as <-. simpl. now rewrite app_nil_r.
  - intros H. now apply saveEvents_returned in H.
Qed.

(** X9 -- all or nothing.  Whatever the batch and the table, a call of
    [saveEvents] that throws, on a stale version or on a unique constraint
    hit by any event of the batch, leaves the table as it was; a call that
    returns has appended one row per event, in input order; no call leaves
    part of a batch behind. *)
Theorem saveEvents_all_or_nothing :
  forall (aggregate : string) (events : list DomainEvent) (expectedVersion : Z)
         (table : Table),
    let result := saveEvents aggregate events expectedVersion table in
    match fst result with
    | Thrown _ => snd result = table
    | Returned _ =>
        snd result = (table ++ stamped events 0 expectedVersion)%list
        /\ List.length (snd result)
           = (List.length table + List.length events)%nat
    end.
Proof.
  intros aggregate events expectedVersion table result. subst result.
  destruct (saveEvents aggregate events expectedVersion table)
    as [[[]|e] table'] eqn:Hsave; cbn [fst snd].
  - apply saveEvents_appends in Hsave. split; [exact Hsave|].
    rewrite Hsave, length_app. f_equal.
    rewrite <- (length_map col_version), stamped_versions. apply upto_length.
  - now apply saveEvents_thrown in Hsave.
Qed.

(** A batch that holds the same event twice: the first insert is accepted,
    the second hits the unique constraint on [event_id], and nothing of the
    batch is stored. *)
Example saveEvents_duplicate_in_batch :
  saveEvents "7d3c1f9e-0000-4000-8000-000000000001"
             [Sample.completionEvent; Sample.completionEvent] 1 Sample.tableWithOne
  = (Thrown (DatabaseError
               "duplicate key value violates unique constraint on event_id"),
     Sample.tableWithOne).
Proof. vm_compute. reflexivity. Qed.

Lemma versionsOf_after aggregate events expectedVersion table :
  Forall (fun event => aggregateId event = aggregate) events ->
  List.length (versionsOf aggregate (table ++ stamped events 0 expectedVersion)%list)
  = (List.length (versionsOf aggregate table) + List.length events)%nat.
Proof.
  intros Hall. rewrite versionsOf_app, length_app. f_equal.
  unfold versionsOf. rewrite (stamped_filter aggregate aggregate) by assumption.
  rewrite String.eqb_refl, stamped_versions. apply upto_length.
Qed.

(** X10 -- the stale writer loses.  On a table with contiguous versions,
    after a batch of an aggregate's own events was accepted at some expected
    version, the stored version of the aggregate is that version plus the
    size of the batch, and any later batch that is not empty and still
    expects the old version is refused with the concurrency conflict that
    reports both versions, and stores nothing. *)
Theorem stale_writer_conflicts :
  forall (aggregate : string) (first second : list DomainEvent)
         (expectedVersion : Z) (table table' : Table),
    contiguous table ->
    Forall (fun event => aggregateId event = aggregate) first ->
    first <> [] ->
    second <> [] ->
    saveEvents aggregate first expectedVersion table = (Returned tt, table') ->
    getCurrentVersion aggregate table'
    = expectedVersion + Z.of_nat (List.length first)
    /\ saveEvents aggregate second expectedVersion table'
       = (Thrown (ConflictError
                    (conflictMessage expectedVersion
                       (expectedVersion + Z.of_nat (List.length first)) aggregate)),
          table').
Proof.
  intros aggregate first second expectedVersion table table' Hc Hall Hne1 Hne2 Hsave.
  destruct (saveEvents_returned _ _ _ _ _ Hne1 Hsave) as (Hcurrent & _ & Htable & _).
  assert (Hnow : getCurrentVersion aggregate table'
                 = expectedVersion + Z.of_nat (List.length first)).
  { rewrite getCurrentVersion_contiguous.
    - rewrite Htable, versionsOf_after by assumption.
      rewrite <- Hcurrent, getCurrentVersion_contiguous by assumption. lia.
    - rewrite Htable, <- Hcurrent. now apply contiguous_stamped. }
  split; [exact Hnow|].
  rewrite saveEvents_nonempty by assumption. rewrite Hnow.
  destruct (Z.eqb_spec (expectedVersion + Z.of_nat (List.length first))
                       expectedVersion) as [Heq|_]; [|reflexivity].
  destruct first; [contradiction | simpl in Heq; lia].
Qed.

Lemma stale_writer_conflicts_witness :
  getCurrentVersion "7d3c1f9e-0000-4000-8000-000000000001" Sample.tableWithOne
  = 0 + Z.of_nat 1
  /\ saveEvents "7d3c1f9e-0000-4000-8000-000000000001" [Sample.completionEvent] 0
                Sample.tableWithOne
     = (Thrown (ConflictError
                  (conflictMessage 0 (0 + Z.of_nat 1)
                                   "7d3c1f9e-0000-4000-8000-000000000001")),
        Sample.tableWithOne).
Proof.
  apply (stale_writer_conflicts
           "7d3c1f9e-0000-4000-8000-000000000001"
           [Sample.creationEvent] [Sample.completionEvent] 0 []).
  - intros other. reflexivity.
  - repeat constructor.
  - discriminate.
  - discriminate.
  - vm_compute. reflexivity.
Defined.

Lemma filter_andb {A} (p q : A -> bool) (l : list A) :
  filter (fun x => p x && q x) l = filter q (filter p l).
Proof.
  induction l as [|x l IH]; [reflexivity|]. simpl.
  destruct (p x); simpl; [destruct (q x)|]; now rewrite IH.
Qed.

Lemma filter_nil_existsb {A} (p : A -> bool) (l : list A) :
  filter p l = [] -> existsb p l = false.
Proof.
  induction l as [|x l IH]; [reflexivity|]. simpl.
  destruct (p x); [discriminate | exact IH].
Qed.

(** X11 -- aggregates do not disturb each other.  After [saveEvents] accepted
    a batch of one aggregate's own events, every other aggregate reads the
    same events, from any version on, has the same stored version, and
    exists or not as before. *)
Theorem aggregates_are_independent :
  forall (aggregate other : string) (events : list DomainEvent)
         (expectedVersion : Z) (fromVersion : option Z) (table table' : Table),
    Forall (fun event => aggregateId event = aggregate) events ->
    other <> aggregate ->
    saveEvents aggregate events expectedVersion table = (Returned tt, table') ->
    getEvents other fromVersion table' = getEvents other fromVersion table
    /\ getCurrentVersion other table' = getCurrentVersion other table
    /\ aggregateExists other table' = aggregateExists other table.
Proof.
  intros aggregate other events expectedVersion fromVersion table table'
         Hall Hother Hsave.
  apply saveEvents_appends in Hsave. subst table'.
  assert (Hnone : filter (ofAggregate other) (stamped events 0 expectedVersion) = []).
  { rewrite (stamped_filter other aggregate) by assumption.
    destruct (String.eqb_spec aggregate other); [congruence | reflexivity]. }
  repeat split.
  - unfold getEvents. do 2 f_equal.
    rewrite !(filter_andb (ofAggregate other)), filter_app, Hnone.
    now rewrite app_nil_r.
  - unfold getCurrentVersion. now rewrite filter_app, Hnone, app_nil_r.
  - unfold aggregateExists. rewrite existsb_app.
    rewrite (filter_nil_existsb _ _ Hnone). apply orb_false_r.
Qed.

Lemma aggregates_are_independent_witness :
  getEvents "7d3c1f9e-0000-4000-8000-000000000001" None
            (Sample.tableWithOne ++ [rowOf Sample.foreignEvent 1])%list
  = getEvents "7d3c1f9e-0000-4000-8000-000000000001" None Sample.tableWithOne
  /\ getCurrentVersion "7d3c1f9e-0000-4000-8000-000000000001"
                       (Sample.tableWithOne ++ [rowOf Sample.foreignEvent 1])%list
     = getCurrentVersion "7d3c1f9e-0000-4000-8000-000000000001" Sample.tableWithOne
  /\ aggregateExists "7d3c1f9e-0000-4000-8000-000000000001"
                     (Sample.tableWithOne ++ [rowOf Sample.foreignEvent 1])%list
     = aggregateExists "7d3c1f9e-0000-4000-8000-000000000001" Sample.tableWithOne.
Proof.
  apply (aggregates_are_independent
           "7d3c1f9e-0000-4000-8000-000000000002"
           "7d3c1f9e-0000-4000-8000-000000000001"
           [Sample.foreignEvent] 0 None Sample.tableWithOne).
  - repeat constructor.
  - discriminate.
  - vm_compute. reflexivity.
Defined.

End Appends.

Section Reads.

Import PostgreSQLEventStore.

Implicit Types (table : Table) (events : list DomainEvent) (rows : list Row).

(** On a table with contiguous versions the history of an aggregate is its
    rows in insertion order. *)
Lemma getEvents_contiguous_rows aggregate table :
  contiguous table ->
  getEvents aggregate None table
  = map eventOfRow (filter (ofAggregate aggregate) table).
Proof.
  intros Hc. unfold getEvents.
  assert (Hfilter :
            filter (fun r => ofAggregate aggregate r && (0 <? col_version r)%Z) table
            = filter (ofAggregate aggregate) table).
  { apply filter_ext_in_iff. intros r Hin.
    destruct (ofAggregate aggregate r) eqn:Hr; [|reflexivity]. simpl.
    apply Z.ltb_lt.
    assert (In (col_version r) (versionsOf aggregate table)) as Hv.
    { unfold versionsOf. apply in_map. apply filter_In. auto. }
    rewrite (Hc aggregate) in Hv. apply upto_lower_bound in Hv. lia. }
  rewrite Hfilter. f_equal.
  pose proof (Hc aggregate) as Hversions. unfold versionsOf in Hversions.
  rewrite length_map in Hversions.
  exact (orderByVersion_upto _ 1 Hversions).
Qed.

Lemma eventOfRow_stamped events i expectedVersion :
  map eventOfRow (stamped events i expectedVersion)
  = renumbered events i expectedVersion.
Proof.
  revert i. induction events as [|event events IH]; intros i; [reflexivity|].
  cbn [stamped renumbered map]. now rewrite IH.
Qed.

(** X12 -- append, then read.  On a table with contiguous versions, after
    [saveEvents] accepted a batch of an aggregate's own events, the history
    read for the aggregate is the history read before followed by the events
    of the batch, in input order, each with all its fields as given except
    the version, which is the one the store assigned. *)
Theorem append_then_read :
  forall (aggregate : string) (events : list DomainEvent) (expectedVersion : Z)
         (table table' : Table),
    contiguous table ->
    Forall (fun event => aggregateId event = aggregate) events ->
    saveEvents aggregate events expectedVersion table = (Returned tt, table') ->
    getEvents aggregate None table'
    = (getEvents aggregate None table
         ++ renumbered events 0 expectedVersion)%list.
Proof.
  intros aggregate events expectedVersion table table' Hc Hall Hsave.
  destruct events as [|event events].
  - apply saveEvents_appends in Hsave. cbn [stamped] in Hsave.
    rewrite app_nil_r in Hsave. subst table'. cbn [renumbered].
    now rewrite app_nil_r.
  - assert (Hne : event :: events <> []) by discriminate.
    destruct (saveEvents_returned _ _ _ _ _ Hne Hsave)
      as (Hcurrent & _ & Htable & _).
    assert (Hc' : contiguous table').
    { rewrite Htable, <- Hcurrent. now apply contiguous_stamped. }
    rewrite !getEvents_contiguous_rows by assumption.
    rewrite Htable, filter_app, map_app. f_equal.
    rewrite (stamped_filter aggregate aggregate) by assumption.
    rewrite String.eqb_refl. apply eventOfRow_stamped.
Qed.

Lemma append_then_read_witness :
  getEvents "7d3c1f9e-0000-4000-8000-000000000001" None Sample.tableWithOne
  = (getEvents "7d3c1f9e-0000-4000-8000-000000000001" None []
       ++ renumbered [Sample.creationEvent] 0 0)%list.
Proof.
  apply (append_then_read "7d3c1f9e-0000-4000-8000-000000000001"
                          [Sample.creationEvent] 0 []).
  - intros other. reflexivity.
  - repeat constructor.
  - vm_compute. reflexivity.
Defined.





Lemma tableWithTwo_contiguous : contiguous Sample.tableWithTwo.
Proof.
  apply (contiguous_stamped "7d3c1f9e-0000-4000-8000-000000000001"
                            [Sample.creationEvent; Sample.completionEvent] []).
  - intros other. reflexivity.
  - repeat constructor.
Qed.

Lemma tableWithOne_contiguous : contiguous Sample.tableWithOne.
Proof.
  apply (contiguous_stamped "7d3c1f9e-0000-4000-8000-000000000001"
                            [Sample.creationEvent] []).
  - intros other. reflexivity.
  - repeat constructor.
Qed.


End Reads.

Section Statistics.

Import PostgreSQLEventStore.

Implicit Types (table : Table) (types : list string).

Lemma totalCount_insertByCount entry entries :
  totalCount (insertByCount entry entries) = (snd entry + totalCount entries)%nat.
Proof.
  induction entries as [|e entries IH]; [reflexivity|]. cbn [insertByCount].
  destruct (snd e <=? snd entry)%nat; [reflexivity|].
  unfold totalCount in *. cbn [fold_right]. rewrite IH. lia.
Qed.

(** Ordering the breakdown does not change its sum. *)
Lemma totalCount_orderByCountDesc entries :
  totalCount (orderByCountDesc entries) = totalCount entries.
Proof.
  induction entries as [|e entries IH]; [reflexivity|].
  unfold orderByCountDesc in *. cbn [fold_right].
  rewrite totalCount_insertByCount, IH. reflexivity.
Qed.

Lemma count_occ_filter types t :
  count_occ string_dec types t
  = List.length (filter (fun x => String.eqb t x) types).
Proof.
  induction types as [|x types IH]; [reflexivity|]. cbn [count_occ filter].
  destruct (string_dec x t) as [->|Hne].
  - rewrite String.eqb_refl. cbn [List.length]. now rewrite IH.
  - destruct (String.eqb_spec t x); [congruence | exact IH].
Qed.

Lemma existsb_eqb_In x types :
  existsb (String.eqb x) types = true <-> In x types.
Proof.
  rewrite existsb_exists. split.
  - intros (y & Hin & Heq). apply String.eqb_eq in Heq. now subst.
  - intros Hin. exists x. split; [assumption | apply String.eqb_refl].
Qed.

Lemma filter_split types d (distinct : list string) :
  ~ In d distinct ->
  List.length
    (filter (fun x => String.eqb x d || existsb (String.eqb x) distinct) types)
  = (List.length (filter (fun x => String.eqb d x) types)
     + List.length (filter (fun x => existsb (String.eqb x) distinct) types))%nat.
Proof.
  intros Hnotin. induction types as [|x types IHt]; [reflexivity|].
  cbn [filter]. destruct (String.eqb_spec x d) as [->|Hne].
  - rewrite String.eqb_refl.
    destruct (existsb (String.eqb d) distinct) eqn:Hex.
    + apply existsb_eqb_In in Hex. contradiction.
    + cbn [orb List.length]. rewrite IHt. lia.
  - destruct (String.eqb_spec d x); [congruence|]. cbn [orb].
    destruct (existsb (String.eqb x) distinct); cbn [List.length];
      rewrite IHt; lia.
Qed.

(** The counts of distinct types add up to the rows of those types. *)
Lemma totalCount_distinct types (distinct : list string) :
  NoDup distinct ->
  totalCount (map (fun t => (t, count_occ string_dec types t)) distinct)
  = List.length (filter (fun x => existsb (String.eqb x) distinct) types).
Proof.
  intros Hnodup. induction Hnodup as [|d distinct Hnotin _ IH].
  - simpl. induction types; simpl; auto.
  - unfold totalCount in *. cbn [map fold_right snd].
    rewrite IH, count_occ_filter. symmetry.
    exact (filter_split types d distinct Hnotin).
Qed.

Lemma filter_everything {A} (p : A -> bool) (l : list A) :
  (forall x, In x l -> p x = true) -> filter p l = l.
Proof.
  induction l as [|x l IH]; intros H; [reflexivity|]. cbn [filter].
  rewrite (H x (or_introl eq_refl)). f_equal. apply IH.
  intros y Hy. apply H. now right.
Qed.

Lemma countByEventType_total table :
  totalCount (countByEventType table) = List.length table.
Proof.
  unfold countByEventType. rewrite totalCount_distinct by apply NoDup_nodup.
  rewrite <- (length_map rowEventType table). f_equal.
  apply filter_everything. intros x Hin.
  apply existsb_eqb_In. now apply nodup_In.
Qed.

Lemma fold_max_bounds (l : list Z) (start : Z) :
  (fold_left Z.max l start = start \/ In (fold_left Z.max l start) l)
  /\ start <= fold_left Z.max l start
  /\ forall x, In x l -> x <= fold_left Z.max l start.
Proof.
  revert start. induction l as [|y l IH]; intros start.
  - simpl. split; [now left|]. split; [lia|]. intros x [].
  - cbn [fold_left]. destruct (IH (Z.max start y)) as (Hin & Hge & Hall).
    repeat split.
    + destruct Hin as [Heq|Hin]; [|right; now right].
      rewrite Heq. destruct (Z.max_spec start y) as [[_ ->]|[_ ->]];
        [right; now left | now left].
    + lia.
    + intros x [<-|Hx]; [lia | now apply Hall].
Qed.

(** X14 -- the statistics agree with each other.  For every table, the counts
    of the per-type breakdown add up to the total number of events, the
    number of aggregates is at most the number of events, and the latest
    event time is absent exactly when the table is empty and is otherwise
    the timestamp of a stored event that no stored event exceeds. *)
Theorem getStatistics_consistent :
  forall (table : Table),
    let stats := getStatistics table in
    totalCount (eventTypeBreakdown stats) = totalEvents stats
    /\ (totalAggregates stats <= totalEvents stats)%nat
    /\ (latestEventTime stats = None <-> table = [])
    /\ (forall t, latestEventTime stats = Some t ->
                  (exists row, In row table /\ col_timestamp row = t)
                  /\ forall row, In row table -> col_timestamp row <= t).
Proof.
  intros table stats. subst stats. cbn [getStatistics eventTypeBreakdown totalEvents
    totalAggregates latestEventTime]. repeat split.
  - rewrite totalCount_orderByCountDesc. apply countByEventType_total.
  - rewrite <- (length_map col_aggregate_id table).
    apply NoDup_incl_length; [apply NoDup_nodup|].
    intros x Hx. now apply nodup_In in Hx.
  - destruct table; [reflexivity | discriminate].
  - intros ->. reflexivity.
  - destruct table as [|first table]; [discriminate|].
    cbn [map sqlMax] in H. injection H as <-.
    destruct (fold_max_bounds (map col_timestamp table) (col_timestamp first))
      as ([Heq|Hin] & _ & _).
    + exists first. split; [now left | now rewrite Heq].
    + apply in_map_iff in Hin as (row & Hrow & Hin).
      exists row. split; [now right | exact Hrow].
  - intros row Hin. destruct table as [|first table]; [discriminate|].
    cbn [map sqlMax] in H. injection H as <-.
    destruct (fold_max_bounds (map col_timestamp table) (col_timestamp first))
      as (_ & Hge & Hall).
    destruct Hin as [<-|Hin]; [exact Hge|].
    apply Hall. now apply in_map.
Qed.

(** The statistics of the table that holds a creation and a completion. *)
Example getStatistics_sample :
  getStatistics Sample.tableWithTwo
  = {| totalEvents := 2;
       totalAggregates := 1;
       eventTypeBreakdown := [("TaskCreated", 1%nat); ("TaskCompleted", 1%nat)];
       latestEventTime := Some 1700000000002 |}.
Proof. vm_compute. reflexivity. Qed.

End Statistics.

(* ===================================================================== *)
(** * Further properties of the repository *)
(* ===================================================================== *)

Section Loading.

Import PostgreSQLEventStore.

Implicit Types (task : TaskAggregate.t) (table : Table).

Lemma getEvents_unknown aggregate fromVersion table :
  aggregateExists aggregate table = false ->
  getEvents aggregate fromVersion table = [].
Proof.
  unfold aggregateExists, getEvents. intros H.
  rewrite (filter_andb (ofAggregate aggregate)).
  replace (filter (ofAggregate aggregate) table) with (@nil Row); [reflexivity|].
  induction table as [|row table IH]; [reflexivity|].
  simpl in H |- *. apply orb_false_elim in H as [Hrow Hrest].
  rewrite Hrow. now apply IH.
Qed.

(** [getById] with the events the store returned for the id. *)
Lemma getById_unfold id_ c table :
  EventSourcedTaskRepository.getById id_ c table
  = match getEvents id_ None table with
    | [] => (Thrown (newNotFoundError "Task" (Some id_)), table)
    | events =>
        match AggregateRoot.loadFromHistory events (TaskAggregate.new (Some id_) c) with
        | (Returned _, task) => (Returned task, table)
        | (Thrown e, _) => (Thrown e, table)
        end
    end.
Proof.
  unfold EventSourcedTaskRepository.getById, tryCatch, bind, gets, throw.
  destruct (getEvents id_ None table) as [|event events]; [reflexivity|].
  cbn [List.length Nat.eqb].
  destruct (AggregateRoot.loadFromHistory (event :: events)
              (TaskAggregate.new (Some id_) c)) as [[u|e] task]; reflexivity.
Qed.

Lemma getById_missing id_ c table :
  aggregateExists id_ table = false ->
  EventSourcedTaskRepository.getById id_ c table
  = (Thrown (newNotFoundError "Task" (Some id_)), table).
Proof.
  intros H. rewrite getById_unfold. now rewrite getEvents_unknown.
Qed.

(** The ids that the statements on ids from outside are about: the first is
    one, a string that is no UUID and a UUID in capitals are not. *)
Example canonical_samples :
  Uuid.canonical "7d3c1f9e-0000-4000-8000-000000000001" = true
  /\ Uuid.canonical "task-42" = false
  /\ Uuid.canonical "7D3C1F9E-0000-4000-8000-000000000001" = false
  /\ Uuid.canonical "7d3c1f9e00004000800000000000000001" = false.
Proof. vm_compute. repeat split; reflexivity. Qed.

(** X15 -- loading an unknown id.  For an id in the canonical spelling of a
    UUID of which the table holds no event, [getById] throws the not-found
    error that names the id, returns no aggregate and leaves the table as it
    was.  (An id that the column type cannot read makes the driver throw
    instead; the table does not model that.) *)
Theorem getById_unknown_id :
  forall (id_ : string) (c : TaskAggregate.Construction) (table : Table),
    Uuid.canonical id_ = true ->
    aggregateExists id_ table = false ->
    EventSourcedTaskRepository.getById id_ c table
    = (Thrown (newNotFoundError "Task" (Some id_)), table).
Proof. intros id_ c table _. apply getById_missing. Qed.

Lemma getById_unknown_id_witness :
  EventSourcedTaskRepository.getById
    "7d3c1f9e-0000-4000-8000-000000000002" Sample.reconstruction Sample.tableWithTwo
  = (Thrown (newNotFoundError "Task" (Some "7d3c1f9e-0000-4000-8000-000000000002")),
     Sample.tableWithTwo).
Proof.
  apply getById_unknown_id; vm_compute; reflexivity.
Defined.

Lemma aggregateExists_rows aggregate table :
  aggregateExists aggregate table = true ->
  filter (ofAggregate aggregate) table <> [].
Proof.
  intros H Hnil. apply filter_nil_existsb in Hnil.
  unfold aggregateExists in H. congruence.
Qed.

Lemma getById_loaded :
  forall (id_ : string) (c : TaskAggregate.Construction) (table : Table),
    contiguous table ->
    id_ <> "" ->
    aggregateExists id_ table = true ->
    historyIsKnown id_ table ->
    exists task,
      EventSourcedTaskRepository.getById id_ c table = (Returned task, table)
      /\ AggregateRoot.id task = id_
      /\ AggregateRoot.version task
         = Z.of_nat (List.length (getEvents id_ None table))
      /\ AggregateRoot.version task = getCurrentVersion id_ table
      /\ 1 <= AggregateRoot.version task
      /\ AggregateRoot.getUncommittedEvents task = [].
Proof.
  intros id_ c table Hc Hid Hexists Hknown.
  rewrite getById_unfold.
  pose proof (getEvents_contiguous_rows id_ table Hc) as Hevents.
  pose proof (aggregateExists_rows _ _ Hexists) as Hrows.
  assert (Hall : Forall (fun event => knownKind event = true)
                        (getEvents id_ None table)).
  { rewrite Hevents. apply Forall_map. exact Hknown. }
  destruct (loadFromHistory_known _ (TaskAggregate.new (Some id_) c) Hall)
    as (task & Hload & Hversion & Hbuffer & Hident).
  destruct (getEvents id_ None table) as [|event events] eqn:Hget.
  - destruct (filter (ofAggregate id_) table); [contradiction | discriminate].
  - rewrite Hload. exists task. split; [reflexivity|].
    assert (Hnew : AggregateRoot.id (TaskAggregate.new (Some id_) c) = id_).
    { unfold AggregateRoot.id. simpl.
      apply String.eqb_neq in Hid. now rewrite Hid. }
    repeat split.
    + now rewrite Hident.
    + rewrite Hversion. reflexivity.
    + rewrite Hversion, getCurrentVersion_contiguous by assumption.
      unfold versionsOf. rewrite length_map.
      rewrite <- (length_map eventOfRow), <- Hevents. reflexivity.
    + rewrite Hversion. cbn [List.length].
      change (AggregateRoot.version (TaskAggregate.new (Some id_) c)) with 0. lia.
    + rewrite Hbuffer. reflexivity.
Qed.

(** X16 -- loading a stored aggregate.  On a table with contiguous versions,
    for an id that is not empty, of which the table holds events, all of
    known kinds, [getById] returns an aggregate under that id whose version
    is the number of its stored events, which is also the version the store
    holds for it, and whose uncommitted buffer is empty; the table is left
    as it was. *)
Theorem getById_loads_history :
  forall (id_ : string) (c : TaskAggregate.Construction) (table : Table),
    contiguous table ->
    id_ <> "" ->
    aggregateExists id_ table = true ->
    historyIsKnown id_ table ->
    exists task,
      EventSourcedTaskRepository.getById id_ c table = (Returned task, table)
      /\ AggregateRoot.id task = id_
      /\ AggregateRoot.version task
         = Z.of_nat (List.length (getEvents id_ None table))
      /\ AggregateRoot.version task = getCurrentVersion id_ table
      /\ 1 <= AggregateRoot.version task
      /\ AggregateRoot.getUncommittedEvents task = [].
Proof. exact getById_loaded. Qed.

Lemma getById_loads_history_witness :
  exists task,
    EventSourcedTaskRepository.getById
      "7d3c1f9e-0000-4000-8000-000000000001" Sample.reconstruction Sample.tableWithTwo
    = (Returned task, Sample.tableWithTwo)
    /\ AggregateRoot.id task = "7d3c1f9e-0000-4000-8000-000000000001"
    /\ AggregateRoot.version task
       = Z.of_nat (List.length
                     (getEvents "7d3c1f9e-0000-4000-8000-000000000001" None
                                Sample.tableWithTwo))
    /\ AggregateRoot.version task
       = getCurrentVersion "7d3c1f9e-0000-4000-8000-000000000001" Sample.tableWithTwo
    /\ 1 <= AggregateRoot.version task
    /\ AggregateRoot.getUncommittedEvents task = [].
Proof.
  apply getById_loads_history.
  - exact tableWithTwo_contiguous.
  - discriminate.
  - vm_compute. reflexivity.
  - repeat constructor.
Defined.

Lemma loadFromHistory_thrown (events : list DomainEvent) task e task' :
  AggregateRoot.loadFromHistory events task = (Thrown e, task') ->
  isNotFoundError e = false.
Proof.
  revert task. induction events as [|event events IH]; intros task H.
  - discriminate.
  - unfold AggregateRoot.loadFromHistory in *. cbn [forEach] in H.
    unfold bind at 1 in H. unfold bind at 1 in H.
    change (AggregateRoot.applyEvent event task)
      with (TaskAggregate.applyEvent event task) in H.
    pose proof (applyEvent_outcome event task) as Hout.
    destruct (TaskAggregate.applyEvent event task) as [[u|e1] task1].
    + cbn [AggregateRoot.incrementVersion modify] in H. eapply IH, H.
    + injection H as <- _. cbn [fst] in Hout.
      destruct (payload event); try discriminate. now injection Hout as ->.
Qed.

(** X17 -- [exists] and [getById] agree.  On a table with contiguous
    versions, for an id in the canonical spelling of a UUID, [exists]
    returns without touching the table, and it answers false exactly when
    [getById] of the same id throws the not-found error.  (On an id that
    the column type cannot read both throw the error of the driver; the
    table does not model that.) *)
Theorem exists_agrees_with_getById :
  forall (id_ : string) (c : TaskAggregate.Construction) (table : Table),
    Uuid.canonical id_ = true ->
    contiguous table ->
    exists answer,
      EventSourcedTaskRepository.exists_ id_ table = (Returned answer, table)
      /\ (answer = false
          <-> exists e, fst (EventSourcedTaskRepository.getById id_ c table) = Thrown e
                        /\ isNotFoundError e = true).
Proof.
  intros id_ c table _ Hc. exists (aggregateExists id_ table).
  split; [reflexivity|].
  destruct (aggregateExists id_ table) eqn:Hexists.
  - split; [discriminate|]. intros (e & Hthrown & Hkind). exfalso.
    rewrite getById_unfold in Hthrown.
    pose proof (aggregateExists_rows _ _ Hexists) as Hrows.
    rewrite getEvents_contiguous_rows in Hthrown by assumption.
    destruct (filter (ofAggregate id_) table) as [|row rows]; [contradiction|].
    cbn [map] in Hthrown.
    destruct (AggregateRoot.loadFromHistory _ _) as [[u|e1] task] eqn:Hload;
      [discriminate|].
    apply loadFromHistory_thrown in Hload. cbn [fst] in Hthrown.
    injection Hthrown as ->. congruence.
  - split; [|reflexivity]. intros _.
    rewrite getById_missing by assumption. eexists. split; reflexivity.
Qed.

Lemma exists_agrees_with_getById_witness :
  exists answer,
    EventSourcedTaskRepository.exists_ "7d3c1f9e-0000-4000-8000-000000000002"
                                       Sample.tableWithTwo
    = (Returned answer, Sample.tableWithTwo)
    /\ (answer = false
        <-> exists e,
              fst (EventSourcedTaskRepository.getById
                     "7d3c1f9e-0000-4000-8000-000000000002" Sample.reconstruction
                     Sample.tableWithTwo) = Thrown e
              /\ isNotFoundError e = true).
Proof.
  apply exists_agrees_with_getById.
  - vm_compute. reflexivity.
  - exact tableWithTwo_contiguous.
Defined.

End Loading.

Section Saving.

Import PostgreSQLEventStore.

Implicit Types (task : TaskAggregate.t) (table : Table).

(** A [save] that throws leaves the aggregate and the table as they were. *)
Lemma save_thrown task table e task' table' :
  EventSourcedTaskRepository.save (task, table) = (Thrown e, (task', table')) ->
  task' = task /\ table' = table.
Proof.
  destruct (AggregateRoot.getUncommittedEvents task) as [|event events] eqn:Hbuffer.
  - rewrite save_empty by assumption. discriminate.
  - rewrite save_nonempty by (rewrite Hbuffer; discriminate).
    destruct (saveEvents _ _ _ table) as [[u|e1] table1] eqn:Hsave; [discriminate|].
    intros H. injection H as _ <- <-.
    now apply saveEvents_thrown in Hsave.
Qed.

(** X18 -- a [save] that returns.  When [save] returns, the table is the table
    before followed by the buffered events, in order, stamped from the
    expected version on; the aggregate has an empty buffer and the entity
    and version it had; and a second [save] of it returns at once and
    changes nothing.  (A buffer that is not empty is accepted from an
    aggregate whose version counts the buffered events already, such as one
    replayed from a history the table does not hold.) *)
Theorem save_then_save_again :
  forall (task task' : TaskAggregate.t) (table table' : Table),
    EventSourcedTaskRepository.save (task, table) = (Returned tt, (task', table')) ->
    table'
    = (table
         ++ stamped (AggregateRoot.getUncommittedEvents task) 0
              (AggregateRoot.version task
               - Z.of_nat (List.length (AggregateRoot.getUncommittedEvents task))))%list
    /\ AggregateRoot.getUncommittedEvents task' = []
    /\ TaskAggregate.toEntity task' = TaskAggregate.toEntity task
    /\ AggregateRoot.version task' = AggregateRoot.version task
    /\ EventSourcedTaskRepository.save (task', table')
       = (Returned tt, (task', table')).
Proof.
  intros task task' table table' Hsave.
  assert (Hfacts :
            table'
            = (table
                 ++ stamped (AggregateRoot.getUncommittedEvents task) 0
                      (AggregateRoot.version task
                       - Z.of_nat (List.length
                                     (AggregateRoot.getUncommittedEvents task))))%list
            /\ AggregateRoot.getUncommittedEvents task' = []
            /\ TaskAggregate.toEntity task' = TaskAggregate.toEntity task
            /\ AggregateRoot.version task' = AggregateRoot.version task).
  { destruct (AggregateRoot.getUncommittedEvents task) as [|event events] eqn:Hbuffer.
    - rewrite save_empty in Hsave by assumption. injection Hsave as <- <-.
      cbn [stamped]. rewrite app_nil_r. auto.
    - rewrite save_nonempty in Hsave by (rewrite Hbuffer; discriminate).
      rewrite Hbuffer in Hsave.
      destruct (saveEvents _ _ _ table) as [[[]|e1] table1] eqn:Hstore;
        [|discriminate].
      injection Hsave as <- <-. apply saveEvents_appends in Hstore.
      repeat split. exact Hstore. }
  destruct Hfacts as (Htable & Hbuffer & Hentity & Hversion).
  repeat split; try assumption.
  now apply save_empty.
Qed.

Lemma save_then_save_again_witness :
  [rowOf Sample.completionEvent 1]
  = ([] ++ stamped (AggregateRoot.getUncommittedEvents Sample.completedAfterReplay) 0
             (AggregateRoot.version Sample.completedAfterReplay
              - Z.of_nat (List.length
                            (AggregateRoot.getUncommittedEvents
                               Sample.completedAfterReplay))))%list
  /\ AggregateRoot.getUncommittedEvents Sample.savedAfterReplay = []
  /\ TaskAggregate.toEntity Sample.savedAfterReplay
     = TaskAggregate.toEntity Sample.completedAfterReplay
  /\ AggregateRoot.version Sample.savedAfterReplay
     = AggregateRoot.version Sample.completedAfterReplay
  /\ EventSourcedTaskRepository.save
       (Sample.savedAfterReplay, [rowOf Sample.completionEvent 1])
     = (Returned tt, (Sample.savedAfterReplay, [rowOf Sample.completionEvent 1])).
Proof.
  apply (save_then_save_again Sample.completedAfterReplay Sample.savedAfterReplay
                              [] [rowOf Sample.completionEvent 1]).
  vm_compute. reflexivity.
Defined.

(** The same evaluated: an aggregate replayed from the creation event and
    then completed is at version 1 with one event in its buffer; [save] on
    the empty table expects the version 0, the store has 0, and the
    completion is stored under the version 1. *)
Example save_after_replay :
  AggregateRoot.version Sample.completedAfterReplay = 1
  /\ List.length (AggregateRoot.getUncommittedEvents Sample.completedAfterReplay) = 1%nat
  /\ EventSourcedTaskRepository.save (Sample.completedAfterReplay, [])
     = (Returned tt, (Sample.savedAfterReplay, [rowOf Sample.completionEvent 1])).
Proof. vm_compute. repeat split; reflexivity. Qed.

End Saving.

(* ===================================================================== *)
(** * Further properties of the event bus *)
(* ===================================================================== *)

Section Publication.

Import InMemoryEventBus.

Variable W : Type.

Implicit Types (bus : InMemoryEventBus.t W) (events : list DomainEvent)
  (event : DomainEvent) (handler : EventHandler W).

Lemma logOblivious_deliversAlike {A} (m : Method (InMemoryEventBus.t W) A) :
  logOblivious m -> deliversAlike m m.
Proof.
  intros H bus1 bus2 Hs. destruct (H bus1 bus2 Hs) as (lines & Ho & Hs' & Hl1 & Hl2).
  exists lines, lines. conjs.
Qed.

(** One call of [publish] and two calls on the two parts of the list
    deliver alike. *)
Lemma deliversAlike_two_calls (first second : list DomainEvent) :
  deliversAlike (W := W) (publish (first ++ second)%list)
                (bind (publish first) (fun _ => publish second)).
Proof.
  eapply deliversAlike_trans; [apply deliversAlike_publish|].
  apply deliversAlike_sym.
  eapply deliversAlike_trans.
  - apply deliversAlike_bind; [apply deliversAlike_publish|].
    intros u. apply deliversAlike_publish.
  - intros bus1 bus2 Hs. rewrite (forEach_app processEvent first second bus2).
    apply logOblivious_deliversAlike; [|exact Hs].
    apply logOblivious_bind; [apply logOblivious_forEach|].
    intros u. apply logOblivious_forEach.
Qed.

(** X19 -- publishing in two calls.  Publishing a list of events in one call
    and publishing a first part of it and then, if that call returned, the
    rest in a second call have the same outcome, return or throw, leave
    the same handlers, the same world and the same choices to the event
    loop, and record the same deliveries in the same order. *)
Theorem publish_in_two_calls :
  forall (first second : list DomainEvent) (bus : InMemoryEventBus.t W),
    let once := publish (first ++ second)%list bus in
    let twice := (publish first ;; publish second)%method bus in
    fst once = fst twice
    /\ handlers (snd once) = handlers (snd twice)
    /\ world (snd once) = world (snd twice)
    /\ eventLoop (snd once) = eventLoop (snd twice)
    /\ deliveries (logged (snd once)) = deliveries (logged (snd twice)).
Proof.
  intros first second bus once twice. subst once twice.
  destruct (deliversAlike_two_calls first second bus bus (sameButLog_refl W bus))
    as (l1 & l2 & Ho & (Hh & Hw & Hloop) & Hl1 & Hl2 & Hd).
  conjs. rewrite Hl1, Hl2, !deliveries_app. now rewrite Hd.
Qed.

Lemma filterHandlers_app (type : string) (hs1 hs2 : list (EventHandler W)) (w : W) :
  filterHandlers type (hs1 ++ hs2)%list w
  = match filterHandlers type hs1 w with
    | (Returned kept1, w1) =>
        match filterHandlers type hs2 w1 with
        | (Returned kept2, w2) => (Returned (kept1 ++ kept2)%list, w2)
        | (Thrown e, w2) => (Thrown e, w2)
        end
    | (Thrown e, w1) => (Thrown e, w1)
    end.
Proof.
  revert w. induction hs1 as [|handler hs1 IH]; intros w.
  - cbn [app filterHandlers ret].
    now destruct (filterHandlers type hs2 w) as [[kept|e] w2].
  - cbn [app filterHandlers]. unfold bind, ret.
    destruct (canHandle handler type w) as [[accepted|e] w1]; [|reflexivity].
    rewrite IH.
    destruct (filterHandlers type hs1 w1) as [[kept1|e] w2]; [|reflexivity].
    destruct (filterHandlers type hs2 w2) as [[kept2|e] w3]; [|reflexivity].
    now destruct accepted.
Qed.

(** X20 -- subscribing, then publishing.  [subscribe] returns and registers
    the handler after those already registered, also when it is one of
    them.  When the [canHandle] of every handler answers on the type of an
    event, publishing that event next returns, and the lines it adds record
    one delivery for every earlier handler that accepts the event and, if
    the new handler accepts it, one more for the new handler. *)
Theorem subscribe_then_publish :
  forall (handler : EventHandler W) (event : DomainEvent)
         (bus : InMemoryEventBus.t W),
    predicatesAnswer [event] bus ->
    (forall w, isReturned (fst (canHandle handler (eventType event) w)) = true) ->
    exists subscribed published lines earlier w1 accepted w2,
      subscribe handler bus = (Returned tt, subscribed)
      /\ handlers subscribed = (handlers bus ++ [handler])%list
      /\ world subscribed = world bus
      /\ publish [event] subscribed = (Returned tt, published)
      /\ logged published = (logged subscribed ++ lines)%list
      /\ filterHandlers (eventType event) (handlers bus) (world bus)
         = (Returned earlier, w1)
      /\ canHandle handler (eventType event) w1 = (Returned accepted, w2)
      /\ Permutation
           (deliveries lines)
           (deliveriesTo event earlier
              ++ (if accepted : bool then [(handlerName handler, id event)] else []))%list.
Proof.
  intros handler event bus Hanswer Hnew.
  set (subscribed := snd (subscribe handler bus)).
  set (line := PublishingEvents (List.length [event]) (map eventType [event])).
  set (bus0 := snd (logLine line subscribed)).
  destruct (processEvent_spec W event bus0) as (bus' & lines & Hrun & Hh & Hl & Hd).
  { intros h w Hin. cbn in Hin. apply in_app_or in Hin as [Hin|[<-|[]]].
    - apply Hanswer; [exact Hin | now left].
    - apply Hnew. }
  unfold accepting in Hd. rewrite applicableHandlers_unfold in Hd.
  change (handlers bus0) with (handlers bus ++ [handler])%list in Hd.
  change (world bus0) with (world bus) in Hd.
  rewrite filterHandlers_app in Hd.
  destruct (filterHandlers_answers W (eventType event) (handlers bus) (world bus))
    as (earlier & w1 & Hearlier).
  { intros h w Hin. apply Hanswer; [exact Hin | now left]. }
  rewrite Hearlier in Hd. cbn [filterHandlers] in Hd. unfold bind, ret in Hd.
  pose proof (Hnew w1) as Hone.
  destruct (canHandle handler (eventType event) w1) as [[accepted|e] w2] eqn:Hcan;
    [|discriminate].
  cbn [fst snd] in Hd.
  exists subscribed, bus', (line :: lines), earlier, w1, accepted, w2.
  split; [reflexivity|]. split; [reflexivity|]. split; [reflexivity|].
  split; [rewrite publish_nonempty; fold line; fold bus0; cbn [forEach];
          unfold bind; now rewrite Hrun|].
  split; [rewrite Hl; subst bus0; cbn; now rewrite <- app_assoc|].
  split; [exact Hearlier|]. split; [exact Hcan|].
  change (deliveries (line :: lines)) with (deliveries lines).
  eapply Permutation_trans; [exact Hd|].
  unfold deliveriesTo. rewrite map_app. destruct accepted; apply Permutation_refl.
Qed.

End Publication.

Lemma subscribe_then_publish_witness :
  exists subscribed published lines earlier w1 accepted w2,
    InMemoryEventBus.subscribe Sample.projection Sample.bus = (Returned tt, subscribed)
    /\ InMemoryEventBus.handlers subscribed
       = (InMemoryEventBus.handlers Sample.bus ++ [Sample.projection])%list
    /\ InMemoryEventBus.world subscribed = InMemoryEventBus.world Sample.bus
    /\ InMemoryEventBus.publish [Sample.creationEvent] subscribed
       = (Returned tt, published)
    /\ InMemoryEventBus.logged published
       = (InMemoryEventBus.logged subscribed ++ lines)%list
    /\ InMemoryEventBus.filterHandlers (eventType Sample.creationEvent)
         (InMemoryEventBus.handlers Sample.bus) (InMemoryEventBus.world Sample.bus)
       = (Returned earlier, w1)
    /\ InMemoryEventBus.canHandle Sample.projection (eventType Sample.creationEvent) w1
       = (Returned accepted, w2)
    /\ Permutation
         (InMemoryEventBus.deliveries lines)
         (deliveriesTo Sample.creationEvent earlier
            ++ (if accepted : bool
                then [(InMemoryEventBus.handlerName Sample.projection,
                       id Sample.creationEvent)]
                else []))%list.
Proof.
  apply subscribe_then_publish.
  - intros handler event w Hin _. vm_compute in Hin.
    destruct Hin as [<-|[<-|[]]]; reflexivity.
  - intros w. reflexivity.
Defined.

(** One handler subscribed twice receives every event it accepts twice. *)
Example subscribe_twice :
  InMemoryEventBus.world
    (snd (InMemoryEventBus.publish [Sample.creationEvent]
            (snd (InMemoryEventBus.subscribe Sample.projection Sample.bus))))
  = ["failing e0000000-0000-4000-8000-000000000001";
     "projection e0000000-0000-4000-8000-000000000001";
     "projection e0000000-0000-4000-8000-000000000001"]
  /\ InMemoryEventBus.deliveries
       (InMemoryEventBus.logged
          (snd (InMemoryEventBus.publish [Sample.creationEvent]
                  (snd (InMemoryEventBus.subscribe Sample.projection Sample.bus)))))
     = [("FailingHandler", "e0000000-0000-4000-8000-000000000001");
        ("TaskProjection", "e0000000-0000-4000-8000-000000000001");
        ("TaskProjection", "e0000000-0000-4000-8000-000000000001")].
Proof. vm_compute. split; reflexivity. Qed.

(* ===================================================================== *)
(** * Further properties of the service *)
(* ===================================================================== *)

Section UseCases.

Import PostgreSQLEventStore.

Variable W : Type.

Implicit Types (task : TaskAggregate.t) (table : Table)
  (bus : InMemoryEventBus.t W) (s : TaskService.State W).

(** [getById] never writes. *)
Lemma getById_table id_ c table (o : Outcome TaskAggregate.t) table' :
  EventSourcedTaskRepository.getById id_ c table = (o, table') -> table' = table.
Proof.
  rewrite getById_unfold.
  destruct (getEvents id_ None table) as [|event events].
  - now intros [= _ <-].
  - destruct (AggregateRoot.loadFromHistory _ _) as [[u|e] task];
      now intros [= _ <-].
Qed.

(** A mutation that throws left the aggregate alone, and one that returns
    is described by [mutate_cases]. *)
Lemma mutate_thrown (m : Mutation) task e task' :
  mutate m task = (Thrown e, task') -> task' = task.
Proof.
  destruct m as [a b env | a b env | updates by_ env]; simpl;
    unfold TaskAggregate.complete, TaskAggregate.cancel, TaskAggregate.update;
    repeat match goal with
           | |- context [if ?c then _ else _] => destruct c
           end;
    unfold throw, ret; try (now intros [= _ <-]); try discriminate.
Qed.

Lemma tryCatch_rethrow {S A} (body : Method S A) (state : S) :
  tryCatch body (fun error => throw error) state = body state.
Proof. unfold tryCatch, throw. now destruct (body state) as [[a|e] s']. Qed.

Lemma completeTask_shape taskId data c env s :
  TaskService.completeTask taskId data c env s
  = loadMutateSave (Complete (TaskService.completedBy data)
                             (TaskService.completionNote data) env)
                   false taskId c s.
Proof. unfold TaskService.completeTask. now rewrite tryCatch_rethrow. Qed.

Lemma cancelTask_shape taskId data c env s :
  TaskService.cancelTask taskId data c env s
  = loadMutateSave (Cancel (TaskService.reason data)
                           (TaskService.cancelledBy data) env)
                   false taskId c s.
Proof. unfold TaskService.cancelTask. now rewrite tryCatch_rethrow. Qed.

Lemma updateTask_shape taskId updates updatedBy c env s :
  TaskService.updateTask taskId updates updatedBy c env s
  = loadMutateSave (Update updates updatedBy env) true taskId c s.
Proof.
  unfold TaskService.updateTask. rewrite tryCatch_rethrow.
  unfold loadMutateSave. cbn [mutate].
  destruct (EventSourcedTaskRepository.getById taskId c (fst s))
    as [[task|e] table']; [|reflexivity].
  destruct (TaskAggregate.update updates updatedBy env task)
    as [[u|e] task1]; [|reflexivity].
  cbn [andb]. now destruct (0 <? _)%nat.
Qed.

(** X22 -- an invalid creation.  For creation data whose title is empty, is
    blank after trimming or is longer than 255 code units, or whose
    description is longer than 1000, [createTask] throws a validation error
    before anything is stored or published. *)
Theorem createTask_rejects_invalid_input :
  forall (data : TaskService.CreateTaskData) (c : TaskAggregate.Construction)
         (env : Env) (s : TaskService.State W),
    validCreation data = false ->
    exists message field,
      TaskService.createTask data c env s
      = (Thrown (ValidationError message field), s).
Proof.
  intros data c env s Hinvalid.
  unfold TaskService.createTask. rewrite tryCatch_rethrow.
  unfold TaskAggregate.createNew, validCreation in *.
  destruct (String.eqb (TaskService.title data) "") eqn:Hempty;
    [do 2 eexists; reflexivity|].
  destruct (String.length (Js.trim (TaskService.title data)) =? 0)%nat eqn:Hblank;
    [do 2 eexists; reflexivity|].
  cbn [orb negb andb] in *.
  destruct (Nat.leb_spec (String.length (TaskService.title data)) 255) as [Hle|Hgt].
  - destruct (Nat.ltb_spec 255 (String.length (TaskService.title data))); [lia|].
    cbn [andb] in Hinvalid.
    destruct (TaskService.description data) as [d|]; [|discriminate].
    apply Nat.leb_gt in Hinvalid.
    destruct (String.eqb_spec d "") as [->|_]; [simpl in Hinvalid; lia|].
    destruct (Nat.ltb_spec 1000 (String.length d)); [|lia].
    do 2 eexists. reflexivity.
  - destruct (Nat.ltb_spec 255 (String.length (TaskService.title data))); [|lia].
    do 2 eexists. reflexivity.
Qed.

(** X23 -- a use case on an unknown task.  For a task id in the canonical
    spelling of a UUID of which the table holds no event, [completeTask],
    [cancelTask] and [updateTask] throw the not-found error that names the
    id, and the table and the bus are left as they were.  (An id that the
    column type cannot read makes the driver throw instead; the table does
    not model that.) *)
Theorem use_case_on_unknown_task :
  forall (taskId : string) (c : TaskAggregate.Construction) (env : Env)
         (completion : TaskService.CompleteTaskData)
         (cancellation : TaskService.CancelTaskData)
         (updates : TaskAggregate.Updates) (updatedBy : option string)
         (s : TaskService.State W),
    Uuid.canonical taskId = true ->
    aggregateExists taskId (fst s) = false ->
    TaskService.completeTask taskId completion c env s
    = (Thrown (newNotFoundError "Task" (Some taskId)), s)
    /\ TaskService.cancelTask taskId cancellation c env s
       = (Thrown (newNotFoundError "Task" (Some taskId)), s)
    /\ TaskService.updateTask taskId updates updatedBy c env s
       = (Thrown (newNotFoundError "Task" (Some taskId)), s).
Proof.
  intros taskId c env completion cancellation updates updatedBy s _ Hnone.
  rewrite completeTask_shape, cancelTask_shape, updateTask_shape.
  unfold loadMutateSave. rewrite (getById_missing _ _ _ Hnone).
  destruct s. repeat split.
Qed.

(** X24 -- a use case on a finished task.  When the task [getById] returns
    is Completed or Cancelled, [completeTask], [cancelTask] and [updateTask]
    throw a validation error, and the table and the bus are left as they
    were. *)
Theorem use_case_on_finished_task :
  forall (taskId : string) (c : TaskAggregate.Construction) (env : Env)
         (completion : TaskService.CompleteTaskData)
         (cancellation : TaskService.CancelTaskData)
         (updates : TaskAggregate.Updates) (updatedBy : option string)
         (table : Table) (bus : InMemoryEventBus.t W) (task : TaskAggregate.t),
    EventSourcedTaskRepository.getById taskId c table = (Returned task, table) ->
    TaskAggregate.status task = COMPLETED \/ TaskAggregate.status task = CANCELLED ->
    (exists e, TaskService.completeTask taskId completion c env (table, bus)
               = (Thrown e, (table, bus)) /\ isValidationError e = true)
    /\ (exists e, TaskService.cancelTask taskId cancellation c env (table, bus)
                  = (Thrown e, (table, bus)) /\ isValidationError e = true)
    /\ (exists e, TaskService.updateTask taskId updates updatedBy c env (table, bus)
                  = (Thrown e, (table, bus)) /\ isValidationError e = true).
Proof.
  intros taskId c env completion cancellation updates updatedBy table bus task
         Hget Hstatus.
  assert (Hnot : TaskAggregate.status task <> PENDING).
  { destruct Hstatus as [H|H]; rewrite H; discriminate. }
  rewrite completeTask_shape, cancelTask_shape, updateTask_shape.
  unfold loadMutateSave. cbn [fst snd]. rewrite Hget.
  repeat split;
    match goal with
    | |- context [mutate ?m task] =>
        destruct (mutate_not_pending m task Hnot) as (e & -> & He)
    end; exists e; split; auto.
Qed.

Lemma loadFromHistory_root (events : list DomainEvent) task
    (o : Outcome unit) task' :
  AggregateRoot.loadFromHistory events task = (o, task') ->
  AggregateRoot.getUncommittedEvents task' = AggregateRoot.getUncommittedEvents task
  /\ AggregateRoot.id task' = AggregateRoot.id task.
Proof.
  revert task. induction events as [|event events IH]; intros task H.
  - injection H as _ <-. auto.
  - unfold AggregateRoot.loadFromHistory in *. cbn [forEach] in H.
    unfold bind at 1 in H. unfold bind at 1 in H.
    change (AggregateRoot.applyEvent event task)
      with (TaskAggregate.applyEvent event task) in H.
    pose proof (applyEvent_root event task) as Hroot.
    destruct (TaskAggregate.applyEvent event task) as [[u|e1] task1].
    + cbn [AggregateRoot.incrementVersion modify] in H. apply IH in H.
      cbn [snd] in Hroot.
      unfold AggregateRoot.getUncommittedEvents, AggregateRoot.id in *.
      simpl in H. rewrite Hroot in H. exact H.
    + injection H as _ <-. cbn [snd] in Hroot.
      unfold AggregateRoot.getUncommittedEvents, AggregateRoot.id.
      cbn [AggregateRoot.super TaskAggregate.subclass]. rewrite Hroot. auto.
Qed.

(** An aggregate [getById] returns has an empty buffer. *)
Lemma getById_buffer id_ c table task table' :
  EventSourcedTaskRepository.getById id_ c table = (Returned task, table') ->
  AggregateRoot.getUncommittedEvents task = [].
Proof.
  rewrite getById_unfold.
  destruct (getEvents id_ None table) as [|event events]; [discriminate|].
  destruct (AggregateRoot.loadFromHistory _ _) as [[u|e] task1] eqn:Hload;
    [|discriminate].
  intros [= <- _]. now apply loadFromHistory_root in Hload as [-> _].
Qed.

(** X25 -- an update that changes nothing.  When the task [getById] returns
    is Pending and the update passes the field checks and equals the state
    in every supplied field once trimmed, [updateTask] returns normally and
    the table and the bus are left as they were: nothing is saved and
    nothing is published. *)
Theorem updateTask_without_changes :
  forall (taskId : string) (c : TaskAggregate.Construction) (env : Env)
         (updates : TaskAggregate.Updates) (updatedBy : option string)
         (table : Table) (bus : InMemoryEventBus.t W) (task : TaskAggregate.t),
    EventSourcedTaskRepository.getById taskId c table = (Returned task, table) ->
    TaskAggregate.status task = PENDING ->
    passesValidation updates = true ->
    identicalToState updates task ->
    TaskService.updateTask taskId updates updatedBy c env (table, bus)
    = (Returned tt, (table, bus)).
Proof.
  intros taskId c env updates updatedBy table bus task Hget Hstatus Hvalid Hsame.
  rewrite updateTask_shape. unfold loadMutateSave. cbn [fst snd mutate].
  rewrite Hget, update_after_checks by assumption.
  rewrite identical_hasChanges by assumption. cbn [negb].
  now rewrite (getById_buffer _ _ _ _ _ Hget).
Qed.

End UseCases.

Lemma createTask_rejects_invalid_input_witness :
  exists message field,
    TaskService.createTask Sample.blankData Sample.construction Sample.env1
                           (Sample.tableWithOne, InMemoryEventBus.new tt)
    = (Thrown (ValidationError message field),
       (Sample.tableWithOne, InMemoryEventBus.new tt)).
Proof.
  apply createTask_rejects_invalid_input. vm_compute. reflexivity.
Defined.

Lemma use_case_on_unknown_task_witness :
  TaskService.completeTask "7d3c1f9e-0000-4000-8000-000000000002"
    Sample.completeData Sample.reconstruction Sample.env3
    (Sample.tableWithOne, InMemoryEventBus.new tt)
  = (Thrown (newNotFoundError "Task" (Some "7d3c1f9e-0000-4000-8000-000000000002")),
     (Sample.tableWithOne, InMemoryEventBus.new tt))
  /\ TaskService.cancelTask "7d3c1f9e-0000-4000-8000-000000000002"
       Sample.cancelData Sample.reconstruction Sample.env3
       (Sample.tableWithOne, InMemoryEventBus.new tt)
     = (Thrown (newNotFoundError "Task" (Some "7d3c1f9e-0000-4000-8000-000000000002")),
        (Sample.tableWithOne, InMemoryEventBus.new tt))
  /\ TaskService.updateTask "7d3c1f9e-0000-4000-8000-000000000002"
       Sample.sameTitleNewPriority None Sample.reconstruction Sample.env3
       (Sample.tableWithOne, InMemoryEventBus.new tt)
     = (Thrown (newNotFoundError "Task" (Some "7d3c1f9e-0000-4000-8000-000000000002")),
        (Sample.tableWithOne, InMemoryEventBus.new tt)).
Proof.
  apply (use_case_on_unknown_task unit "7d3c1f9e-0000-4000-8000-000000000002"
           Sample.reconstruction Sample.env3 Sample.completeData Sample.cancelData
           Sample.sameTitleNewPriority None
           (Sample.tableWithOne, InMemoryEventBus.new tt)).
  - vm_compute. reflexivity.
  - vm_compute. reflexivity.
Defined.

Lemma use_case_on_finished_task_witness :
  (exists e,
      TaskService.completeTask "7d3c1f9e-0000-4000-8000-000000000001"
        Sample.completeData Sample.reconstruction Sample.env3
        (Sample.tableWithTwo, InMemoryEventBus.new tt)
      = (Thrown e, (Sample.tableWithTwo, InMemoryEventBus.new tt))
      /\ isValidationError e = true)
  /\ (exists e,
         TaskService.cancelTask "7d3c1f9e-0000-4000-8000-000000000001"
           Sample.cancelData Sample.reconstruction Sample.env3
           (Sample.tableWithTwo, InMemoryEventBus.new tt)
         = (Thrown e, (Sample.tableWithTwo, InMemoryEventBus.new tt))
         /\ isValidationError e = true)
  /\ (exists e,
         TaskService.updateTask "7d3c1f9e-0000-4000-8000-000000000001"
           Sample.sameTitleNewPriority None Sample.reconstruction Sample.env3
           (Sample.tableWithTwo, InMemoryEventBus.new tt)
         = (Thrown e, (Sample.tableWithTwo, InMemoryEventBus.new tt))
         /\ isValidationError e = true).
Proof.
  apply (use_case_on_finished_task unit "7d3c1f9e-0000-4000-8000-000000000001"
           Sample.reconstruction Sample.env3 Sample.completeData Sample.cancelData
           Sample.sameTitleNewPriority None Sample.tableWithTwo
           (InMemoryEventBus.new tt) Sample.finished).
  - vm_compute. reflexivity.
  - left. vm_compute. reflexivity.
Defined.

Lemma updateTask_without_changes_witness :
  TaskService.updateTask "7d3c1f9e-0000-4000-8000-000000000001"
    (Sample.onlyTitle "  A ") None Sample.reconstruction Sample.env3
    (Sample.tableWithOne, InMemoryEventBus.new tt)
  = (Returned tt, (Sample.tableWithOne, InMemoryEventBus.new tt)).
Proof.
  apply (updateTask_without_changes unit "7d3c1f9e-0000-4000-8000-000000000001"
           Sample.reconstruction Sample.env3 (Sample.onlyTitle "  A ") None
           Sample.tableWithOne (InMemoryEventBus.new tt) Sample.loaded).
  - vm_compute. reflexivity.
  - vm_compute. reflexivity.
  - vm_compute. reflexivity.
  - repeat split; intros x Hx; inversion Hx; subst; vm_compute; reflexivity.
Defined.

Section Writes.

Import PostgreSQLEventStore.

Variable W : Type.

Implicit Types (task : TaskAggregate.t) (table : Table)
  (bus : InMemoryEventBus.t W).

Lemma loadFromHistory_returned_known (events : list DomainEvent) task task' :
  AggregateRoot.loadFromHistory events task = (Returned tt, task') ->
  Forall (fun event => knownKind event = true) events.
Proof.
  revert task. induction events as [|event events IH]; intros task H;
    [constructor|].
  unfold AggregateRoot.loadFromHistory in *. cbn [forEach] in H.
  unfold bind at 1 in H. unfold bind at 1 in H.
  change (AggregateRoot.applyEvent event task)
    with (TaskAggregate.applyEvent event task) in H.
  pose proof (applyEvent_outcome event task) as Hout.
  destruct (TaskAggregate.applyEvent event task) as [[u|e1] task1];
    [|discriminate].
  constructor.
  - unfold knownKind. cbn [fst] in Hout.
    destruct (payload event); try reflexivity. discriminate.
  - cbn [AggregateRoot.incrementVersion modify] in H. eapply IH, H.
Qed.

(** What [getById] returned, on a table with contiguous versions. *)
Lemma getById_returned id_ c table task table' :
  contiguous table ->
  id_ <> "" ->
  EventSourcedTaskRepository.getById id_ c table = (Returned task, table') ->
  AggregateRoot.id task = id_
  /\ AggregateRoot.version task = getCurrentVersion id_ table
  /\ 1 <= AggregateRoot.version task
  /\ AggregateRoot.getUncommittedEvents task = [].
Proof.
  intros Hc Hid Hget.
  assert (Hexists : aggregateExists id_ table = true).
  { destruct (aggregateExists id_ table) eqn:H; [reflexivity|].
    rewrite getById_missing in Hget by assumption. discriminate. }
  assert (Hknown : historyIsKnown id_ table).
  { rewrite getById_unfold in Hget.
    pose proof (getEvents_contiguous_rows id_ table Hc) as Hevents.
    destruct (getEvents id_ None table) as [|event events] eqn:Hread;
      [discriminate|].
    destruct (AggregateRoot.loadFromHistory _ _) as [[[]|e] task1] eqn:Hload;
      [|discriminate].
    apply loadFromHistory_returned_known in Hload. rewrite Hevents in Hload.
    unfold historyIsKnown. now apply Forall_map in Hload. }
  destruct (getById_loaded id_ c table Hc Hid Hexists Hknown)
    as (task0 & Hget0 & Hfacts).
  rewrite Hget0 in Hget. injection Hget as <- _.
  tauto.
Qed.

Lemma raiseEvent_known event task :
  knownKind event = true ->
  AggregateRoot.raiseEvent event task
  = (Returned tt, snd (AggregateRoot.raiseEvent event task)).
Proof.
  unfold knownKind, AggregateRoot.raiseEvent, AggregateRoot.push, bind, modify.
  cbn [AggregateRoot.applyEvent TaskAggregate.subclass].
  unfold TaskAggregate.applyEvent.
  destruct (payload event); try discriminate; reflexivity.
Qed.

(** A loaded task whose mutation raised one event is refused by the store. *)
Lemma loadMutateSave_conflict (m : Mutation) (skip : bool) taskId c table bus
    task event :
  contiguous table ->
  taskId <> "" ->
  EventSourcedTaskRepository.getById taskId c table = (Returned task, table) ->
  knownKind event = true ->
  mutate m task = AggregateRoot.raiseEvent event task ->
  loadMutateSave m skip taskId c (table, bus)
  = (Thrown (ConflictError
               (conflictMessage (getCurrentVersion taskId table - 1)
                                (getCurrentVersion taskId table) taskId)),
     (table, bus)).
Proof.
  intros Hc Hid Hget Hknown Hm.
  destruct (getById_returned _ _ _ _ _ Hc Hid Hget)
    as (Hident & Hversion & Hpos & Hbuffer).
  unfold loadMutateSave. cbn [fst snd]. rewrite Hget, Hm.
  rewrite (raiseEvent_known _ _ Hknown).
  rewrite raiseEvent_buffer, Hbuffer. cbn [app List.length Nat.ltb Nat.leb negb].
  rewrite andb_false_r.
  rewrite save_nonempty by (rewrite raiseEvent_buffer, Hbuffer; discriminate).
  rewrite raiseEvent_buffer, raiseEvent_id, raiseEvent_version, Hbuffer.
  rewrite Hident, Hversion. cbn [app List.length Z.of_nat Pos.of_succ_nat].
  rewrite saveEvents_nonempty by discriminate.
  destruct (Z.eqb_spec (getCurrentVersion taskId table)
                       (getCurrentVersion taskId table - 1)); [lia | reflexivity].
Qed.

(** X26 -- a write through the service on a stored task.  On a table with
    contiguous versions, when the task [getById] returns for an id that is
    not empty is Pending, [completeTask] and [cancelTask] hand the store the
    one event they raised with the expected version one below the version
    the store holds for the task; the store refuses it, the use case throws
    the concurrency conflict that reports both versions, and the table and
    the bus are left as they were.  The same holds for [updateTask] with an
    update that passes the field checks and changes something. *)
Theorem write_on_stored_task_conflicts :
  forall (taskId : string) (c : TaskAggregate.Construction) (env : Env)
         (completion : TaskService.CompleteTaskData)
         (cancellation : TaskService.CancelTaskData)
         (updates : TaskAggregate.Updates) (updatedBy : option string)
         (table : Table) (bus : InMemoryEventBus.t W) (task : TaskAggregate.t),
    contiguous table ->
    taskId <> "" ->
    EventSourcedTaskRepository.getById taskId c table = (Returned task, table) ->
    TaskAggregate.status task = PENDING ->
    let conflict :=
      ConflictError (conflictMessage (getCurrentVersion taskId table - 1)
                                     (getCurrentVersion taskId table) taskId) in
    TaskService.completeTask taskId completion c env (table, bus)
    = (Thrown conflict, (table, bus))
    /\ TaskService.cancelTask taskId cancellation c env (table, bus)
       = (Thrown conflict, (table, bus))
    /\ (passesValidation updates = true ->
        TaskAggregate.hasChanges updates task = true ->
        TaskService.updateTask taskId updates updatedBy c env (table, bus)
        = (Thrown conflict, (table, bus))).
Proof.
  intros taskId c env completion cancellation updates updatedBy table bus task
         Hc Hid Hget Hstatus conflict. subst conflict.
  rewrite completeTask_shape, cancelTask_shape, updateTask_shape.
  split; [|split].
  - eapply loadMutateSave_conflict; try eassumption.
    2:{ cbn [mutate]. unfold TaskAggregate.complete, TaskAggregate.status in *.
        rewrite Hstatus. cbn [TaskStatus_eqb negb]. reflexivity. }
    reflexivity.
  - eapply loadMutateSave_conflict; try eassumption.
    2:{ cbn [mutate]. unfold TaskAggregate.cancel, TaskAggregate.status in *.
        rewrite Hstatus. cbn [TaskStatus_eqb]. reflexivity. }
    reflexivity.
  - intros Hvalid Hchanges.
    eapply loadMutateSave_conflict; try eassumption.
    2:{ cbn [mutate]. rewrite update_after_checks by assumption.
        rewrite Hchanges. cbn [negb]. reflexivity. }
    reflexivity.
Qed.

(** On a table with contiguous versions, a use case on a stored task that
    throws has changed nothing: it threw at [getById], in the mutation, or
    at the [save] of the one event the mutation raised. *)
Lemma loadMutateSave_thrown (m : Mutation) (skip : bool) taskId c table bus e
    (s' : TaskService.State W) :
  contiguous table ->
  taskId <> "" ->
  loadMutateSave m skip taskId c (table, bus) = (Thrown e, s') ->
  s' = (table, bus).
Proof.
  intros Hc Hid. unfold loadMutateSave. cbn [fst snd].
  destruct (EventSourcedTaskRepository.getById taskId c table)
    as [[task|e0] table'] eqn:Hget.
  - pose proof (getById_table _ _ _ _ _ Hget) as ->.
    destruct (getById_returned _ _ _ _ _ Hc Hid Hget)
      as (Hident & Hversion & Hpos & Hbuffer).
    pose proof (mutate_cases m task) as Hcases.
    destruct (mutate m task) as [[u|e1] task1]; [|now intros [= _ <-]].
    cbn [snd] in Hcases. destruct Hcases as [->|(event & -> & _)].
    + rewrite Hbuffer. cbn [List.length Nat.ltb Nat.leb negb].
      rewrite andb_true_r. destruct skip; [discriminate|].
      rewrite save_empty by assumption. discriminate.
    + rewrite raiseEvent_buffer, Hbuffer. cbn [app List.length Nat.ltb Nat.leb negb].
      rewrite andb_false_r.
      rewrite save_nonempty by (rewrite raiseEvent_buffer, Hbuffer; discriminate).
      rewrite raiseEvent_buffer, raiseEvent_id, raiseEvent_version, Hbuffer.
      rewrite Hident, Hversion. cbn [app List.length Z.of_nat Pos.of_succ_nat].
      rewrite saveEvents_nonempty by discriminate.
      destruct (Z.eqb_spec (getCurrentVersion taskId table)
                           (getCurrentVersion taskId table - 1)); [lia|].
      now intros [= _ <-].
  - apply getById_table in Hget as ->. now intros [= _ <-].
Qed.

(** On a table with contiguous versions [createTask] throws, at the checks
    of [createNew] or at [save], and has changed nothing. *)
Lemma createTask_thrown (data : TaskService.CreateTaskData)
    (c : TaskAggregate.Construction) (env : Env) table bus :
  contiguous table ->
  exists e, TaskService.createTask data c env (table, bus) = (Thrown e, (table, bus)).
Proof.
  intros Hc. unfold TaskService.createTask. rewrite tryCatch_rethrow. cbn [fst snd].
  destruct (TaskAggregate.createNew _ _ _ _ c env) as [task|e0] eqn:Hnew;
    [|now exists e0].
  apply createNew_returned in Hnew as (_ & _ & _ & ->).
  assert (Hbuffer : AggregateRoot.getUncommittedEvents (TaskAggregate.new None c) = [])
    by reflexivity.
  rewrite save_nonempty by (rewrite raiseEvent_buffer, Hbuffer; discriminate).
  rewrite raiseEvent_buffer, raiseEvent_id, raiseEvent_version, Hbuffer.
  cbn [app List.length Z.of_nat Pos.of_succ_nat].
  rewrite saveEvents_nonempty by discriminate.
  rewrite getCurrentVersion_contiguous by assumption.
  change (AggregateRoot.version (TaskAggregate.new None c)) with 0.
  destruct (Z.eqb_spec (Z.of_nat (List.length
                                    (versionsOf (AggregateRoot.id (TaskAggregate.new None c))
                                                table)))
                       (0 - 1)); [lia|].
  eexists. reflexivity.
Qed.

(** X21 -- a use case that fails leaves no trace.  On a table with
    contiguous versions, whatever [createTask] throws, and whatever
    [completeTask], [cancelTask] or [updateTask] throws for a task id that
    is not empty, the table and the bus (handlers, world, log and event
    loop) are afterwards what they were before the call: nothing was stored
    and nothing was published.  On such a table the [save] of a buffer that
    is not empty is refused, so that [publish] is not reached with an event
    to publish. *)
Theorem failed_use_case_leaves_no_trace :
  forall (s : TaskService.State W) (taskId : string)
         (c : TaskAggregate.Construction) (env : Env)
         (data : TaskService.CreateTaskData)
         (completion : TaskService.CompleteTaskData)
         (cancellation : TaskService.CancelTaskData)
         (updates : TaskAggregate.Updates) (updatedBy : option string),
    contiguous (fst s) ->
    taskId <> "" ->
    (forall e s', TaskService.createTask data c env s = (Thrown e, s') -> s' = s)
    /\ (forall e s',
           TaskService.completeTask taskId completion c env s = (Thrown e, s') ->
           s' = s)
    /\ (forall e s',
           TaskService.cancelTask taskId cancellation c env s = (Thrown e, s') ->
           s' = s)
    /\ (forall e s',
           TaskService.updateTask taskId updates updatedBy c env s = (Thrown e, s') ->
           s' = s).
Proof.
  intros [table bus] taskId c env data completion cancellation updates updatedBy
         Hc Hid.
  cbn [fst] in Hc. split; [|split; [|split]]; intros e s'.
  - destruct (createTask_thrown data c env table bus Hc) as [e0 ->].
    now intros [= _ <-].
  - rewrite completeTask_shape. now apply loadMutateSave_thrown.
  - rewrite cancelTask_shape. now apply loadMutateSave_thrown.
  - rewrite updateTask_shape. now apply loadMutateSave_thrown.
Qed.

End Writes.

Lemma write_on_stored_task_conflicts_witness :
  TaskService.completeTask "7d3c1f9e-0000-4000-8000-000000000001"
    Sample.completeData Sample.reconstruction Sample.env3
    (Sample.tableWithOne, InMemoryEventBus.new tt)
  = (Thrown (ConflictError
               (PostgreSQLEventStore.conflictMessage
                  (PostgreSQLEventStore.getCurrentVersion
                     "7d3c1f9e-0000-4000-8000-000000000001" Sample.tableWithOne - 1)
                  (PostgreSQLEventStore.getCurrentVersion
                     "7d3c1f9e-0000-4000-8000-000000000001" Sample.tableWithOne)
                  "7d3c1f9e-0000-4000-8000-000000000001")),
     (Sample.tableWithOne, InMemoryEventBus.new tt)).
Proof.
  refine (proj1 (write_on_stored_task_conflicts
                   unit "7d3c1f9e-0000-4000-8000-000000000001"
                   Sample.reconstruction Sample.env3 Sample.completeData
                   Sample.cancelData Sample.sameTitleNewPriority None
                   Sample.tableWithOne (InMemoryEventBus.new tt) Sample.loaded
                   _ _ _ _)).
  - exact tableWithOne_contiguous.
  - discriminate.
  - vm_compute. reflexivity.
  - vm_compute. reflexivity.
Defined.

Lemma failed_use_case_leaves_no_trace_witness :
  snd (TaskService.completeTask "7d3c1f9e-0000-4000-8000-000000000001"
         Sample.completeData Sample.reconstruction Sample.env3
         (Sample.tableWithOne, Sample.strictBus))
  = (Sample.tableWithOne, Sample.strictBus).
Proof.
  eapply (proj1 (proj2 (failed_use_case_leaves_no_trace
                          (list string) (Sample.tableWithOne, Sample.strictBus)
                          "7d3c1f9e-0000-4000-8000-000000000001"
                          Sample.reconstruction Sample.env3 Sample.data
                          Sample.completeData Sample.cancelData
                          Sample.sameTitleNewPriority None
                          tableWithOne_contiguous ltac:(discriminate)))).
  vm_compute. reflexivity.
Defined.

(** The same evaluated: the store holds version 1, the use case expects 0. *)
Example completeTask_sample :
  TaskService.completeTask "7d3c1f9e-0000-4000-8000-000000000001"
    Sample.completeData Sample.reconstruction Sample.env3
    (Sample.tableWithOne, InMemoryEventBus.new tt)
  = (Thrown (ConflictError
               "Concurrency conflict: Expected version 0, but current version is 1 for aggregate 7d3c1f9e-0000-4000-8000-000000000001"),
     (Sample.tableWithOne, InMemoryEventBus.new tt)).
Proof. vm_compute. reflexivity. Qed.
